(** * Schema alignment and reconstruction pipeline of trip_recommender

    A shallow embedding of the Python scripts

    - [scripts/build_ref_text.py]   (schema loader, reader of the
                                     responses, matcher, exporter),
    - [scripts/build_user_json.py]  (schema loader, ref-aligned parser,
                                     answer-type inference, payload builder),
    - [logic/normalize_typeform.py] (response normaliser),
    - [scripts/build_trip_catalog.py] (reader of the trip list),
    - [run_local.py]                (key lookup [find_key]),

    followed by the properties the specification states about them and by
    further properties of the code.  The command-line entry points, which
    read and write files and call remote services, are not part of the
    embedding.

    Conventions of the embedding.

    - Python [str] values are lists of characters, [str := list ascii]; a
      character is read as the code point U+0000..U+00FF it denotes, and the
      character classes below ([isspace], [isdigit], [lower_char], line
      boundaries) are Python's on that range.
    - JSON documents and Python dicts are the inductive type [json]; a dict
      is an association list in insertion order, as Python dicts are.
    - A Python exception is a value of [exn]; a function that can raise
      returns [result A := exn + A].
    - [print] is modelled by an explicit log and [datetime.utcnow()] by an
      explicit clock reading passed as an argument. *)

From Stdlib Require Import String.
From Stdlib Require Import List Ascii Bool Arith NArith ZArith QArith Lia.
Import ListNotations.

Close Scope Q_scope.
Open Scope nat_scope.

Set Implicit Arguments.

(* ================================================================== *)
(** * Python text primitives *)
(* ================================================================== *)

Module Py.

Definition str := list ascii.

(** String literals of the development. *)
Definition lit (s : String.string) : str := String.list_ascii_of_string s.
Arguments lit s%_string.

Definition code (c : ascii) : N := N_of_ascii c.

Definition between (lo hi : N) (c : ascii) : bool :=
  ((lo <=? code c) && (code c <=? hi))%N.

(** [str.isspace] on one character, which is also the regular expression
    class [\s] on [str] patterns: TAB..CR, FS..US, SPACE, NEL, NBSP. *)
Definition isspace (c : ascii) : bool :=
  between 9 13 c || between 28 32 c || (code c =? 133)%N || (code c =? 160)%N.

(** The regular expression class [\d] (decimal digits). *)
Definition isdigit (c : ascii) : bool := between 48 57 c.

Definition isupper_ascii (c : ascii) : bool := between 65 90 c.
Definition islower_ascii (c : ascii) : bool := between 97 122 c.

(** [str.lower] on one character: A-Z and the Latin-1 capitals
    U+00C0..U+00DE (the multiplication sign U+00D7 excepted) move up by 32. *)
Definition lower_char (c : ascii) : ascii :=
  if isupper_ascii c || (between 192 222 c && negb (code c =? 215)%N)
  then ascii_of_N (code c + 32)
  else c.

Definition lower (s : str) : str := map lower_char s.

(** [str.lstrip()], [str.rstrip()], [str.strip()] without argument. *)
Fixpoint lstrip (s : str) : str :=
  match s with
  | c :: t => if isspace c then lstrip t else s
  | [] => []
  end.

Definition rstrip (s : str) : str := rev (lstrip (rev s)).

Definition strip (s : str) : str := rstrip (lstrip s).

(** Truthiness of a string: [if s:] holds for the non-empty ones. *)
Definition truthy (s : str) : bool :=
  match s with [] => false | _ :: _ => true end.

Definition eqb_char (a b : ascii) : bool := Ascii.eqb a b.

Fixpoint eqb (a b : str) : bool :=
  match a, b with
  | [], [] => true
  | x :: a', y :: b' => eqb_char x y && eqb a' b'
  | _, _ => false
  end.

(** Order of Python strings: lexicographic on code points. *)
Fixpoint compare (a b : str) : comparison :=
  match a, b with
  | [], [] => Eq
  | [], _ :: _ => Lt
  | _ :: _, [] => Gt
  | x :: a', y :: b' =>
      match (code x ?= code y)%N with
      | Eq => compare a' b'
      | o => o
      end
  end.

(** [sep.join(parts)]. *)
Fixpoint join (sep : str) (parts : list str) : str :=
  match parts with
  | [] => []
  | [p] => p
  | p :: rest => p ++ sep ++ join sep rest
  end.

(** [a.startswith(p)] and the same ignoring case, as a regular expression
    literal matches under [re.IGNORECASE] on this character range. *)
Fixpoint startswith (p s : str) : bool :=
  match p, s with
  | [], _ => true
  | x :: p', y :: s' => eqb_char x y && startswith p' s'
  | _ :: _, [] => false
  end.

Fixpoint startswith_ci (p s : str) : bool :=
  match p, s with
  | [], _ => true
  | x :: p', y :: s' =>
      eqb_char (lower_char x) (lower_char y) && startswith_ci p' s'
  | _ :: _, [] => false
  end.

(** [p in s] for strings. *)
Fixpoint contains (p s : str) : bool :=
  startswith p s ||
  match s with
  | [] => false
  | _ :: s' => contains p s'
  end.

(** Line boundaries of [str.splitlines]: LF, VT, FF, CR, FS, GS, RS, NEL
    (and CR LF taken as one boundary). *)
Definition islinebreak (c : ascii) : bool :=
  between 10 13 c || between 28 30 c || (code c =? 133)%N.

Definition isCR (c : ascii) : bool := (code c =? 13)%N.
Definition isLF (c : ascii) : bool := (code c =? 10)%N.

(** [splitlines_from cur s]: [cur] is the line being read, reversed. *)
Fixpoint splitlines_from (cur : str) (s : str) : list str :=
  match s with
  | [] => match cur with [] => [] | _ => [rev cur] end
  | c :: t =>
      if islinebreak c then
        match t with
        | d :: t' =>
            if isCR c && isLF d
            then rev cur :: splitlines_from [] t'
            else rev cur :: splitlines_from [] t
        | [] => [rev cur]
        end
      else splitlines_from (c :: cur) t
  end.

Definition splitlines (s : str) : list str := splitlines_from [] s.

(** Decimal rendering of a natural number, as [str(i)] or [f"{i}"]. *)
Definition digit_char (d : nat) : ascii := ascii_of_nat (48 + d).

Fixpoint decimal_fuel (fuel n : nat) (acc : str) : str :=
  match fuel with
  | O => acc
  | S fuel' =>
      let acc' := digit_char (n mod 10) :: acc in
      if n <? 10 then acc' else decimal_fuel fuel' (n / 10) acc'
  end.

Definition decimal (n : nat) : str := decimal_fuel (S n) n [].

(** Value of a run of decimal digits, [int(run)]. *)
Definition digit_value (c : ascii) : N := (code c - 48)%N.

Definition int_of_digits (run : str) : N :=
  fold_left (fun acc c => (10 * acc + digit_value c)%N) run 0%N.

(** [float(n)] of a natural number, as [float] of its decimal digits
    gives it: the nearest double.  The 53 leading bits of [n] are kept;
    the bits below them round the last kept bit up when they are more
    than half of it, and to the even neighbour when they are exactly
    half.  [None] stands for [inf], the result once the rounded value
    reaches 2^1024. *)
Definition double_of_N (n : N) : option N :=
  let e := (N.size n - 53)%N in
  let q := N.shiftr n e in
  let r := N.land n (N.ones e) in
  let half := N.shiftl 1 (e - 1) in
  let q' := if (half <? r)%N || ((r =? half)%N && N.odd q)
            then (q + 1)%N else q in
  let v := N.shiftl q' e in
  if (1024 <? N.size v)%N then None else Some v.

(** Leading run of characters satisfying [p], and what follows it. *)
Fixpoint take_while (p : ascii -> bool) (s : str) : str :=
  match s with
  | c :: t => if p c then c :: take_while p t else []
  | [] => []
  end.

Fixpoint drop_while (p : ascii -> bool) (s : str) : str :=
  match s with
  | c :: t => if p c then drop_while p t else s
  | [] => []
  end.

(** [s.split(sep)] for a separator of one character: the pieces between
    its occurrences, at least one piece. *)
Fixpoint split_on (sep : ascii) (s : str) : list str :=
  match s with
  | [] => [[]]
  | c :: t =>
      if eqb_char c sep then [] :: split_on sep t
      else
        match split_on sep t with
        | p :: ps => (c :: p) :: ps
        | [] => [[c]]
        end
  end.

(** [s.split(sep, 1)] for a separator of one character, when it gives
    two pieces: what precedes the first occurrence and what follows it. *)
Fixpoint split_once (sep : ascii) (s : str) : option (str * str) :=
  match s with
  | [] => None
  | c :: t =>
      if eqb_char c sep then Some ([], t)
      else
        match split_once sep t with
        | Some (a, b) => Some (c :: a, b)
        | None => None
        end
  end.

(** [s.replace(old, new)] for a non-empty [old]: the occurrences are
    taken from left to right and do not overlap; [skip] counts the
    characters of an occurrence still to be passed. *)
Fixpoint replace_from (old new : str) (skip : nat) (s : str) : str :=
  match s with
  | [] => []
  | c :: t =>
      match skip with
      | S skip' => replace_from old new skip' t
      | O =>
          if startswith old s
          then new ++ replace_from old new (length old - 1) t
          else c :: replace_from old new 0 t
      end
  end.

Definition replace (old new : str) (s : str) : str :=
  replace_from old new 0 s.

(** The limit of the interpreter on the digits of an integer literal
    ([sys.int_info.default_max_str_digits]). *)
Definition max_str_digits : nat := 4300.

(** The digits of an integer literal, where single underscores may
    stand between two digits: their value and their number.
    [after_digit] tells that the character before is a digit. *)
Fixpoint digits_value (acc : N) (count : nat) (after_digit : bool) (s : str)
  : option (N * nat) :=
  match s with
  | [] => if after_digit then Some (acc, count) else None
  | c :: t =>
      if isdigit c
      then digits_value (10 * acc + digit_value c)%N (S count) true t
      else if eqb_char c (ascii_of_nat 95) && after_digit
           then digits_value acc count false t
           else None
  end.

(** The white space that [int] passes over around a literal: TAB..CR,
    SPACE, NEL, NBSP (the separators FS..US are not among them). *)
Definition int_space (c : ascii) : bool :=
  between 9 13 c || (code c =? 32)%N || (code c =? 133)%N || (code c =? 160)%N.

(** [int(s)] for a string, in base 10: white space around the literal, a
    sign, digits.  [None] stands for [ValueError]. *)
Definition int_of_str (s : str) : option Z :=
  let body := rev (drop_while int_space (rev (drop_while int_space s))) in
  let '(negative, literal) :=
    match body with
    | c :: t =>
        if eqb_char c (ascii_of_nat 45) then (true, t)
        else if eqb_char c (ascii_of_nat 43) then (false, t)
        else (false, body)
    | [] => (false, body)
    end in
  match digits_value 0 0 false literal with
  | Some (n, count) =>
      if max_str_digits <? count then None
      else Some (if negative then (- Z.of_N n)%Z else Z.of_N n)
  | None => None
  end.

End Py.

Abbreviation str := Py.str.

(* ================================================================== *)
(** * Exceptions, dicts and JSON values *)
(* ================================================================== *)

Inductive exn : Type :=
| AttributeError
| TypeError
| KeyError (key : str).

Definition result (A : Type) : Type := (exn + A)%type.

Definition ok {A : Type} (a : A) : result A := inr a.
Definition raise {A : Type} (e : exn) : result A := inl e.

Definition bind {A B : Type} (m : result A) (k : A -> result B) : result B :=
  match m with
  | inl e => inl e
  | inr a => k a
  end.

Notation "x <- m ;; k" := (bind m (fun x => k))
  (at level 61, m at next level, right associativity).

(** A [for] loop whose body may raise: the first exception ends it. *)
Fixpoint for_each {A B : Type} (body : A -> result B) (l : list A)
  : result (list B) :=
  match l with
  | [] => ok []
  | x :: rest =>
      y <- body x ;;
      ys <- for_each body rest ;;
      ok (y :: ys)
  end.

(** Python dicts with string keys, in insertion order. *)
Module Dict.

Definition t (A : Type) : Type := list (str * A).

Fixpoint get {A : Type} (k : str) (d : t A) : option A :=
  match d with
  | [] => None
  | (k', v) :: rest => if Py.eqb k k' then Some v else get k rest
  end.

Definition mem {A : Type} (k : str) (d : t A) : bool :=
  match get k d with Some _ => true | None => false end.

(** [d[k] = v]: an existing key keeps its place, a new one goes last. *)
Fixpoint set {A : Type} (k : str) (v : A) (d : t A) : t A :=
  match d with
  | [] => [(k, v)]
  | (k', v') :: rest =>
      if Py.eqb k k' then (k', v) :: rest else (k', v') :: set k v rest
  end.

Definition keys {A : Type} (d : t A) : list str := map fst d.

(** [d.update(other)]. *)
Definition update {A : Type} (d other : t A) : t A :=
  fold_left (fun acc kv => set (fst kv) (snd kv) acc) other d.

End Dict.

(** JSON values as [json.loads] builds them.  Numbers are exact
    rationals; a Python float that is a whole number is the same rational
    here.  [JInf] is the float [inf], which [float] returns for digits
    beyond the range of the doubles. *)
#[local] Unset Elimination Schemes.
Inductive json : Type :=
| JNull
| JBool (b : bool)
| JNum (q : Q)
| JInf
| JStr (s : str)
| JArr (items : list json)
| JObj (members : Dict.t json).
#[local] Set Elimination Schemes.

Module Json.

(** [x.get(key)] and [x.get(key, default)]: only a dict has [get]. *)
Definition get (key : str) (x : json) : result json :=
  match x with
  | JObj d => ok (match Dict.get key d with Some v => v | None => JNull end)
  | _ => raise AttributeError
  end.

Definition get_default (key : str) (default : json) (x : json) : result json :=
  match x with
  | JObj d => ok (match Dict.get key d with Some v => v | None => default end)
  | _ => raise AttributeError
  end.

(** [x[key]] on a dict. *)
Definition item (key : str) (x : json) : result json :=
  match x with
  | JObj d =>
      match Dict.get key d with
      | Some v => ok v
      | None => raise (KeyError key)
      end
  | _ => raise TypeError
  end.

(** The elements a [for] loop over [x] visits: the items of a list, the
    characters of a string, the keys of a dict; nothing else iterates. *)
Definition iter (x : json) : result (list json) :=
  match x with
  | JArr items => ok items
  | JStr s => ok (map (fun c => JStr [c]) s)
  | JObj d => ok (map JStr (Dict.keys d))
  | _ => raise TypeError
  end.

(** [bool(x)]. *)
Definition truthy (x : json) : bool :=
  match x with
  | JNull => false
  | JBool b => b
  | JNum q => negb (Qeq_bool q 0%Q)
  | JInf => true
  | JStr s => Py.truthy s
  | JArr items => match items with [] => false | _ => true end
  | JObj d => match d with [] => false | _ => true end
  end.

(** [x == "literal"]: only the string itself equals a string. *)
Definition is_str (s : str) (x : json) : bool :=
  match x with
  | JStr s' => Py.eqb s' s
  | _ => false
  end.

(** Values usable as dict keys, and their equality as keys
    ([True == 1], [False == 0]). *)
Definition hashable (x : json) : bool :=
  match x with
  | JArr _ | JObj _ => false
  | _ => true
  end.

Definition key_eqb (x y : json) : bool :=
  match x, y with
  | JNull, JNull => true
  | JBool a, JBool b => Bool.eqb a b
  | JBool a, JNum q | JNum q, JBool a => Qeq_bool q (if a then 1%Q else 0%Q)
  | JNum p, JNum q => Qeq_bool p q
  | JInf, JInf => true
  | JStr s, JStr s' => Py.eqb s s'
  | _, _ => false
  end.

End Json.

(* ================================================================== *)
(** * The standard library's [difflib], as the matcher calls it *)
(* ================================================================== *)

(** [difflib.get_close_matches(word, possibilities, n=1, cutoff)] and the
    [SequenceMatcher] it drives ([isjunk=None], [autojunk=True]).  Scores
    are Python floats [2.0 * matches / length]; they are exact rationals
    here, which orders and compares them as the floats do for every pair
    of strings shorter than 2^26 characters. *)
Module Difflib.

Definition region : Type := (nat * nat * nat * nat)%type. (* alo ahi blo bhi *)
Definition block : Type := (nat * nat * nat)%type.        (* i j size *)

Definition NUL : ascii := Ascii.zero.

Section SequenceMatcher.

(** [a] is [seq1], [b] is [seq2]. *)
Variables a b : str.

Definition at_a (i : nat) : ascii := nth i a NUL.
Definition at_b (j : nat) : ascii := nth j b NUL.

(** [__chain_b]: the positions of each character in [b], ascending. *)
Fixpoint indices_from (j : nat) (c : ascii) (s : str) : list nat :=
  match s with
  | [] => []
  | d :: t =>
      if Py.eqb_char d c then j :: indices_from (S j) c t
      else indices_from (S j) c t
  end.

(** With [autojunk], a character of a [b] of 200 or more characters
    that fills more than 1% + 1 of it is dropped from [b2j]. *)
Definition popular (c : ascii) : bool :=
  (200 <=? length b) &&
  (length b / 100 + 1 <? length (indices_from 0 c b)).

Definition b2j (c : ascii) : list nat :=
  if popular c then [] else indices_from 0 c b.

(** No junk predicate is given: [bjunk] is empty. *)
Definition isbjunk (c : ascii) : bool := false.

(** [j2len.get(j, 0)]. *)
Fixpoint j2len_get (j : nat) (j2len : list (nat * nat)) : nat :=
  match j2len with
  | [] => 0
  | (j', k) :: rest => if j' =? j then k else j2len_get j rest
  end.

(** The inner loop of [find_longest_match] over [b2j[a[i]]]. *)
Fixpoint scan_row (i blo bhi : nat) (js : list nat)
         (j2len newj2len : list (nat * nat)) (best : block)
  : list (nat * nat) * block :=
  match js with
  | [] => (newj2len, best)
  | j :: js' =>
      if j <? blo then scan_row i blo bhi js' j2len newj2len best
      else if bhi <=? j then (newj2len, best)
      else
        let k := S (match j with
                    | O => 0
                    | S j' => j2len_get j' j2len
                    end) in
        let '(_, _, bestsize) := best in
        let best' :=
          if bestsize <? k then (i + 1 - k, j + 1 - k, k) else best in
        scan_row i blo bhi js' j2len ((j, k) :: newj2len) best'
  end.

(** The outer loop, [for i in range(alo, ahi)]. *)
Fixpoint scan_rows (rows : list nat) (blo bhi : nat)
         (j2len : list (nat * nat)) (best : block) : block :=
  match rows with
  | [] => best
  | i :: rows' =>
      let '(newj2len, best') :=
        scan_row i blo bhi (b2j (at_a i)) j2len [] best in
      scan_rows rows' blo bhi newj2len best'
  end.

(** The two kinds of [while] loops that grow the best block, backwards
    and forwards, over the characters [allowed]. *)
Fixpoint extend_back (allowed : ascii -> bool) (alo blo : nat)
         (besti bestj bestsize : nat) : block :=
  match besti, bestj with
  | S i', S j' =>
      if (alo <? besti) && (blo <? bestj) && allowed (at_b j')
         && Py.eqb_char (at_a i') (at_b j')
      then extend_back allowed alo blo i' j' (S bestsize)
      else (besti, bestj, bestsize)
  | _, _ => (besti, bestj, bestsize)
  end.

Fixpoint extend_fwd (room : nat) (allowed : ascii -> bool) (ahi bhi : nat)
         (besti bestj bestsize : nat) : block :=
  match room with
  | O => (besti, bestj, bestsize)
  | S room' =>
      if (besti + bestsize <? ahi) && (bestj + bestsize <? bhi)
         && allowed (at_b (bestj + bestsize))
         && Py.eqb_char (at_a (besti + bestsize)) (at_b (bestj + bestsize))
      then extend_fwd room' allowed ahi bhi besti bestj (S bestsize)
      else (besti, bestj, bestsize)
  end.

Definition find_longest_match (alo ahi blo bhi : nat) : block :=
  let '(i0, j0, k0) :=
    scan_rows (seq alo (ahi - alo)) blo bhi [] (alo, blo, 0) in
  let nonjunk := fun c => negb (isbjunk c) in
  let '(i1, j1, k1) := extend_back nonjunk alo blo i0 j0 k0 in
  let '(i2, j2, k2) := extend_fwd (ahi - (i1 + k1)) nonjunk ahi bhi i1 j1 k1 in
  let '(i3, j3, k3) := extend_back isbjunk alo blo i2 j2 k2 in
  extend_fwd (ahi - (i3 + k3)) isbjunk ahi bhi i3 j3 k3.

(** [get_matching_blocks]: the work list is a stack, its head the last
    region pushed; [None] only if [fuel] runs out. *)
Fixpoint matching_loop (fuel : nat) (queue : list region)
         (matching_blocks : list block) : option (list block) :=
  match queue with
  | [] => Some matching_blocks
  | (alo, ahi, blo, bhi) :: rest =>
      match fuel with
      | O => None
      | S fuel' =>
          let '(i, j, k) := find_longest_match alo ahi blo bhi in
          if k =? 0 then matching_loop fuel' rest matching_blocks
          else
            let q1 :=
              if (alo <? i) && (blo <? j)
              then (alo, i, blo, j) :: rest else rest in
            let q2 :=
              if (i + k <? ahi) && (j + k <? bhi)
              then (i + k, ahi, j + k, bhi) :: q1 else q1 in
            matching_loop fuel' q2 ((i, j, k) :: matching_blocks)
      end
  end.

Definition get_matching_blocks : option (list block) :=
  matching_loop (2 * length a + 1) [(0, length a, 0, length b)] [].

Definition block_size (x : block) : nat := let '(_, _, k) := x in k.

(** [sum(triple[-1] for triple in self.get_matching_blocks())]; sorting
    and merging the blocks does not change the sum. *)
Definition matches : nat :=
  match get_matching_blocks with
  | Some blocks => list_sum (map block_size blocks)
  | None => 0
  end.

Definition calculate_ratio (matches length : nat) : Q :=
  match length with
  | O => 1%Q
  | S _ => (Z.of_nat (2 * matches) # Pos.of_nat length)%Q
  end.

Definition ratio : Q := calculate_ratio matches (length a + length b).

(** [quick_ratio]: [avail] maps a character of [b] to how many of its
    occurrences are still unused. *)
Fixpoint avail_get (c : ascii) (avail : list (ascii * Z)) : option Z :=
  match avail with
  | [] => None
  | (d, n) :: rest => if Py.eqb_char d c then Some n else avail_get c rest
  end.

Definition fullbcount (c : ascii) : Z :=
  Z.of_nat (length (indices_from 0 c b)).

Fixpoint quick_matches (s : str) (avail : list (ascii * Z)) (acc : nat)
  : nat :=
  match s with
  | [] => acc
  | elt :: rest =>
      let numb :=
        match avail_get elt avail with
        | Some n => n
        | None => fullbcount elt
        end in
      quick_matches rest ((elt, numb - 1)%Z :: avail)
                    (if (0 <? numb)%Z then S acc else acc)
  end.

Definition quick_ratio : Q :=
  calculate_ratio (quick_matches a [] 0) (length a + length b).

Definition real_quick_ratio : Q :=
  calculate_ratio (Nat.min (length a) (length b)) (length a + length b).

End SequenceMatcher.

(** Python's order on the pairs [(score, x)]: the first components that
    differ decide. *)
Definition tuple_gt (p q : Q * str) : bool :=
  if Qeq_bool (fst p) (fst q)
  then match Py.compare (snd p) (snd q) with Gt => true | _ => false end
  else negb (Qle_bool (fst p) (fst q)).

(** [max(it, default=sentinel)]: the first of the greatest items. *)
Definition py_max (items : list (Q * str)) : option (Q * str) :=
  match items with
  | [] => None
  | first :: rest =>
      Some (fold_left (fun maxitem item =>
                         if tuple_gt item maxitem then item else maxitem)
                      rest first)
  end.

(** [heapq.nlargest(1, result)]. *)
Definition nlargest1 (items : list (Q * str)) : list (Q * str) :=
  match py_max items with
  | None => []
  | Some m => [m]
  end.

(** The cutoff test of [get_close_matches], in its order of evaluation. *)
Definition close_enough (cutoff : Q) (word x : str) : bool :=
  Qle_bool cutoff (real_quick_ratio x word) &&
  Qle_bool cutoff (quick_ratio x word) &&
  Qle_bool cutoff (ratio x word).

Definition scored (cutoff : Q) (word : str) (possibilities : list str)
  : list (Q * str) :=
  map (fun x => (ratio x word, x))
      (filter (close_enough cutoff word) possibilities).

(** [get_close_matches(word, possibilities, n=1, cutoff=cutoff)]. *)
Definition get_close_matches (word : str) (possibilities : list str)
           (cutoff : Q) : list str :=
  map snd (nlargest1 (scored cutoff word possibilities)).

End Difflib.

(* ================================================================== *)
(** * [scripts/build_ref_text.py] *)
(* ================================================================== *)

Module BuildRefText.

Definition LF : ascii := ascii_of_nat 10.
Definition SPACE : ascii := ascii_of_nat 32.

(** The characters that [re.sub] with the pattern [[^a-z0-9 ]+] and an
    empty replacement leaves in place. *)
Definition kept (c : ascii) : bool :=
  Py.islower_ascii c || Py.isdigit c || Py.eqb_char c SPACE.

(** [normalize(text)]: lower-case, strip, then delete every run of
    characters outside a-z, 0-9 and space. *)
Definition normalize (text : str) : str :=
  filter kept (Py.strip (Py.lower text)).

(** A schema field as [load_schema] builds it.  [ref] and [type] are
    whatever the document holds; the matcher only copies them. *)
Record field (V : Type) : Type := mkField {
  title : str;
  ref : V;
  type_ : V
}.

Definition load_field (f : json) : result (field json) :=
  t <- Json.get_default (Py.lit "title") (JStr []) f ;;
  t' <- match t with
        | JStr s => ok (Py.strip s)
        | _ => raise AttributeError
        end ;;
  r <- Json.get_default (Py.lit "ref") (JStr []) f ;;
  ty <- Json.get_default (Py.lit "type") (JStr (Py.lit "text")) f ;;
  ok {| title := t'; ref := r; type_ := ty |}.

(** [load_schema], from the parsed document on. *)
Definition load_schema (data : json) : result (list (field json)) :=
  fs <- Json.get_default (Py.lit "fields") (JArr []) data ;;
  items <- Json.iter fs ;;
  for_each load_field items.

Inductive match_kind : Type := EXACT | FUZZY.

Record matched_entry (V : Type) : Type := mkMatched {
  question : str;
  question_ref : V;
  answer : str;
  answer_ref : V;
  match_type : match_kind
}.

(** The cutoff passed to [get_close_matches], 0.45. *)
Definition cutoff : Q := (45 # 100)%Q.

(** Computations of the matcher: a result or an exception, together with
    the words handed to [difflib.get_close_matches], in call order. *)
Definition traced (A : Type) : Type := (list str * result A)%type.

Definition tret {A : Type} (a : A) : traced A := ([], ok a).

Definition tbind {A B : Type} (m : traced A) (k : A -> traced B) : traced B :=
  match m with
  | (calls, inl e) => (calls, inl e)
  | (calls, inr a) => let '(calls', r) := k a in (calls ++ calls', r)
  end.

Definition close_matches (word : str) (possibilities : list str)
  : traced (list str) :=
  ([word], ok (Difflib.get_close_matches word possibilities cutoff)).

(** [d[k]] on a dict of fields. *)
Definition item {A : Type} (k : str) (d : Dict.t A) : traced A :=
  match Dict.get k d with
  | Some v => tret v
  | None => ([], raise (KeyError k))
  end.

Section Matcher.

Context {V : Type}.

Definition qa_pair : Type := (str * str)%type.

(** [{normalize(f["title"]): f for f in fields}]. *)
Definition build_schema_map (fields : list (field V)) : Dict.t (field V) :=
  fold_left (fun m f => Dict.set (normalize (title f)) f m) fields [].

Definition entry_of (f : field V) (ans : str) (kind : match_kind)
  : matched_entry V :=
  {| question := title f;
     question_ref := ref f;
     answer := ans;
     answer_ref := ref f;
     match_type := kind |}.

(** One turn of the loop over [qa_pairs]. *)
Definition match_step (schema_map : Dict.t (field V)) (all_titles : list str)
           (acc : list (matched_entry V) * list qa_pair) (qa : qa_pair)
  : traced (list (matched_entry V) * list qa_pair) :=
  let '(matched, unmatched) := acc in
  let '(question, answer) := qa in
  let norm_q := normalize question in
  if Dict.mem norm_q schema_map then
    tbind (item norm_q schema_map) (fun f =>
    tret (matched ++ [entry_of f answer EXACT], unmatched))
  else
    tbind (close_matches norm_q all_titles) (fun m =>
    match m with
    | best :: _ =>
        tbind (item best schema_map) (fun f =>
        tret (matched ++ [entry_of f answer FUZZY], unmatched))
    | [] => tret (matched, unmatched ++ [(question, answer)])
    end).

Fixpoint match_loop (schema_map : Dict.t (field V)) (all_titles : list str)
         (qa_pairs : list qa_pair)
         (acc : list (matched_entry V) * list qa_pair)
  : traced (list (matched_entry V) * list qa_pair) :=
  match qa_pairs with
  | [] => tret acc
  | qa :: rest =>
      tbind (match_step schema_map all_titles acc qa)
            (match_loop schema_map all_titles rest)
  end.

Definition match_questions (qa_pairs : list qa_pair) (fields : list (field V))
  : traced (list (matched_entry V) * list qa_pair) :=
  let schema_map := build_schema_map fields in
  let all_titles := Dict.keys schema_map in
  match_loop schema_map all_titles qa_pairs ([], []).

End Matcher.

Definition match_kind_name (k : match_kind) : str :=
  match k with
  | EXACT => Py.lit "EXACT"
  | FUZZY => Py.lit "FUZZY"
  end.

(** The five lines and the blank line written for entry number [i]. *)
Definition export_record (i : nat) (m : matched_entry str) : str :=
  Py.decimal i ++ Py.lit ". Q: " ++ question m ++ [LF]
  ++ Py.lit "   Q_ref: " ++ question_ref m ++ [LF]
  ++ Py.lit "   A: " ++ answer m ++ [LF]
  ++ Py.lit "   A_ref: " ++ answer_ref m ++ [LF]
  ++ Py.lit "   Match: " ++ match_kind_name (match_type m) ++ [LF; LF].

Fixpoint export_from (i : nat) (matched : list (matched_entry str)) : str :=
  match matched with
  | [] => []
  | m :: rest => export_record i m ++ export_from (S i) rest
  end.

(** [export_text]: the content written to the output file,
    [enumerate(matched, 1)]. *)
Definition export_text (matched : list (matched_entry str)) : str :=
  export_from 1 matched.

End BuildRefText.

(* ================================================================== *)
(** * [scripts/build_user_json.py] *)
(* ================================================================== *)

Module BuildUserJson.

Definition LF : ascii := BuildRefText.LF.
Definition SPACE : ascii := BuildRefText.SPACE.
Definition COLON : ascii := ascii_of_nat 58.
Definition DOT : ascii := ascii_of_nat 46.
Definition HYPHEN : ascii := ascii_of_nat 45.

(** ** [load_schema] *)

(** What [ref_map] keeps of a field. *)
Record field_info : Type := mkInfo {
  id : json;
  title : json;
  type_ : json
}.

(** [f"id_{ref[:6]}"]. *)
Definition derived_id (ref : str) : str := Py.lit "id_" ++ firstn 6 ref.

(** One turn of the loop over [schema_data["fields"]].  The default of
    [field.get("id", ...)] is computed whether or not it is used, so a
    reference that is true but not a string ends the run: it cannot be
    sliced, or cannot be a dict key. *)
Definition load_field (ref_map : Dict.t field_info) (field : json)
  : result (Dict.t field_info) :=
  r <- Json.get (Py.lit "ref") field ;;
  if Json.truthy r then
    match r with
    | JStr ref =>
        i <- Json.get_default (Py.lit "id") (JStr (derived_id ref)) field ;;
        t <- Json.get_default (Py.lit "title") (JStr []) field ;;
        ty <- Json.get_default (Py.lit "type") (JStr (Py.lit "text")) field ;;
        ok (Dict.set ref {| id := i; title := t; type_ := ty |} ref_map)
    | _ => raise TypeError
    end
  else ok ref_map.

Fixpoint load_fields (ref_map : Dict.t field_info) (fields : list json)
  : result (Dict.t field_info) :=
  match fields with
  | [] => ok ref_map
  | field :: rest =>
      ref_map' <- load_field ref_map field ;;
      load_fields ref_map' rest
  end.

(** [load_schema], from the parsed document on: [(ref_map, form_id, title)]. *)
Definition load_schema (schema_data : json)
  : result (Dict.t field_info * json * json) :=
  form_id <- Json.get_default (Py.lit "id") (JStr (Py.lit "mock_form_001"))
                              schema_data ;;
  form_title <- Json.get_default (Py.lit "title")
                                 (JStr (Py.lit "Untitled Form")) schema_data ;;
  fs <- Json.get_default (Py.lit "fields") (JArr []) schema_data ;;
  items <- Json.iter fs ;;
  ref_map <- load_fields [] items ;;
  ok (ref_map, form_id, form_title).

(** ** [parse_ref_text] *)

Record entry : Type := mkEntry {
  ref : str;
  question : str;
  answer : str
}.

(** [re.match] of a line against: white space, [A_ref] or [Match], white
    space, a colon; letter case ignored. *)
Definition tag_then_colon (tag : str) (s : str) : bool :=
  Py.startswith_ci tag s &&
  match Py.drop_while Py.isspace (skipn (length tag) s) with
  | c :: _ => Py.eqb_char c COLON
  | [] => false
  end.

Definition is_annotation (line : str) : bool :=
  let s := Py.drop_while Py.isspace line in
  tag_then_colon (Py.lit "A_ref") s || tag_then_colon (Py.lit "Match") s.

(** The two alternatives of the separator pattern of [re.split], tried at
    the head of [s] in this order: a line feed, white space, digits, a dot
    and white space; or a line feed, white space and a line feed.  Each
    gives the number of characters it consumes. *)
Definition sep_numbered (s : str) : option nat :=
  match s with
  | c :: t =>
      if Py.isLF c then
        let ws := Py.take_while Py.isspace t in
        let t1 := Py.drop_while Py.isspace t in
        let ds := Py.take_while Py.isdigit t1 in
        match ds, Py.drop_while Py.isdigit t1 with
        | _ :: _, d :: t2 =>
            if Py.eqb_char d DOT
            then Some (1 + length ws + length ds + 1
                       + length (Py.take_while Py.isspace t2))
            else None
        | _, _ => None
        end
      else None
  | [] => None
  end.

(** Number of characters of [w] up to and including its last line feed. *)
Fixpoint through_last_lf (w : str) : option nat :=
  match w with
  | [] => None
  | c :: t =>
      match through_last_lf t with
      | Some n => Some (S n)
      | None => if Py.isLF c then Some 1 else None
      end
  end.

Definition sep_blank (s : str) : option nat :=
  match s with
  | c :: t =>
      if Py.isLF c then
        match through_last_lf (Py.take_while Py.isspace t) with
        | Some n => Some (1 + n)
        | None => None
        end
      else None
  | [] => None
  end.

Definition separator (s : str) : option nat :=
  match sep_numbered s with
  | Some n => Some n
  | None => sep_blank s
  end.

(** [re.split(separator, text)]: [cur] is the piece being read, reversed;
    [skip] counts the characters of a separator still to be passed. *)
Fixpoint split_from (cur : str) (skip : nat) (s : str) : list str :=
  match s with
  | [] => [rev cur]
  | c :: t =>
      match skip with
      | S skip' => split_from cur skip' t
      | O =>
          match separator s with
          | Some (S n) => rev cur :: split_from [] n t
          | _ => split_from (c :: cur) 0 t
          end
      end
  end.

Definition split_blocks (text : str) : list str := split_from [] 0 text.

(** White space and then the group [.+] under [re.DOTALL], at the text
    that follows a tag: the group runs to the end of the block. *)
Definition group_rest (rest : str) : option str :=
  match Py.drop_while Py.isspace rest with
  | [] =>
      match rest with
      | [] => None
      | _ :: _ => Some [last rest Difflib.NUL]
      end
  | g => Some g
  end.

(** White space and then the group [[a-z0-9\-]+] under [re.IGNORECASE]. *)
Definition isrefchar (c : ascii) : bool :=
  Py.islower_ascii c || Py.isupper_ascii c || Py.isdigit c
  || Py.eqb_char c HYPHEN.

Definition group_ref (rest : str) : option str :=
  match Py.take_while isrefchar (Py.drop_while Py.isspace rest) with
  | [] => None
  | g => Some g
  end.

(** [re.search(tag + group, block, re.IGNORECASE)]: the leftmost position
    where the tag and then the group match. *)
Fixpoint search (tag : str) (group : str -> option str) (block : str)
  : option str :=
  match
    (if Py.startswith_ci tag block
     then group (skipn (length tag) block) else None)
  with
  | Some g => Some g
  | None =>
      match block with
      | [] => None
      | _ :: t => search tag group t
      end
  end.

Record parser_state : Type := mkState {
  entries : list entry;
  current_q : str;
  current_ref : str;
  current_a : str
}.

(** One turn of the loop over the blocks. *)
Definition parse_block (st : parser_state) (block : str) : parser_state :=
  if negb (Py.truthy (Py.strip block)) then st
  else
    let q_match := search (Py.lit "Q:") group_rest block in
    let qref_match := search (Py.lit "Q_ref:") group_ref block in
    let a_match := search (Py.lit "A:") group_rest block in
    let question :=
      match q_match with Some g => Py.strip g | None => current_q st end in
    let q_ref :=
      match qref_match with Some g => Py.strip g | None => current_ref st end in
    let answer :=
      match a_match with Some g => Py.strip g | None => current_a st end in
    if Py.truthy q_ref && Py.truthy answer then
      {| entries := entries st ++
                    [{| ref := q_ref; question := question; answer := answer |}];
         current_q := []; current_ref := []; current_a := [] |}
    else if negb (Py.truthy q_ref) then
      {| entries := entries st;
         current_q := current_q st ++ [SPACE] ++ question;
         current_ref := current_ref st;
         current_a := current_a st |}
    else if negb (Py.truthy answer) then
      {| entries := entries st;
         current_q := current_q st;
         current_ref := current_ref st;
         current_a := current_a st ++ [SPACE] ++ answer |}
    else st.

(** [parse_ref_text], from the content of the input file on. *)
Definition parse_ref_text (content : str) : list entry :=
  let text := Py.strip content in
  let clean_text :=
    Py.join [LF] (filter (fun line => negb (is_annotation line))
                         (Py.splitlines text)) in
  let blocks := split_blocks clean_text in
  entries (fold_left parse_block blocks
                     {| entries := []; current_q := [];
                        current_ref := []; current_a := [] |}).

(** ** [detect_answer_type] *)

(** [re.match] of the answer against [^\d+] succeeds. *)
Definition starts_with_digit (answer : str) : bool :=
  match answer with
  | c :: _ => Py.isdigit c
  | [] => false
  end.

(** The first item of [re.findall] for [\d+], when there is one. *)
Definition first_digit_run (answer : str) : option str :=
  match Py.take_while Py.isdigit
          (Py.drop_while (fun c => negb (Py.isdigit c)) answer) with
  | [] => None
  | run => Some run
  end.

(** [float(run)] of a run of decimal digits: the double nearest to the
    value of the run, or [inf]. *)
Definition float_of_digits (run : str) : json :=
  match Py.double_of_N (Py.int_of_digits run) with
  | Some v => JNum (inject_Z (Z.of_N v))
  | None => JInf
  end.

Definition detect_answer_type (field_type : json) (answer : str)
  : result (str * Dict.t json) :=
  match field_type with
  | JStr ft =>
      let field_type := Py.lower ft in
      let answer := Py.strip answer in
      if Py.contains (Py.lit "number") field_type
         || Py.contains (Py.lit "scale") field_type
         || starts_with_digit answer
      then
        match first_digit_run answer with
        | Some run =>
            ok (Py.lit "number",
                [(Py.lit "number", float_of_digits run)])
        | None => ok (Py.lit "text", [(Py.lit "text", JStr answer)])
        end
      else if Py.contains (Py.lit "choice") field_type
              || Py.contains (Py.lit "dropdown") field_type
              || Py.contains (Py.lit "multiple") field_type
      then ok (Py.lit "choice",
               [(Py.lit "choice", JObj [(Py.lit "label", JStr answer)])])
      else ok (Py.lit "text", [(Py.lit "text", JStr answer)])
  | _ => raise AttributeError
  end.

(** ** [build_typeform_json] *)

Inductive diagnostic : Type :=
| RefNotFound (ref : str).

(** The field description chosen for an entry, and the warning printed
    when the reference is unknown. *)
Definition resolve (schema_map : Dict.t field_info) (e : entry)
  : list diagnostic * field_info :=
  match Dict.get (ref e) schema_map with
  | None =>
      ([RefNotFound (ref e)],
       {| id := JStr (derived_id (ref e));
          title := JStr (question e);
          type_ := JStr (Py.lit "text") |})
  | Some field => ([], field)
  end.

Definition definition_of (f : field_info) : json :=
  JObj [(Py.lit "id", id f); (Py.lit "title", title f);
        (Py.lit "type", type_ f)].

Definition answer_of (f : field_info) (ans_type : str) (ans_data : Dict.t json)
  : json :=
  JObj (Dict.update
          [(Py.lit "field",
            JObj [(Py.lit "id", id f); (Py.lit "type", type_ f)]);
           (Py.lit "type", JStr ans_type)]
          ans_data).

Record builder_state : Type := mkBuilder {
  warnings : list diagnostic;
  fields : list json;
  answers : list json
}.

(** One turn of the loop over [entries]. *)
Definition build_entry (schema_map : Dict.t field_info)
           (st : builder_state) (e : entry) : result builder_state :=
  let '(warned, f) := resolve schema_map e in
  let fields' := fields st ++ [definition_of f] in
  typed <- detect_answer_type (type_ f) (answer e) ;;
  let '(ans_type, ans_data) := typed in
  ok {| warnings := warnings st ++ warned;
        fields := fields';
        answers := answers st ++ [answer_of f ans_type ans_data] |}.

Fixpoint build_entries (schema_map : Dict.t field_info)
         (st : builder_state) (es : list entry) : result builder_state :=
  match es with
  | [] => ok st
  | e :: rest =>
      st' <- build_entry schema_map st e ;;
      build_entries schema_map st' rest
  end.

(** [build_typeform_json]; [landed] and [submitted] are the two readings
    [datetime.utcnow().isoformat()].  The result is the warnings printed
    and the payload. *)
Definition build_typeform_json (landed submitted : str)
           (es : list entry) (schema_map : Dict.t field_info)
           (form_id form_title : json) : result (list diagnostic * json) :=
  st <- build_entries schema_map
          {| warnings := []; fields := []; answers := [] |} es ;;
  ok (warnings st,
      JObj [
        (Py.lit "event_id", JStr (Py.lit "mock_event_001"));
        (Py.lit "event_type", JStr (Py.lit "form_response"));
        (Py.lit "form_response", JObj [
           (Py.lit "form_id", form_id);
           (Py.lit "token", JStr (Py.lit "mock_token_123"));
           (Py.lit "landed_at", JStr (landed ++ Py.lit "Z"));
           (Py.lit "submitted_at", JStr (submitted ++ Py.lit "Z"));
           (Py.lit "hidden",
            JObj [(Py.lit "user_id", JStr (Py.lit "12345"))]);
           (Py.lit "definition", JObj [
              (Py.lit "id", form_id);
              (Py.lit "title", form_title);
              (Py.lit "fields", JArr (fields st))]);
           (Py.lit "answers", JArr (answers st))])]).

End BuildUserJson.

(* ================================================================== *)
(** * [logic/normalize_typeform.py] *)
(* ================================================================== *)

Module NormalizeTypeform.

(** [fields_by_id]: a dict whose keys are the field ids, any hashable
    JSON value, in insertion order. *)
Definition by_id : Type := list (json * Dict.t json).

Fixpoint by_id_get (k : json) (m : by_id) : option (Dict.t json) :=
  match m with
  | [] => None
  | (k', v) :: rest => if Json.key_eqb k k' then Some v else by_id_get k rest
  end.

Fixpoint by_id_set (k : json) (v : Dict.t json) (m : by_id) : by_id :=
  match m with
  | [] => [(k, v)]
  | (k', v') :: rest =>
      if Json.key_eqb k k' then (k', v) :: rest
      else (k', v') :: by_id_set k v rest
  end.

(** One item of the dict comprehension that builds [fields_by_id]. *)
Definition add_field (m : by_id) (f : json) : result by_id :=
  i <- Json.item (Py.lit "id") f ;;
  t <- Json.get (Py.lit "title") f ;;
  ty <- Json.get (Py.lit "type") f ;;
  if Json.hashable i
  then ok (by_id_set i [(Py.lit "title", t); (Py.lit "type", ty)] m)
  else raise TypeError.

Fixpoint add_fields (m : by_id) (fs : list json) : result by_id :=
  match fs with
  | [] => ok m
  | f :: rest =>
      m' <- add_field m f ;;
      add_fields m' rest
  end.

(** [d.get(key)] on a dict that is known to be one. *)
Definition dget (key : str) (d : Dict.t json) : json :=
  match Dict.get key d with
  | Some v => v
  | None => JNull
  end.

(** [{k: v for k, v in ans.items() if k not in ("field",)}]. *)
Definition without_field (ans : Dict.t json) : Dict.t json :=
  filter (fun kv => negb (Py.eqb (fst kv) (Py.lit "field"))) ans.

(** The [value] of an answer, by its [type]. *)
Definition value_of (answer_type : json) (ans : json) : result json :=
  if Json.is_str (Py.lit "choice") answer_type then
    c <- Json.get_default (Py.lit "choice") (JObj []) ans ;;
    Json.get (Py.lit "label") c
  else if Json.is_str (Py.lit "number") answer_type then
    Json.get (Py.lit "number") ans
  else if Json.is_str (Py.lit "text") answer_type then
    Json.get (Py.lit "text") ans
  else
    match ans with
    | JObj members => ok (JObj (without_field members))
    | _ => raise AttributeError
    end.

(** One turn of the loop over [form["answers"]]. *)
Definition normalize_answer (fields_by_id : by_id) (ans : json) : result json :=
  field <- Json.get_default (Py.lit "field") (JObj []) ans ;;
  field_id <- Json.get (Py.lit "id") field ;;
  field_type <- Json.get (Py.lit "type") field ;;
  field_meta <-
    (if Json.hashable field_id
     then ok (match by_id_get field_id fields_by_id with
              | Some meta => meta
              | None => []
              end)
     else raise TypeError) ;;
  let question_title := dget (Py.lit "title") field_meta in
  let question_type :=
    if Json.truthy (dget (Py.lit "type") field_meta)
    then dget (Py.lit "type") field_meta
    else field_type in
  answer_type <- Json.get (Py.lit "type") ans ;;
  value <- value_of answer_type ans ;;
  ok (JObj [(Py.lit "field_id", field_id);
            (Py.lit "field_title", question_title);
            (Py.lit "field_type", question_type);
            (Py.lit "answer_type", answer_type);
            (Py.lit "value", value)]).

Definition normalize_typeform (tf_json : json) : result json :=
  form <- Json.item (Py.lit "form_response") tf_json ;;
  definition <- Json.get_default (Py.lit "definition") (JObj []) form ;;
  fs <- Json.get_default (Py.lit "fields") (JArr []) definition ;;
  field_items <- Json.iter fs ;;
  fields_by_id <- add_fields [] field_items ;;
  form_id <- Json.get (Py.lit "form_id") form ;;
  token <- Json.get (Py.lit "token") form ;;
  landed_at <- Json.get (Py.lit "landed_at") form ;;
  submitted_at <- Json.get (Py.lit "submitted_at") form ;;
  hidden <- Json.get_default (Py.lit "hidden") (JObj []) form ;;
  answers <- Json.get_default (Py.lit "answers") (JArr []) form ;;
  answer_items <- Json.iter answers ;;
  normalized_answers <- for_each (normalize_answer fields_by_id) answer_items ;;
  ok (JObj [
    (Py.lit "meta", JObj [
       (Py.lit "form_id", form_id);
       (Py.lit "token", token);
       (Py.lit "landed_at", landed_at);
       (Py.lit "submitted_at", submitted_at);
       (Py.lit "hidden", hidden)]);
    (Py.lit "answers", JArr normalized_answers)]).

End NormalizeTypeform.

(* ================================================================== *)
(** * [scripts/build_ref_text.py]: the reader of the responses *)
(* ================================================================== *)

Module BuildRefTextInput.

Definition LF : ascii := BuildRefText.LF.
Definition SPACE : ascii := BuildRefText.SPACE.

(** [re.split] on the pattern: a line feed, white space, a line feed.
    It is the second alternative of the separator of [parse_ref_text].
    [cur] is the piece being read, reversed; [skip] counts the characters
    of a separator still to be passed. *)
Fixpoint split_blank_from (cur : str) (skip : nat) (s : str) : list str :=
  match s with
  | [] => [rev cur]
  | c :: t =>
      match skip with
      | S skip' => split_blank_from cur skip' t
      | O =>
          match BuildUserJson.sep_blank s with
          | Some (S n) => rev cur :: split_blank_from [] n t
          | _ => split_blank_from (c :: cur) 0 t
          end
      end
  end.

Definition split_blank (text : str) : list str := split_blank_from [] 0 text.

(** The stripped lines of a block that are not blank. *)
Definition block_lines (block : str) : list str :=
  map Py.strip
      (filter (fun line => Py.truthy (Py.strip line)) (Py.split_on LF block)).

(** One turn of the loop over the blocks. *)
Definition parse_block (qa_pairs : list BuildRefText.qa_pair) (block : str)
  : list BuildRefText.qa_pair :=
  let lines := block_lines block in
  if 2 <=? length lines then
    match lines with
    | question :: rest => qa_pairs ++ [(question, Py.join [SPACE] rest)]
    | [] => qa_pairs
    end
  else qa_pairs.

(** [parse_text_responses], from the content of the input file on. *)
Definition parse_text_responses (content : str) : list BuildRefText.qa_pair :=
  let text := Py.strip content in
  let blocks := split_blank text in
  fold_left parse_block blocks [].

End BuildRefTextInput.

(* ================================================================== *)
(** * [scripts/build_trip_catalog.py] *)
(* ================================================================== *)

Module BuildTripCatalog.

Definition PIPE : ascii := ascii_of_nat 124.
Definition COLON : ascii := ascii_of_nat 58.
Definition COMMA : ascii := ascii_of_nat 44.

(** What ends the [try] block of [parse_trip_line]. *)
Inductive parse_error : Type :=
| ValueError
| IndexError.

(** [parts[i]]. *)
Definition part (i : nat) (parts : list str) : parse_error + str :=
  match nth_error parts i with
  | Some p => inr p
  | None => inl IndexError
  end.

Definition theme_defaults : Dict.t (list str) :=
  [(Py.lit "Europe",
    [Py.lit "culture"; Py.lit "food"; Py.lit "history"; Py.lit "architecture"]);
   (Py.lit "Asia",
    [Py.lit "culture"; Py.lit "temples"; Py.lit "food"; Py.lit "nature"]);
   (Py.lit "North America",
    [Py.lit "cities"; Py.lit "nature"; Py.lit "road trip"]);
   (Py.lit "South America",
    [Py.lit "mountains"; Py.lit "wildlife"; Py.lit "culture"; Py.lit "hiking"]);
   (Py.lit "Africa",
    [Py.lit "safari"; Py.lit "wildlife"; Py.lit "nature"; Py.lit "culture"]);
   (Py.lit "Oceania", [Py.lit "beach"; Py.lit "outdoors"; Py.lit "scenery"]);
   (Py.lit "Central America",
    [Py.lit "wildlife"; Py.lit "rainforest"; Py.lit "beaches"]);
   (Py.lit "Asia/Africa", [Py.lit "history"; Py.lit "religion"; Py.lit "desert"])].

Definition themes_of (continent : str) : list str :=
  match Dict.get continent theme_defaults with
  | Some themes => themes
  | None => [Py.lit "culture"; Py.lit "nature"]
  end.

Definition pb_sd_of (pb_sd_raw : str) : str :=
  if Py.contains (Py.lit "primary") pb_sd_raw then Py.lit "PB"
  else if Py.contains (Py.lit "secondary") pb_sd_raw then Py.lit "SD"
  else Py.lit "SD".

Definition strings (l : list str) : json := JArr (map JStr l).

Definition whole (z : Z) : json := JNum (inject_Z z).

(** The [try] block of [parse_trip_line]. *)
Definition trip_of_line (line : str) : parse_error + json :=
  let parts := map Py.strip (Py.split_on PIPE line) in
  match part 0 parts with
  | inl e => inl e
  | inr title_part =>
  match Py.split_once COLON title_part with
  | None => inl ValueError
  | Some (title, regions) =>
  let title := Py.strip title in
  let region_examples := map Py.strip (Py.split_on COMMA regions) in
  match part 1 parts with
  | inl e => inl e
  | inr transport =>
  let transport_modes := map Py.strip (Py.split_on COMMA transport) in
  match part 2 parts with
  | inl e => inl e
  | inr tier_part =>
  match Py.int_of_str (Py.strip (Py.replace (Py.lit "Tier") [] tier_part)) with
  | None => inl ValueError
  | Some tier =>
  match part 3 parts with
  | inl e => inl e
  | inr pb_sd_part =>
  let pb_sd := pb_sd_of (Py.lower pb_sd_part) in
  match part 4 parts with
  | inl e => inl e
  | inr continent_part =>
  let continent := Py.strip continent_part in
  let themes := themes_of continent in
  let activity_level := if (tier =? 1)%Z then 5%Z else 6%Z in
  let cultural_depth :=
    if existsb (Py.eqb continent)
               [Py.lit "Europe"; Py.lit "Asia"; Py.lit "Asia/Africa"]
    then 8%Z else 6%Z in
  let description :=
    title ++ Py.lit " visiting "
    ++ Py.join (Py.lit ", ") (firstn 3 region_examples)
    ++ Py.lit " and nearby regions." in
  inr (JObj [(Py.lit "title", JStr title);
             (Py.lit "tier", whole tier);
             (Py.lit "pb_sd", JStr pb_sd);
             (Py.lit "continent", JStr continent);
             (Py.lit "transport_modes", strings transport_modes);
             (Py.lit "themes", strings themes);
             (Py.lit "activity_level", whole activity_level);
             (Py.lit "cultural_depth", whole cultural_depth);
             (Py.lit "region_examples", strings region_examples);
             (Py.lit "description", JStr description)])
  end end end end end end end.

(** [parse_trip_line]: [None] for a blank line, for a comment, and for a
    line on which the [try] block raises (the error is then printed). *)
Definition parse_trip_line (line : str) : option json :=
  if negb (Py.truthy (Py.strip line))
     || Py.startswith (Py.lit "#") (Py.strip line)
  then None
  else
    match trip_of_line line with
    | inr trip => Some trip
    | inl _ => None
    end.

(** One turn of the loop of [build_catalog] over the lines of the input
    file. *)
Definition add_line (trips : list json) (line : str) : list json :=
  match parse_trip_line line with
  | Some parsed => if Json.truthy parsed then trips ++ [parsed] else trips
  | None => trips
  end.

(** [build_catalog], from the lines of the input file on: the document
    written to the output file. *)
Definition build_catalog (lines : list str) : json :=
  JArr (fold_left add_line lines []).

End BuildTripCatalog.

(* ================================================================== *)
(** * [run_local.py] *)
(* ================================================================== *)

Module RunLocal.

(** [k.lower().replace("_", "")]. *)
Definition normalized (k : str) : str :=
  Py.replace (Py.lit "_") [] (Py.lower k).

(** [{k.lower().replace("_", ""): v for k, v in data.items()}]. *)
Definition normalized_map (data : Dict.t json) : Dict.t json :=
  fold_left (fun m kv => Dict.set (normalized (fst kv)) (snd kv) m) data [].

(** The loop over [possible_keys]; [JNull] is [None]. *)
Fixpoint first_known (m : Dict.t json) (possible_keys : list str) : json :=
  match possible_keys with
  | [] => JNull
  | key :: rest =>
      match Dict.get (normalized key) m with
      | Some v => v
      | None => first_known m rest
      end
  end.

(** [find_key(data, possible_keys)], for a list of strings. *)
Definition find_key (data : json) (possible_keys : list str) : json :=
  match data with
  | JObj d => first_known (normalized_map d) possible_keys
  | _ => JNull
  end.

End RunLocal.

(* ================================================================== *)
(** * Notions used to state the properties *)
(* ================================================================== *)

Module Spec.

(** [default key d m]: the member [key] of [m], or [d] when absent. *)
Definition member_or (key : str) (d : json) (m : Dict.t json) : json :=
  match Dict.get key m with
  | Some v => v
  | None => d
  end.

(** A schema document without a usable field list: an object whose
    [fields] member is missing or is the empty list. *)
Definition no_field_list (m : Dict.t json) : Prop :=
  Dict.get (Py.lit "fields") m = None
  \/ Dict.get (Py.lit "fields") m = Some (JArr []).

(** A field descriptor of a schema, with the title it carries ([t] is
    empty when it has none). *)
Definition descriptor (item : json) (m : Dict.t json) (t : str) : Prop :=
  item = JObj m
  /\ ((Dict.get (Py.lit "title") m = None /\ t = [])
      \/ Dict.get (Py.lit "title") m = Some (JStr t)).

(** The record expected for a descriptor: stripped title, reference and
    type hint as given, the type hint being [text] when absent. *)
Definition loaded_as (item : json) (f : BuildRefText.field json) : Prop :=
  exists m t,
    descriptor item m t
    /\ BuildRefText.title f = Py.strip t
    /\ BuildRefText.ref f = member_or (Py.lit "ref") (JStr []) m
    /\ BuildRefText.type_ f
       = member_or (Py.lit "type") (JStr (Py.lit "text")) m.

(** An answer record whose [type] is none of [choice], [number],
    [text]. *)
Definition unknown_kind (ans : Dict.t json) : Prop :=
  NormalizeTypeform.dget (Py.lit "type") ans <> JStr (Py.lit "choice")
  /\ NormalizeTypeform.dget (Py.lit "type") ans <> JStr (Py.lit "number")
  /\ NormalizeTypeform.dget (Py.lit "type") ans <> JStr (Py.lit "text").

(** [out] is the record [ans] without its [field] member: every other
    key is kept with its value. *)
Definition minus_field (ans out : Dict.t json) : Prop :=
  Dict.get (Py.lit "field") out = None
  /\ forall k, k <> Py.lit "field" -> Dict.get k out = Dict.get k ans.

(** A field definition of a payload: an object with a hashable [id]. *)
Definition field_definition (f : json) : Prop :=
  exists m i,
    f = JObj m /\ Dict.get (Py.lit "id") m = Some i
    /\ Json.hashable i = true.

(** An answer of a payload: an object whose [field], when present, is an
    object with a hashable id, and whose [choice], when the answer is a
    choice and has one, is an object. *)
Definition answer_record (a : json) (m : Dict.t json) : Prop :=
  a = JObj m
  /\ (Dict.get (Py.lit "field") m = None
      \/ exists fd,
           Dict.get (Py.lit "field") m = Some (JObj fd)
           /\ Json.hashable (NormalizeTypeform.dget (Py.lit "id") fd) = true)
  /\ (Dict.get (Py.lit "choice") m = None
      \/ (exists c, Dict.get (Py.lit "choice") m = Some (JObj c))
      \/ NormalizeTypeform.dget (Py.lit "type") m <> JStr (Py.lit "choice")).

(** A submission payload with the answers [ins]: the definition and its
    field list may be missing. *)
Definition submission_payload (tf : json) (ins : list json) : Prop :=
  exists tfm form,
    tf = JObj tfm
    /\ Dict.get (Py.lit "form_response") tfm = Some (JObj form)
    /\ (Dict.get (Py.lit "definition") form = None
        \/ exists dm,
             Dict.get (Py.lit "definition") form = Some (JObj dm)
             /\ (Dict.get (Py.lit "fields") dm = None
                 \/ exists fs,
                      Dict.get (Py.lit "fields") dm = Some (JArr fs)
                      /\ Forall field_definition fs))
    /\ ((Dict.get (Py.lit "answers") form = None /\ ins = [])
        \/ Dict.get (Py.lit "answers") form = Some (JArr ins))
    /\ Forall (fun a => exists m, answer_record a m) ins.

(** The normalised answer [o] carries, as its [value], the answer [a]
    without its [field] member whenever the kind of [a] is unknown. *)
Definition keeps_unknown (a o : json) : Prop :=
  exists am om,
    a = JObj am /\ o = JObj om
    /\ Dict.get (Py.lit "answer_type") om
       = Some (NormalizeTypeform.dget (Py.lit "type") am)
    /\ (unknown_kind am ->
        exists out,
          Dict.get (Py.lit "value") om = Some (JObj out)
          /\ minus_field am out).

(** Reading a payload: its field definitions, its answers, the id of a
    field definition and the id of the field an answer refers to. *)
Definition payload_fields (p : json) : result json :=
  r <- Json.item (Py.lit "form_response") p ;;
  d <- Json.item (Py.lit "definition") r ;;
  Json.item (Py.lit "fields") d.

Definition payload_answers (p : json) : result json :=
  r <- Json.item (Py.lit "form_response") p ;;
  Json.item (Py.lit "answers") r.

Definition definition_id (d : json) : result json :=
  Json.item (Py.lit "id") d.

Definition answer_field_id (a : json) : result json :=
  f <- Json.item (Py.lit "field") a ;;
  Json.item (Py.lit "id") f.

(** The field definition due to an entry: the schema's when its
    reference is known, a placeholder of type [text] otherwise. *)
Definition expected_definition (schema_map : Dict.t BuildUserJson.field_info)
           (e : BuildUserJson.entry) (d : json) : Prop :=
  match Dict.get (BuildUserJson.ref e) schema_map with
  | Some f =>
      d = JObj [(Py.lit "id", BuildUserJson.id f);
                (Py.lit "title", BuildUserJson.title f);
                (Py.lit "type", BuildUserJson.type_ f)]
  | None =>
      d = JObj [(Py.lit "id",
                 JStr (Py.lit "id_" ++ firstn 6 (BuildUserJson.ref e)));
                (Py.lit "title", JStr (BuildUserJson.question e));
                (Py.lit "type", JStr (Py.lit "text"))]
  end.

(** The references of the entries that the schema does not know, in
    entry order. *)
Definition unknown_refs (schema_map : Dict.t BuildUserJson.field_info)
           (es : list BuildUserJson.entry) : list str :=
  map BuildUserJson.ref
      (filter (fun e => negb (Dict.mem (BuildUserJson.ref e) schema_map)) es).

(** Every type hint that the entries can reach in the schema is a
    string. *)
Definition string_types (schema_map : Dict.t BuildUserJson.field_info)
           (es : list BuildUserJson.entry) : Prop :=
  forall e f,
    In e es ->
    Dict.get (BuildUserJson.ref e) schema_map = Some f ->
    exists s, BuildUserJson.type_ f = JStr s.

(** What one entry adds to a payload: its definition [d] and an answer
    [a] that refers to the id of [d]. *)
Definition entry_output (schema_map : Dict.t BuildUserJson.field_info)
           (e : BuildUserJson.entry) (d a : json) : Prop :=
  expected_definition schema_map e d
  /\ exists fid, definition_id d = ok fid /\ answer_field_id a = ok fid.

(** Definitions and answers built from the entries one for one, in entry
    order. *)
Inductive built (schema_map : Dict.t BuildUserJson.field_info)
  : list BuildUserJson.entry -> list json -> list json -> Prop :=
| built_nil : built schema_map [] [] []
| built_cons (e : BuildUserJson.entry) (es : list BuildUserJson.entry)
             (d : json) (ds : list json) (a : json) (answers : list json) :
    entry_output schema_map e d a ->
    built schema_map es ds answers ->
    built schema_map (e :: es) (d :: ds) (a :: answers).

Section MatcherNotions.

Context {V : Type}.

Definition norm_title (f : BuildRefText.field V) : str :=
  BuildRefText.normalize (BuildRefText.title f).

(** The last field of the schema whose normalised title is [k]. *)
Fixpoint last_titled (k : str) (fields : list (BuildRefText.field V))
  : option (BuildRefText.field V) :=
  match fields with
  | [] => None
  | f :: rest =>
      match last_titled k rest with
      | Some g => Some g
      | None => if Py.eqb (norm_title f) k then Some f else None
      end
  end.

(** The similarity of a field to a word, and the fields that pass the
    cutoff test of the matcher for it. *)
Definition score (word : str) (f : BuildRefText.field V) : Q :=
  Difflib.ratio (norm_title f) word.

Definition candidate (word : str) (f : BuildRefText.field V) : Prop :=
  Difflib.close_enough BuildRefText.cutoff word (norm_title f) = true.

(** A candidate that no candidate beats: none has a greater score, and
    none of the same score has a greater normalised title. *)
Definition best_candidate (fields : list (BuildRefText.field V)) (word : str)
           (f : BuildRefText.field V) : Prop :=
  In f fields
  /\ candidate word f
  /\ forall g,
       In g fields ->
       candidate word g ->
       (score word g <= score word f)%Q
       /\ ((score word g == score word f)%Q ->
           Py.compare (norm_title g) (norm_title f) <> Gt).

(** A run of the matcher over the blocks: the words handed to the
    similarity search, the matched entries and the unmatched blocks, block
    after block. *)
Inductive aligned (fields : list (BuildRefText.field V))
  : list BuildRefText.qa_pair -> list str ->
    list (BuildRefText.matched_entry V) -> list BuildRefText.qa_pair -> Prop :=
| aligned_nil : aligned fields [] [] [] []
| aligned_exact (q a : str) (f : BuildRefText.field V)
                (qas : list BuildRefText.qa_pair) (calls : list str)
                (m : list (BuildRefText.matched_entry V))
                (u : list BuildRefText.qa_pair) :
    last_titled (BuildRefText.normalize q) fields = Some f ->
    aligned fields qas calls m u ->
    aligned fields ((q, a) :: qas) calls
            (BuildRefText.entry_of f a BuildRefText.EXACT :: m) u
| aligned_fuzzy (q a : str) (f : BuildRefText.field V)
                (qas : list BuildRefText.qa_pair) (calls : list str)
                (m : list (BuildRefText.matched_entry V))
                (u : list BuildRefText.qa_pair) :
    last_titled (BuildRefText.normalize q) fields = None ->
    best_candidate fields (BuildRefText.normalize q) f ->
    last_titled (norm_title f) fields = Some f ->
    aligned fields qas calls m u ->
    aligned fields ((q, a) :: qas) (BuildRefText.normalize q :: calls)
            (BuildRefText.entry_of f a BuildRefText.FUZZY :: m) u
| aligned_miss (q a : str)
               (qas : list BuildRefText.qa_pair) (calls : list str)
               (m : list (BuildRefText.matched_entry V))
               (u : list BuildRefText.qa_pair) :
    last_titled (BuildRefText.normalize q) fields = None ->
    (forall g, In g fields -> ~ candidate (BuildRefText.normalize q) g) ->
    aligned fields qas calls m u ->
    aligned fields ((q, a) :: qas) (BuildRefText.normalize q :: calls)
            m ((q, a) :: u).

End MatcherNotions.

(** ** The layout of the exported text *)

Definition LF : ascii := BuildRefText.LF.
Definition COLON : ascii := BuildUserJson.COLON.

Definition no_linebreak (s : str) : Prop :=
  Forall (fun c => Py.islinebreak c = false) s.

(** A matched entry that the exporter and the parser carry through: the
    title has no line break and no colon, the reference is a non-empty
    run of letters, digits and hyphens, the answer is non-empty, already
    stripped and without line break, and the answer reference has no line
    break. *)
Definition exportable (m : BuildRefText.matched_entry str) : Prop :=
  no_linebreak (BuildRefText.question m)
  /\ Forall (fun c => c <> COLON) (BuildRefText.question m)
  /\ BuildRefText.question_ref m <> []
  /\ Forall (fun c => BuildUserJson.isrefchar c = true)
            (BuildRefText.question_ref m)
  /\ BuildRefText.answer m <> []
  /\ Py.strip (BuildRefText.answer m) = BuildRefText.answer m
  /\ no_linebreak (BuildRefText.answer m)
  /\ no_linebreak (BuildRefText.answer_ref m).

(** The five lines of a record. *)
Definition line_q (i : nat) (m : BuildRefText.matched_entry str) : str :=
  Py.decimal i ++ Py.lit ". Q: " ++ BuildRefText.question m.

Definition line_qref (m : BuildRefText.matched_entry str) : str :=
  Py.lit "   Q_ref: " ++ BuildRefText.question_ref m.

Definition line_a (m : BuildRefText.matched_entry str) : str :=
  Py.lit "   A: " ++ BuildRefText.answer m.

Definition line_aref (m : BuildRefText.matched_entry str) : str :=
  Py.lit "   A_ref: " ++ BuildRefText.answer_ref m.

Definition line_match (m : BuildRefText.matched_entry str) : str :=
  Py.lit "   Match: " ++ BuildRefText.match_kind_name (BuildRefText.match_type m).

(** The lines of the exported text, the blank line between two records
    included: the text is these lines, a line feed after each, and one
    more line feed. *)
Definition record_lines (i : nat) (m : BuildRefText.matched_entry str)
  : list str :=
  [line_q i m; line_qref m; line_a m; line_aref m; line_match m].

Fixpoint exported_lines (i : nat)
         (matched : list (BuildRefText.matched_entry str)) : list str :=
  match matched with
  | [] => []
  | m :: rest =>
      record_lines i m
      ++ match rest with
         | [] => []
         | _ :: _ => [] :: exported_lines (S i) rest
         end
  end.

(** A block of the cleaned text, after its number. *)
Definition block_tail (m : BuildRefText.matched_entry str) : str :=
  Py.lit "Q: " ++ BuildRefText.question m ++ [LF]
  ++ line_qref m ++ [LF] ++ line_a m.

(** The cleaned text of the records that follow a first one. *)
Fixpoint clean_rest (i : nat) (matched : list (BuildRefText.matched_entry str))
  : str :=
  match matched with
  | [] => []
  | m :: rest =>
      [LF; LF] ++ Py.decimal i ++ Py.lit ". " ++ block_tail m
      ++ clean_rest (S i) rest
  end.

(** The cleaned text: the exported text without its annotation lines. *)
Definition clean (i : nat) (matched : list (BuildRefText.matched_entry str))
  : str :=
  match matched with
  | [] => []
  | m :: rest =>
      Py.decimal i ++ Py.lit ". " ++ block_tail m ++ clean_rest (S i) rest
  end.

(** The lines kept of the records, the blank line between two records
    included. *)
Fixpoint kept_lines (i : nat) (matched : list (BuildRefText.matched_entry str))
  : list str :=
  match matched with
  | [] => []
  | m :: rest =>
      [line_q i m; line_qref m; line_a m]
      ++ match rest with
         | [] => []
         | _ :: _ => [] :: kept_lines (S i) rest
         end
  end.

(** What the parser makes of an exported record: the reference and the
    answer, and as the question everything that follows the tag of the
    question in the block, the reference line and the answer line
    included. *)
Definition reparsed (m : BuildRefText.matched_entry str) : BuildUserJson.entry :=
  {| BuildUserJson.ref := BuildRefText.question_ref m;
     BuildUserJson.question :=
       Py.strip (BuildRefText.question m ++ [LF] ++ line_qref m
                 ++ [LF] ++ line_a m);
     BuildUserJson.answer := BuildRefText.answer m |}.

(** ** Outcome of the matcher, block by block *)

Section MatcherOutcome.

Context {V : Type}.

(** Some field of the schema has the normalised title of the question. *)
Definition has_title (fields : list (BuildRefText.field V)) (q : str) : bool :=
  existsb (fun f => Py.eqb (norm_title f) (BuildRefText.normalize q)) fields.

(** Some field of the schema has the normalised title of the question, or
    passes the cutoff test for it. *)
Definition finds_field (fields : list (BuildRefText.field V)) (q : str) : bool :=
  existsb (fun f =>
             Py.eqb (norm_title f) (BuildRefText.normalize q)
             || Difflib.close_enough BuildRefText.cutoff
                                     (BuildRefText.normalize q) (norm_title f))
          fields.

End MatcherOutcome.

(** ** Type hints of the answer-type inference *)

(** The hint names a number or a scale; it names a choice. *)
Definition numeric_hint (hint : str) : bool :=
  Py.contains (Py.lit "number") (Py.lower hint)
  || Py.contains (Py.lit "scale") (Py.lower hint).

Definition choice_hint (hint : str) : bool :=
  Py.contains (Py.lit "choice") (Py.lower hint)
  || Py.contains (Py.lit "dropdown") (Py.lower hint)
  || Py.contains (Py.lit "multiple") (Py.lower hint).

Definition no_digit (s : str) : Prop :=
  Forall (fun c => Py.isdigit c = false) s.

(** ** Shapes of texts *)

(** A text without white space at either end. *)
Definition trimmed (s : str) : Prop := Py.strip s = s.

(** A text without line feed. *)
Definition one_line (s : str) : Prop := Forall (fun c => c <> LF) s.

(** A text of white space only. *)
Definition blank (s : str) : Prop := Forall (fun c => Py.isspace c = true) s.

(** A non-empty, trimmed text of one line. *)
Definition plain (s : str) : Prop := s <> [] /\ trimmed s /\ one_line s.

(** The responses file of a list of pairs: a question line and an
    answer line for each, a blank line between two pairs. *)
Definition response_block (qa : BuildRefText.qa_pair) : str :=
  fst qa ++ [LF] ++ snd qa.

Definition responses_text (qa_pairs : list BuildRefText.qa_pair) : str :=
  Py.join [LF; LF] (map response_block qa_pairs).

(** ** Keys of [find_key] *)

(** The value of the last member of [data] whose key has the normal
    form [n]. *)
Fixpoint last_keyed (n : str) (data : Dict.t json) : option json :=
  match data with
  | [] => None
  | (k, v) :: rest =>
      match last_keyed n rest with
      | Some w => Some w
      | None => if Py.eqb (RunLocal.normalized k) n then Some v else None
      end
  end.

(** ** Lines of the trip list *)

(** Number of occurrences of a character in a text. *)
Definition occurrences (c : ascii) (s : str) : nat :=
  length (filter (fun x => Py.eqb_char x c) s).

(** A line that [parse_trip_line] passes over: blank, or a comment. *)
Definition passed_over (line : str) : Prop :=
  blank line \/ Py.startswith (Py.lit "#") (Py.strip line) = true.

(** The trips of the lines that parse, in the order of the lines. *)
Definition parsed_trips (lines : list str) : list json :=
  flat_map (fun line =>
              match BuildTripCatalog.parse_trip_line line with
              | Some trip => [trip]
              | None => []
              end)
           lines.

(** ** Entries of the parser *)

(** An entry with a reference of letters, digits and hyphens, and with
    an answer. *)
Definition complete_entry (e : BuildUserJson.entry) : Prop :=
  BuildUserJson.ref e <> []
  /\ Forall (fun c => BuildUserJson.isrefchar c = true) (BuildUserJson.ref e)
  /\ BuildUserJson.answer e <> [].

(** What the parser keeps from block to block: no reference is carried
    over, and the entries made so far are complete. *)
Definition parser_invariant (st : BuildUserJson.parser_state) : Prop :=
  BuildUserJson.current_ref st = []
  /\ Forall complete_entry (BuildUserJson.entries st).

(** ** From the builder to the normaliser *)

(** The field description that the builder uses for an entry. *)
Definition resolved (schema_map : Dict.t BuildUserJson.field_info)
           (e : BuildUserJson.entry) : BuildUserJson.field_info :=
  snd (BuildUserJson.resolve schema_map e).

(** Every field id that the entries can reach in the schema is a
    string. *)
Definition string_ids (schema_map : Dict.t BuildUserJson.field_info)
           (es : list BuildUserJson.entry) : Prop :=
  forall e f,
    In e es ->
    Dict.get (BuildUserJson.ref e) schema_map = Some f ->
    exists i, BuildUserJson.id f = JStr i.

(** The last of the field descriptions whose id is the key [i]. *)
Fixpoint last_same_id (i : json) (fl : list BuildUserJson.field_info)
  : option BuildUserJson.field_info :=
  match fl with
  | [] => None
  | f :: rest =>
      match last_same_id i rest with
      | Some g => Some g
      | None => if Json.key_eqb i (BuildUserJson.id f) then Some f else None
      end
  end.

(** The meta data that the normaliser draws from a payload of the
    builder. *)
Definition normalized_meta (form_id : json) (landed submitted : str) : json :=
  JObj [(Py.lit "form_id", form_id);
        (Py.lit "token", JStr (Py.lit "mock_token_123"));
        (Py.lit "landed_at", JStr (landed ++ Py.lit "Z"));
        (Py.lit "submitted_at", JStr (submitted ++ Py.lit "Z"));
        (Py.lit "hidden", JObj [(Py.lit "user_id", JStr (Py.lit "12345"))])].

(** The normalised answer due to an entry [e] among the entries [es]:
    the id of its field, the title and the type of the last definition
    with that id, the kind inferred for the answer, and as value the
    payload inferred (the float of the digits) or the trimmed answer. *)
Definition normalized_entry (schema_map : Dict.t BuildUserJson.field_info)
           (es : list BuildUserJson.entry) (e : BuildUserJson.entry)
           (o : json) : Prop :=
  exists kind v f',
    BuildUserJson.detect_answer_type
      (BuildUserJson.type_ (resolved schema_map e)) (BuildUserJson.answer e)
    = ok (kind, [(kind, v)])
    /\ last_same_id (BuildUserJson.id (resolved schema_map e))
                    (map (resolved schema_map) es) = Some f'
    /\ o = JObj [(Py.lit "field_id", BuildUserJson.id (resolved schema_map e));
                 (Py.lit "field_title", BuildUserJson.title f');
                 (Py.lit "field_type",
                  if Json.truthy (BuildUserJson.type_ f')
                  then BuildUserJson.type_ f'
                  else BuildUserJson.type_ (resolved schema_map e));
                 (Py.lit "answer_type", JStr kind);
                 (Py.lit "value",
                  if Py.eqb kind (Py.lit "choice")
                  then JStr (Py.strip (BuildUserJson.answer e))
                  else v)].

(** ** The fields of the schema, by reference *)

(** What [load_schema] of the payload builder keeps of a field with the
    members [d] under the reference [ref]. *)
Definition info_of (d : Dict.t json) (ref : str) : BuildUserJson.field_info :=
  {| BuildUserJson.id :=
       member_or (Py.lit "id") (JStr (BuildUserJson.derived_id ref)) d;
     BuildUserJson.title := member_or (Py.lit "title") (JStr []) d;
     BuildUserJson.type_ := member_or (Py.lit "type") (JStr (Py.lit "text")) d |}.

(** A field that the loader reads without error: an object whose
    reference is missing, false in a condition, or a string. *)
Definition loadable (item : json) : Prop :=
  exists d,
    item = JObj d
    /\ (Json.truthy (NormalizeTypeform.dget (Py.lit "ref") d) = false
        \/ exists s, Dict.get (Py.lit "ref") d = Some (JStr s)).

(** The reference under which a field is kept: none when it is missing
    or empty. *)
Definition kept_ref (item : json) : option (Dict.t json * str) :=
  match item with
  | JObj d =>
      match Dict.get (Py.lit "ref") d with
      | Some (JStr (c :: s)) => Some (d, c :: s)
      | _ => None
      end
  | _ => None
  end.

(** What is kept of the last field with the reference [r]. *)
Fixpoint last_with_ref (r : str) (items : list json)
  : option BuildUserJson.field_info :=
  match items with
  | [] => None
  | item :: rest =>
      match last_with_ref r rest with
      | Some f => Some f
      | None =>
          match kept_ref item with
          | Some (d, s) => if Py.eqb s r then Some (info_of d s) else None
          | None => None
          end
      end
  end.

(** ** From the responses to the parsed entries *)

(** A field that the exporter and the parser carry through: the title
    has no line break and no colon, the reference is a non-empty run of
    letters, digits and hyphens. *)
Definition exportable_field (f : BuildRefText.field str) : Prop :=
  no_linebreak (BuildRefText.title f)
  /\ Forall (fun c => c <> COLON) (BuildRefText.title f)
  /\ BuildRefText.ref f <> []
  /\ Forall (fun c => BuildUserJson.isrefchar c = true) (BuildRefText.ref f).

(** A text whose only line boundary is the line feed. *)
Definition lf_only (s : str) : Prop :=
  Forall (fun c => Py.islinebreak c = false \/ c = LF) s.

(** ** Records of the trip catalog *)

(** The record that [parse_trip_line] builds from the parts of a
    line. *)
Definition trip_record (title : str) (tier : Z) (pb_sd continent : str)
           (transport_modes region_examples : list str) : json :=
  JObj [(Py.lit "title", JStr title);
        (Py.lit "tier", BuildTripCatalog.whole tier);
        (Py.lit "pb_sd", JStr pb_sd);
        (Py.lit "continent", JStr continent);
        (Py.lit "transport_modes", BuildTripCatalog.strings transport_modes);
        (Py.lit "themes",
         BuildTripCatalog.strings (BuildTripCatalog.themes_of continent));
        (Py.lit "activity_level",
         BuildTripCatalog.whole (if (tier =? 1)%Z then 5%Z else 6%Z));
        (Py.lit "cultural_depth",
         BuildTripCatalog.whole
           (if existsb (Py.eqb continent)
                       [Py.lit "Europe"; Py.lit "Asia"; Py.lit "Asia/Africa"]
            then 8%Z else 6%Z));
        (Py.lit "region_examples", BuildTripCatalog.strings region_examples);
        (Py.lit "description",
         JStr (title ++ Py.lit " visiting "
               ++ Py.join (Py.lit ", ") (firstn 3 region_examples)
               ++ Py.lit " and nearby regions."))].

(** A text without the character [c]. *)
Definition without (c : ascii) (s : str) : Prop := Forall (fun x => x <> c) s.

(** An item of a list of the trip line: trimmed, without comma and
    without vertical bar. *)
Definition list_item (s : str) : Prop :=
  trimmed s
  /\ without BuildTripCatalog.COMMA s
  /\ without BuildTripCatalog.PIPE s.

(** A word of a trip line: a list item that is not empty and has no
    colon. *)
Definition word (s : str) : Prop :=
  s <> [] /\ list_item s /\ without BuildTripCatalog.COLON s.

(** A trip line in the layout of the trip list: title, regions,
    transport modes, tier, breadth or depth, continent. *)
Definition trip_line (title : str) (regions modes : list str)
           (tier_digits kind continent : str) : str :=
  title ++ Py.lit ": " ++ Py.join (Py.lit ", ") regions
  ++ Py.lit " | " ++ Py.join (Py.lit ", ") modes
  ++ Py.lit " | Tier " ++ tier_digits
  ++ Py.lit " | " ++ kind
  ++ Py.lit " | " ++ continent ++ [LF].

(** ** Matching the matched entries again *)

(** A matched entry, as an exact match. *)
Definition as_exact {V : Type} (e : BuildRefText.matched_entry V)
  : BuildRefText.matched_entry V :=
  {| BuildRefText.question := BuildRefText.question e;
     BuildRefText.question_ref := BuildRefText.question_ref e;
     BuildRefText.answer := BuildRefText.answer e;
     BuildRefText.answer_ref := BuildRefText.answer_ref e;
     BuildRefText.match_type := BuildRefText.EXACT |}.

(** The question and the answer of a matched entry, as a block. *)
Definition as_block {V : Type} (e : BuildRefText.matched_entry V)
  : BuildRefText.qa_pair :=
  (BuildRefText.question e, BuildRefText.answer e).

End Spec.

(* ================================================================== *)
(** * Properties *)
(* ================================================================== *)

Unset Implicit Arguments.

(** ** Characters *)

Ltac each_char c :=
  destruct c as [[] [] [] [] [] [] [] []]; vm_compute; try reflexivity; try discriminate; auto.

Lemma kept_lower_char (c : ascii) :
  BuildRefText.kept c = true -> Py.lower_char c = c.
Proof. each_char c. Qed.

Lemma eqb_char_eq (a b : ascii) : Py.eqb_char a b = true <-> a = b.
Proof. unfold Py.eqb_char. apply Ascii.eqb_eq. Qed.

Lemma py_eqb_eq (a b : str) : Py.eqb a b = true <-> a = b.
Proof.
  revert b. induction a as [|x a IH]; destruct b as [|y b]; simpl;
    try (split; [discriminate | discriminate]); try tauto.
  rewrite andb_true_iff, eqb_char_eq, IH. split.
  - intros [-> ->]. reflexivity.
  - intros H. inversion H. auto.
Qed.

Lemma py_eqb_refl (a : str) : Py.eqb a a = true.
Proof. apply py_eqb_eq. reflexivity. Qed.

Lemma py_eqb_neq (a b : str) : a <> b -> Py.eqb a b = false.
Proof.
  intros H. destruct (Py.eqb a b) eqn:E; [|reflexivity].
  apply py_eqb_eq in E. contradiction.
Qed.

(** ** Stripping *)

Lemma lstrip_Forall (P : ascii -> Prop) (s : str) :
  Forall P s -> Forall P (Py.lstrip s).
Proof.
  induction 1 as [|c t Hc Ht IH]; simpl; [constructor|].
  destruct (Py.isspace c); [exact IH | constructor; assumption].
Qed.

Lemma strip_Forall (P : ascii -> Prop) (s : str) :
  Forall P s -> Forall P (Py.strip s).
Proof.
  intros H. unfold Py.strip, Py.rstrip.
  apply Forall_rev, lstrip_Forall, Forall_rev, lstrip_Forall, H.
Qed.

Lemma lstrip_idem (s : str) : Py.lstrip (Py.lstrip s) = Py.lstrip s.
Proof.
  induction s as [|c t IH]; simpl; [reflexivity|].
  destruct (Py.isspace c) eqn:E; [exact IH | simpl; rewrite E; reflexivity].
Qed.

Lemma lstrip_snoc (l : str) (c : ascii) :
  Py.isspace c = false -> Py.lstrip (l ++ [c]) = Py.lstrip l ++ [c].
Proof.
  intros Hc. induction l as [|d l IH]; simpl.
  - rewrite Hc. reflexivity.
  - destruct (Py.isspace d); [exact IH | reflexivity].
Qed.

Lemma lstrip_length (s : str) : length (Py.lstrip s) <= length s.
Proof.
  induction s as [|c t IH]; simpl; [lia|].
  destruct (Py.isspace c); simpl; lia.
Qed.

Lemma lstrip_fixed_head (c : ascii) (t : str) :
  Py.lstrip (c :: t) = c :: t -> Py.isspace c = false.
Proof.
  simpl. destruct (Py.isspace c); [|reflexivity].
  intros H. pose proof (lstrip_length t) as L. rewrite H in L. simpl in L. lia.
Qed.

Lemma rstrip_idem (s : str) : Py.rstrip (Py.rstrip s) = Py.rstrip s.
Proof. unfold Py.rstrip. rewrite rev_involutive, lstrip_idem. reflexivity. Qed.

Lemma lstrip_rstrip_fixed (y : str) :
  Py.lstrip y = y -> Py.lstrip (Py.rstrip y) = Py.rstrip y.
Proof.
  destruct y as [|c t]; [reflexivity|].
  intros H. apply lstrip_fixed_head in H.
  unfold Py.rstrip. simpl rev. rewrite (lstrip_snoc _ _ H), rev_app_distr.
  simpl. rewrite H. reflexivity.
Qed.

Lemma strip_idem (s : str) : Py.strip (Py.strip s) = Py.strip s.
Proof.
  unfold Py.strip.
  rewrite (lstrip_rstrip_fixed _ (lstrip_idem s)). apply rstrip_idem.
Qed.

(** ** Normalisation *)

Lemma normalize_kept (s : str) :
  Forall (fun c => BuildRefText.kept c = true) (BuildRefText.normalize s).
Proof.
  unfold BuildRefText.normalize. apply Forall_forall.
  intros c Hc. apply filter_In in Hc. tauto.
Qed.

Lemma lower_kept (t : str) :
  Forall (fun c => BuildRefText.kept c = true) t -> Py.lower t = t.
Proof.
  induction 1 as [|c t Hc Ht IH]; simpl; [reflexivity|].
  rewrite (kept_lower_char _ Hc). f_equal. exact IH.
Qed.

Lemma filter_all (A : Type) (p : A -> bool) (l : list A) :
  Forall (fun x => p x = true) l -> filter p l = l.
Proof.
  induction 1 as [|x l Hx Hl IH]; simpl; [reflexivity|].
  rewrite Hx, IH. reflexivity.
Qed.

Lemma normalize_of_kept (t : str) :
  Forall (fun c => BuildRefText.kept c = true) t ->
  BuildRefText.normalize t = Py.strip t.
Proof.
  intros H. unfold BuildRefText.normalize.
  rewrite (lower_kept _ H). apply filter_all, strip_Forall, H.
Qed.

(** C3 (as the code has it). Normalising a second time strips the
    spaces that deleting characters left at the ends of the first result;
    from the second application on nothing changes. *)
Theorem normalize_twice_strips (s : str) :
  BuildRefText.normalize (BuildRefText.normalize s)
    = Py.strip (BuildRefText.normalize s)
  /\ BuildRefText.normalize (BuildRefText.normalize (BuildRefText.normalize s))
    = BuildRefText.normalize (BuildRefText.normalize s).
Proof.
  assert (H1 : forall u, BuildRefText.normalize (BuildRefText.normalize u)
                         = Py.strip (BuildRefText.normalize u)).
  { intros u. apply normalize_of_kept, normalize_kept. }
  split; [apply H1|].
  rewrite (H1 (BuildRefText.normalize s)), H1. apply strip_idem.
Qed.

Lemma normalize_not_idempotent :
  ~ (forall s : str,
       BuildRefText.normalize (BuildRefText.normalize s)
       = BuildRefText.normalize s).
Proof.
  intros H. specialize (H (Py.lit "What is your age ?")).
  vm_compute in H. discriminate H.
Qed.

(** ** Answer-type inference *)

Lemma first_digit_run_leading (d : ascii) (rest : str) :
  Py.isdigit d = true ->
  BuildUserJson.first_digit_run (d :: rest)
  = Some (Py.take_while Py.isdigit (d :: rest)).
Proof.
  intros Hd. unfold BuildUserJson.first_digit_run.
  cbn [Py.drop_while Py.take_while]. rewrite Hd.
  cbn [negb Py.take_while]. rewrite Hd. reflexivity.
Qed.

(** A natural number below 2^53 is a double: [float] keeps it as it
    is. *)
Lemma double_of_N_exact (n : N) :
  (n < 2 ^ 53)%N -> Py.double_of_N n = Some n.
Proof.
  intros H.
  assert (Hs : (N.size n <= 53)%N).
  { destruct (N.eq_dec n 0) as [-> | Hn]; [discriminate|].
    rewrite (N.size_log2 n Hn).
    apply N.le_succ_l. apply N.log2_lt_pow2; [|exact H].
    apply N.neq_0_lt_0. exact Hn. }
  unfold Py.double_of_N.
  assert (He : (N.size n - 53 = 0)%N) by (apply N.sub_0_le; exact Hs).
  rewrite He. rewrite N.shiftr_0_r.
  change (N.ones 0) with 0%N. rewrite N.land_0_r.
  change (N.shiftl 1 (0 - 1)) with 1%N.
  change ((1 <? 0)%N || (0 =? 1)%N && N.odd n) with false.
  cbv beta iota zeta. rewrite N.shiftl_0_r.
  assert (Hlt : (1024 <? N.size n)%N = false).
  { apply N.ltb_ge. apply (N.le_trans _ 53); [exact Hs | discriminate]. }
  rewrite Hlt. reflexivity.
Qed.

Lemma float_of_digits_exact (run : str) :
  (Py.int_of_digits run < 2 ^ 53)%N ->
  BuildUserJson.float_of_digits run
  = JNum (inject_Z (Z.of_N (Py.int_of_digits run))).
Proof.
  intros H. unfold BuildUserJson.float_of_digits.
  rewrite (double_of_N_exact _ H). reflexivity.
Qed.

(** Beyond 2^53 the value is rounded, and beyond the doubles it is
    [inf]. *)
Example float_of_digits_rounds :
  BuildUserJson.float_of_digits (Py.lit "9007199254740993")
  = JNum (inject_Z 9007199254740992)
  /\ BuildUserJson.float_of_digits (Py.lit "9007199254740995")
     = JNum (inject_Z 9007199254740996)
  /\ BuildUserJson.float_of_digits (repeat "9"%char 400) = JInf.
Proof. repeat split; vm_compute; reflexivity. Qed.

(** C5. An answer whose trimmed form begins with a digit is typed
    [number], whatever the type hint says, and its payload is the leading
    run of digits of the trimmed answer converted by [float]: the double
    nearest to the value of the run, which is that value itself as long
    as it is below 2^53. *)
Theorem detect_answer_type_leading_digits
        (hint answer : str) (d : ascii) (rest : str) :
  Py.strip answer = d :: rest ->
  Py.isdigit d = true ->
  BuildUserJson.detect_answer_type (JStr hint) answer
  = ok (Py.lit "number",
        [(Py.lit "number",
          BuildUserJson.float_of_digits
            (Py.take_while Py.isdigit (Py.strip answer)))])
  /\ ((Py.int_of_digits (Py.take_while Py.isdigit (Py.strip answer))
       < 2 ^ 53)%N ->
      BuildUserJson.float_of_digits
        (Py.take_while Py.isdigit (Py.strip answer))
      = JNum (inject_Z
                (Z.of_N (Py.int_of_digits
                           (Py.take_while Py.isdigit (Py.strip answer)))))).
Proof.
  intros Hs Hd. split; [|apply float_of_digits_exact].
  unfold BuildUserJson.detect_answer_type.
  rewrite Hs. rewrite (first_digit_run_leading d rest Hd).
  assert (Hm : BuildUserJson.starts_with_digit (d :: rest) = true)
    by exact Hd.
  rewrite Hm, !orb_true_r. reflexivity.
Qed.

Lemma detect_answer_type_leading_digits_witness :
  BuildUserJson.detect_answer_type
    (JStr (Py.lit "choice")) (Py.lit "  29 years old ")
  = ok (Py.lit "number", [(Py.lit "number", JNum (inject_Z 29))]).
Proof.
  destruct (detect_answer_type_leading_digits
              (Py.lit "choice") (Py.lit "  29 years old ")
              "2"%char (Py.lit "9 years old") eq_refl eq_refl) as [H _].
  exact H.
Defined.

(** ** Schema loaders *)

Lemma get_default_obj (key : str) (default : json) (m : Dict.t json) :
  Json.get_default key default (JObj m) = ok (Spec.member_or key default m).
Proof. reflexivity. Qed.

Lemma ref_text_load_field (item : json) (m : Dict.t json) (t : str) :
  Spec.descriptor item m t ->
  BuildRefText.load_field item
  = ok (BuildRefText.mkField
          (Py.strip t)
          (Spec.member_or (Py.lit "ref") (JStr []) m)
          (Spec.member_or (Py.lit "type") (JStr (Py.lit "text")) m)).
Proof.
  intros [-> [[Ht ->] | Ht]]; unfold BuildRefText.load_field;
    rewrite !get_default_obj; unfold Spec.member_or at 1;
    rewrite Ht; reflexivity.
Qed.

Lemma ref_text_load_all (items : list json) :
  Forall (fun item => exists m t, Spec.descriptor item m t) items ->
  exists fields,
    for_each BuildRefText.load_field items = ok fields
    /\ Forall2 Spec.loaded_as items fields.
Proof.
  induction 1 as [|item items [m [t Hd]] _ [fields [Hf Hall]]].
  - exists []. split; [reflexivity | constructor].
  - eexists. split.
    + cbn [for_each]. rewrite (ref_text_load_field item m t Hd).
      cbn [bind]. rewrite Hf. reflexivity.
    + constructor; [|exact Hall].
      exists m, t. split; [exact Hd|]. repeat split; reflexivity.
Qed.

(** C4 (as the code has it).  Neither loader has a schema error: a
    document without a field list, or with an empty one, is loaded as no
    fields at all.  A list of descriptors is loaded by the exporter's
    schema loader as one record per descriptor, in order, the type hint
    being [text] when the descriptor has none; the payload builder's
    loader stores a descriptor under its reference, with the same default
    for the type hint. *)
Theorem load_schema_total_on_missing_fields :
  (forall m : Dict.t json,
      Spec.no_field_list m ->
      BuildRefText.load_schema (JObj m) = ok []
      /\ BuildUserJson.load_schema (JObj m)
         = ok ([],
               Spec.member_or (Py.lit "id") (JStr (Py.lit "mock_form_001")) m,
               Spec.member_or (Py.lit "title")
                              (JStr (Py.lit "Untitled Form")) m))
  /\ (forall (m : Dict.t json) (items : list json),
         Dict.get (Py.lit "fields") m = Some (JArr items) ->
         Forall (fun item => exists d t, Spec.descriptor item d t) items ->
         exists fields,
           BuildRefText.load_schema (JObj m) = ok fields
           /\ Forall2 Spec.loaded_as items fields)
  /\ (forall (ref_map : Dict.t BuildUserJson.field_info)
             (d : Dict.t json) (c : ascii) (r : str),
         Dict.get (Py.lit "ref") d = Some (JStr (c :: r)) ->
         BuildUserJson.load_field ref_map (JObj d)
         = ok (Dict.set (c :: r)
                 (BuildUserJson.mkInfo
                    (Spec.member_or (Py.lit "id")
                       (JStr (BuildUserJson.derived_id (c :: r))) d)
                    (Spec.member_or (Py.lit "title") (JStr []) d)
                    (Spec.member_or (Py.lit "type")
                       (JStr (Py.lit "text")) d))
                 ref_map)).
Proof.
  split; [|split].
  - intros m [H | H]; unfold BuildRefText.load_schema,
      BuildUserJson.load_schema; rewrite !get_default_obj;
      unfold Spec.member_or at 1; unfold Spec.member_or at 3;
      rewrite H; split; reflexivity.
  - intros m items Hm Hall.
    destruct (ref_text_load_all items Hall) as [fields [Hf HF]].
    exists fields. split; [|exact HF].
    unfold BuildRefText.load_schema. rewrite get_default_obj.
    unfold Spec.member_or. rewrite Hm. exact Hf.
  - intros ref_map d c r Hr. unfold BuildUserJson.load_field.
    cbn [Json.get bind ok]. rewrite Hr. reflexivity.
Qed.

Lemma load_schema_total_on_missing_fields_witness :
  (BuildRefText.load_schema (JObj [(Py.lit "title", JStr (Py.lit "Trip"))])
   = ok []
   /\ BuildUserJson.load_schema
        (JObj [(Py.lit "title", JStr (Py.lit "Trip"))])
      = ok ([], JStr (Py.lit "mock_form_001"), JStr (Py.lit "Trip")))
  /\ (exists fields,
         BuildRefText.load_schema
           (JObj [(Py.lit "fields",
                   JArr [JObj [(Py.lit "title", JStr (Py.lit " Age? "));
                               (Py.lit "ref", JStr (Py.lit "r1"))]])])
         = ok fields
         /\ Forall2 Spec.loaded_as
              [JObj [(Py.lit "title", JStr (Py.lit " Age? "));
                     (Py.lit "ref", JStr (Py.lit "r1"))]]
              fields)
  /\ BuildUserJson.load_field [] (JObj [(Py.lit "ref", JStr (Py.lit "r1"))])
     = ok [(Py.lit "r1",
            BuildUserJson.mkInfo (JStr (Py.lit "id_r1")) (JStr [])
                                 (JStr (Py.lit "text")))].
Proof.
  destruct load_schema_total_on_missing_fields as [H1 [H2 H3]].
  split; [|split].
  - apply (H1 [(Py.lit "title", JStr (Py.lit "Trip"))]).
    left. reflexivity.
  - apply (H2 [(Py.lit "fields",
                 JArr [JObj [(Py.lit "title", JStr (Py.lit " Age? "));
                             (Py.lit "ref", JStr (Py.lit "r1"))]])]
              [JObj [(Py.lit "title", JStr (Py.lit " Age? "));
                     (Py.lit "ref", JStr (Py.lit "r1"))]]
              eq_refl).
    repeat constructor.
    eexists. exists (Py.lit " Age? "). split; [reflexivity|]. right. reflexivity.
  - exact (H3 [] [(Py.lit "ref", JStr (Py.lit "r1"))] "r"%char (Py.lit "1")
              eq_refl).
Defined.

Lemma load_schema_returns_without_fields :
  ~ ((exists e, BuildRefText.load_schema (JObj []) = raise e)
     \/ (exists e, BuildUserJson.load_schema (JObj []) = raise e)).
Proof.
  intros [[e H] | [e H]]; vm_compute in H; discriminate H.
Qed.

(** ** Response normaliser *)

Lemma is_str_false (s : str) (x : json) :
  x <> JStr s -> Json.is_str s x = false.
Proof.
  destruct x; try reflexivity. intros H. simpl.
  apply py_eqb_neq. intros ->. apply H. reflexivity.
Qed.

Lemma is_str_true (s : str) (x : json) :
  Json.is_str s x = true -> x = JStr s.
Proof.
  destruct x; try discriminate. simpl. intros H.
  apply py_eqb_eq in H. subst. reflexivity.
Qed.

Lemma json_get_obj (key : str) (m : Dict.t json) :
  Json.get key (JObj m) = ok (NormalizeTypeform.dget key m).
Proof. reflexivity. Qed.

Lemma without_field_minus (ans : Dict.t json) :
  Spec.minus_field ans (NormalizeTypeform.without_field ans).
Proof.
  unfold Spec.minus_field, NormalizeTypeform.without_field. split.
  - induction ans as [|[k v] ans IH]; [reflexivity|].
    cbn [filter fst]. destruct (Py.eqb k (Py.lit "field")) eqn:E;
      cbn [negb]; [exact IH|].
    cbn [Dict.get]. destruct (Py.eqb (Py.lit "field") k) eqn:E'; [|exact IH].
    apply py_eqb_eq in E'. subst k. rewrite py_eqb_refl in E. discriminate.
  - intros key Hkey. induction ans as [|[k v] ans IH]; [reflexivity|].
    cbn [filter fst]. destruct (Py.eqb k (Py.lit "field")) eqn:E; cbn [negb].
    + apply py_eqb_eq in E. subst k. cbn [Dict.get].
      rewrite (py_eqb_neq _ _ Hkey). exact IH.
    + cbn [Dict.get]. destruct (Py.eqb key k); [reflexivity | exact IH].
Qed.

Lemma value_of_unknown (ans : Dict.t json) :
  Spec.unknown_kind ans ->
  NormalizeTypeform.value_of
    (NormalizeTypeform.dget (Py.lit "type") ans) (JObj ans)
  = ok (JObj (NormalizeTypeform.without_field ans)).
Proof.
  intros [H1 [H2 H3]]. unfold NormalizeTypeform.value_of.
  rewrite (is_str_false _ _ H1), (is_str_false _ _ H2), (is_str_false _ _ H3).
  reflexivity.
Qed.

(** The value of an answer is always computed; the record itself is
    never the cause of an exception there. *)
Lemma value_of_total (a : json) (ans : Dict.t json) :
  Spec.answer_record a ans ->
  exists v,
    NormalizeTypeform.value_of
      (NormalizeTypeform.dget (Py.lit "type") ans) (JObj ans) = ok v.
Proof.
  intros [_ [_ Hc]]. unfold NormalizeTypeform.value_of.
  destruct (Json.is_str (Py.lit "choice") _) eqn:E1.
  - apply is_str_true in E1.
    unfold Json.get_default. destruct Hc as [Hc | [[c Hc] | Hc]].
    + rewrite Hc. eexists. reflexivity.
    + rewrite Hc. eexists. reflexivity.
    + contradiction.
  - destruct (Json.is_str (Py.lit "number") _);
      [eexists; reflexivity|].
    destruct (Json.is_str (Py.lit "text") _); eexists; reflexivity.
Qed.

Lemma normalize_answer_keeps (fields_by_id : NormalizeTypeform.by_id)
      (a : json) (ans : Dict.t json) :
  Spec.answer_record a ans ->
  exists o,
    NormalizeTypeform.normalize_answer fields_by_id a = ok o
    /\ Spec.keeps_unknown a o.
Proof.
  intros Ha. destruct (value_of_total a ans Ha) as [v Hv].
  destruct Ha as [-> [Hf Hc]].
  assert (Hfield : exists fd,
             Json.get_default (Py.lit "field") (JObj []) (JObj ans)
             = ok (JObj fd)
             /\ Json.hashable (NormalizeTypeform.dget (Py.lit "id") fd) = true).
  { unfold Json.get_default. destruct Hf as [Hf | [fd [Hf Hh]]]; rewrite Hf.
    - exists []. split; reflexivity.
    - exists fd. split; [reflexivity | exact Hh]. }
  destruct Hfield as [fd [Hfd Hh]].
  unfold NormalizeTypeform.normalize_answer.
  rewrite Hfd. cbn [bind ok]. rewrite !json_get_obj. cbn [bind ok].
  rewrite Hh. cbn [bind ok]. rewrite Hv. cbn [bind ok].
  eexists. split; [reflexivity|].
  eexists ans, _. split; [reflexivity|]. split; [reflexivity|].
  split; [reflexivity|].
  intros Hu. rewrite (value_of_unknown ans Hu) in Hv.
  injection Hv as <-. eexists. split; [reflexivity|].
  apply without_field_minus.
Qed.

Lemma for_each_Forall2 (A B : Type) (body : A -> result B)
      (R : A -> B -> Prop) (l : list A) :
  Forall (fun a => exists b, body a = ok b /\ R a b) l ->
  exists bs, for_each body l = ok bs /\ Forall2 R l bs.
Proof.
  induction 1 as [|a l [b [Hb HR]] _ [bs [Hbs HF]]].
  - exists []. split; [reflexivity | constructor].
  - exists (b :: bs). cbn [for_each]. rewrite Hb. cbn [bind].
    rewrite Hbs. split; [reflexivity | constructor; assumption].
Qed.

Lemma add_fields_total (fs : list json) (m : NormalizeTypeform.by_id) :
  Forall Spec.field_definition fs ->
  exists m', NormalizeTypeform.add_fields m fs = ok m'.
Proof.
  intros H. revert m.
  induction H as [|f fs [d [i [-> [Hi Hh]]]] _ IH]; intros m.
  - exists m. reflexivity.
  - cbn [NormalizeTypeform.add_fields].
    unfold NormalizeTypeform.add_field. cbn [Json.item]. rewrite Hi.
    cbn [bind ok Json.get]. rewrite Hh. cbn [bind ok]. apply IH.
Qed.

(** C7. Every well-formed payload is normalised without an exception,
    answer by answer and in order; the value of an answer whose kind is
    none of number, choice and text is the answer record itself without
    its [field] member, all other keys kept. *)
Theorem normalize_typeform_keeps_unknown_kinds (tf : json) (ins : list json) :
  Spec.submission_payload tf ins ->
  exists meta outs,
    NormalizeTypeform.normalize_typeform tf
    = ok (JObj [(Py.lit "meta", meta); (Py.lit "answers", JArr outs)])
    /\ Forall2 Spec.keeps_unknown ins outs.
Proof.
  intros [tfm [form [-> [Hform [Hdef [Hans Hrec]]]]]].
  unfold NormalizeTypeform.normalize_typeform.
  cbn [Json.item]. rewrite Hform. cbn [bind ok].
  assert (Hfields : exists fs,
             (definition <- Json.get_default (Py.lit "definition") (JObj [])
                                             (JObj form) ;;
              l <- Json.get_default (Py.lit "fields") (JArr []) definition ;;
              Json.iter l) = ok fs
             /\ Forall Spec.field_definition fs).
  { unfold Json.get_default at 1.
    destruct Hdef as [Hd | [dm [Hd Hfs]]]; rewrite Hd; cbn [bind ok].
    - exists []. split; [reflexivity | constructor].
    - unfold Json.get_default.
      destruct Hfs as [Hfs | [fs [Hfs Hall]]]; rewrite Hfs; cbn [bind ok].
      + exists []. split; [reflexivity | constructor].
      + exists fs. split; [reflexivity | exact Hall]. }
  destruct Hfields as [fs [Hfs Hall]].
  destruct (Json.get_default (Py.lit "definition") (JObj []) (JObj form))
    as [e | definition]; [discriminate Hfs|].
  cbn [bind] in Hfs |- *.
  destruct (Json.get_default (Py.lit "fields") (JArr []) definition)
    as [e | l]; [discriminate Hfs|].
  cbn [bind] in Hfs |- *. rewrite Hfs. cbn [bind ok].
  destruct (add_fields_total fs [] Hall) as [by_id Hby].
  rewrite Hby. cbn [bind ok]. rewrite !json_get_obj. cbn [bind ok].
  assert (Hiter : (answers <- Json.get_default (Py.lit "answers") (JArr [])
                                               (JObj form) ;;
                   Json.iter answers) = ok ins).
  { unfold Json.get_default. destruct Hans as [[Ha ->] | Ha]; rewrite Ha;
      reflexivity. }
  destruct (Json.get_default (Py.lit "hidden") (JObj []) (JObj form))
    as [e | hidden] eqn:Hh; [discriminate Hh|].
  cbn [bind].
  destruct (Json.get_default (Py.lit "answers") (JArr []) (JObj form))
    as [e | answers]; [discriminate Hiter|].
  cbn [bind] in Hiter |- *. rewrite Hiter. cbn [bind ok].
  destruct (for_each_Forall2 _ _ (NormalizeTypeform.normalize_answer by_id)
              Spec.keeps_unknown ins) as [outs [Houts HF]].
  { eapply Forall_impl; [|exact Hrec].
    intros a [m Hm]. exact (normalize_answer_keeps by_id a m Hm). }
  rewrite Houts. cbn [bind ok].
  eexists _, outs. split; [reflexivity | exact HF].
Qed.

Lemma normalize_typeform_keeps_unknown_kinds_witness :
  exists meta outs,
    NormalizeTypeform.normalize_typeform
      (JObj [(Py.lit "form_response",
              JObj [(Py.lit "form_id", JStr (Py.lit "f"));
                    (Py.lit "definition",
                     JObj [(Py.lit "fields",
                            JArr [JObj [(Py.lit "id", JStr (Py.lit "q1"));
                                        (Py.lit "title", JStr (Py.lit "Ok?"));
                                        (Py.lit "type",
                                         JStr (Py.lit "yes_no"))]])]);
                    (Py.lit "answers",
                     JArr [JObj [(Py.lit "field",
                                  JObj [(Py.lit "id", JStr (Py.lit "q1"))]);
                                 (Py.lit "type", JStr (Py.lit "boolean"));
                                 (Py.lit "boolean", JBool true)]])])])
    = ok (JObj [(Py.lit "meta", meta); (Py.lit "answers", JArr outs)])
    /\ Forall2 Spec.keeps_unknown
         [JObj [(Py.lit "field", JObj [(Py.lit "id", JStr (Py.lit "q1"))]);
                (Py.lit "type", JStr (Py.lit "boolean"));
                (Py.lit "boolean", JBool true)]]
         outs.
Proof.
  apply normalize_typeform_keeps_unknown_kinds.
  eexists. eexists. split; [reflexivity|]. split; [reflexivity|].
  split; [|split].
  - right. eexists. split; [reflexivity|]. right. eexists.
    split; [reflexivity|]. repeat constructor.
    eexists. eexists. split; [reflexivity|]. split; reflexivity.
  - right. reflexivity.
  - repeat constructor. eexists. split; [reflexivity|]. split.
    + right. eexists. split; reflexivity.
    + left. reflexivity.
Defined.

(** The value computed on the sample above, in full. *)
Example normalize_typeform_boolean_answer :
  NormalizeTypeform.normalize_answer []
    (JObj [(Py.lit "field", JObj [(Py.lit "id", JStr (Py.lit "q1"))]);
           (Py.lit "type", JStr (Py.lit "boolean"));
           (Py.lit "boolean", JBool true)])
  = ok (JObj [(Py.lit "field_id", JStr (Py.lit "q1"));
              (Py.lit "field_title", JNull);
              (Py.lit "field_type", JNull);
              (Py.lit "answer_type", JStr (Py.lit "boolean"));
              (Py.lit "value",
               JObj [(Py.lit "type", JStr (Py.lit "boolean"));
                     (Py.lit "boolean", JBool true)])]).
Proof. reflexivity. Qed.

(** ** Payload builder *)

(** The inferencer answers for every string hint, with one member named
    after the kind it chose. *)
Lemma detect_answer_type_total (hint answer : str) :
  exists kind v,
    BuildUserJson.detect_answer_type (JStr hint) answer = ok (kind, [(kind, v)])
    /\ (kind = Py.lit "number" \/ kind = Py.lit "choice"
        \/ kind = Py.lit "text").
Proof.
  unfold BuildUserJson.detect_answer_type.
  destruct (_ || _ || BuildUserJson.starts_with_digit _).
  - destruct (BuildUserJson.first_digit_run _); eexists; eexists;
      (split; [reflexivity | auto]).
  - destruct (_ || _ || _); eexists; eexists; (split; [reflexivity | auto]).
Qed.

Lemma detect_answer_type_shape (ft : json) (answer kind : str)
      (data : Dict.t json) :
  BuildUserJson.detect_answer_type ft answer = ok (kind, data) ->
  exists v,
    data = [(kind, v)]
    /\ (kind = Py.lit "number" \/ kind = Py.lit "choice"
        \/ kind = Py.lit "text").
Proof.
  destruct ft as [| | | |hint| |]; try discriminate.
  destruct (detect_answer_type_total hint answer) as [k [v [H Hk]]].
  rewrite H. intros E. injection E as <- <-. exists v. auto.
Qed.

Lemma answer_of_field_id (f : BuildUserJson.field_info) (kind : str) (v : json) :
  kind = Py.lit "number" \/ kind = Py.lit "choice" \/ kind = Py.lit "text" ->
  Spec.answer_field_id (BuildUserJson.answer_of f kind [(kind, v)])
  = ok (BuildUserJson.id f).
Proof. intros [-> | [-> | ->]]; reflexivity. Qed.

Lemma resolve_expected (schema_map : Dict.t BuildUserJson.field_info)
      (e : BuildUserJson.entry) :
  Spec.expected_definition schema_map e
    (BuildUserJson.definition_of (snd (BuildUserJson.resolve schema_map e))).
Proof.
  unfold Spec.expected_definition, BuildUserJson.resolve.
  destruct (Dict.get (BuildUserJson.ref e) schema_map); reflexivity.
Qed.

Lemma resolve_warning (schema_map : Dict.t BuildUserJson.field_info)
      (e : BuildUserJson.entry) :
  fst (BuildUserJson.resolve schema_map e)
  = map BuildUserJson.RefNotFound (Spec.unknown_refs schema_map [e]).
Proof.
  unfold Spec.unknown_refs, BuildUserJson.resolve, Dict.mem. cbn [filter].
  destruct (Dict.get (BuildUserJson.ref e) schema_map); reflexivity.
Qed.

Lemma unknown_refs_cons (schema_map : Dict.t BuildUserJson.field_info)
      (e : BuildUserJson.entry) (es : list BuildUserJson.entry) :
  Spec.unknown_refs schema_map (e :: es)
  = Spec.unknown_refs schema_map [e] ++ Spec.unknown_refs schema_map es.
Proof.
  unfold Spec.unknown_refs. cbn [filter].
  destruct (negb _); reflexivity.
Qed.

Lemma build_entry_inv (schema_map : Dict.t BuildUserJson.field_info)
      (st st' : BuildUserJson.builder_state) (e : BuildUserJson.entry) :
  BuildUserJson.build_entry schema_map st e = ok st' ->
  exists d a,
    BuildUserJson.fields st' = BuildUserJson.fields st ++ [d]
    /\ BuildUserJson.answers st' = BuildUserJson.answers st ++ [a]
    /\ BuildUserJson.warnings st'
       = BuildUserJson.warnings st
         ++ map BuildUserJson.RefNotFound (Spec.unknown_refs schema_map [e])
    /\ Spec.entry_output schema_map e d a.
Proof.
  unfold BuildUserJson.build_entry.
  pose proof (resolve_expected schema_map e) as Hexp.
  pose proof (resolve_warning schema_map e) as Hwarn.
  destruct (BuildUserJson.resolve schema_map e) as [warned f].
  cbn [fst snd] in Hexp, Hwarn.
  destruct (BuildUserJson.detect_answer_type (BuildUserJson.type_ f)
              (BuildUserJson.answer e)) as [err | [kind data]] eqn:Hd;
    [discriminate|].
  cbn [bind]. intros E. injection E as <-.
  destruct (detect_answer_type_shape _ _ _ _ Hd) as [v [-> Hk]].
  eexists. eexists. cbn. split; [reflexivity|]. split; [reflexivity|].
  split; [rewrite Hwarn; reflexivity|].
  split; [exact Hexp|].
  exists (BuildUserJson.id f). split; [reflexivity|].
  apply answer_of_field_id, Hk.
Qed.

Lemma build_entries_inv (schema_map : Dict.t BuildUserJson.field_info)
      (es : list BuildUserJson.entry) :
  forall st st',
    BuildUserJson.build_entries schema_map st es = ok st' ->
    exists ds answers,
      BuildUserJson.fields st' = BuildUserJson.fields st ++ ds
      /\ BuildUserJson.answers st' = BuildUserJson.answers st ++ answers
      /\ BuildUserJson.warnings st'
         = BuildUserJson.warnings st
           ++ map BuildUserJson.RefNotFound (Spec.unknown_refs schema_map es)
      /\ Spec.built schema_map es ds answers.
Proof.
  induction es as [|e es IH]; intros st st' H.
  - injection H as <-. exists [], []. rewrite !app_nil_r.
    repeat split. constructor.
  - cbn [BuildUserJson.build_entries] in H.
    destruct (BuildUserJson.build_entry schema_map st e) as [err | st1] eqn:H1;
      [discriminate|].
    cbn [bind] in H.
    destruct (build_entry_inv _ _ _ _ H1) as [d [a [Hf [Ha [Hw Ho]]]]].
    destruct (IH _ _ H) as [ds [answers [Hf' [Ha' [Hw' Hb]]]]].
    exists (d :: ds), (a :: answers).
    rewrite Hf', Ha', Hw', Hf, Ha, Hw, <- !app_assoc.
    rewrite (unknown_refs_cons schema_map e es), map_app.
    repeat split. constructor; assumption.
Qed.

Lemma build_entries_total (schema_map : Dict.t BuildUserJson.field_info)
      (es : list BuildUserJson.entry) :
  Spec.string_types schema_map es ->
  forall st, exists st', BuildUserJson.build_entries schema_map st es = ok st'.
Proof.
  induction es as [|e es IH]; intros Hty st.
  - exists st. reflexivity.
  - cbn [BuildUserJson.build_entries].
    assert (H1 : exists st1, BuildUserJson.build_entry schema_map st e = ok st1).
    { unfold BuildUserJson.build_entry, BuildUserJson.resolve.
      destruct (Dict.get (BuildUserJson.ref e) schema_map) as [f|] eqn:Hg.
      - destruct (Hty e f (or_introl eq_refl) Hg) as [s Hs]. rewrite Hs.
        destruct (detect_answer_type_total s (BuildUserJson.answer e))
          as [k [v [Hd _]]].
        rewrite Hd. eexists. reflexivity.
      - cbn [BuildUserJson.type_].
        destruct (detect_answer_type_total (Py.lit "text")
                    (BuildUserJson.answer e)) as [k [v [Hd _]]].
        rewrite Hd. eexists. reflexivity. }
    destruct H1 as [st1 H1]. rewrite H1. cbn [bind]. apply IH.
    intros e' f' Hin. apply Hty. right. exact Hin.
Qed.

Lemma built_definitions (schema_map : Dict.t BuildUserJson.field_info)
      (es : list BuildUserJson.entry) (ds answers : list json) :
  Spec.built schema_map es ds answers ->
  Forall2 (Spec.expected_definition schema_map) es ds.
Proof.
  induction 1 as [|e es d ds a answers [He _] _ IH]; constructor; assumption.
Qed.

Lemma built_lengths (schema_map : Dict.t BuildUserJson.field_info)
      (es : list BuildUserJson.entry) (ds answers : list json) :
  Spec.built schema_map es ds answers ->
  length ds = length es /\ length answers = length es.
Proof.
  induction 1 as [|e es d ds a answers _ _ [IH1 IH2]]; simpl; auto.
Qed.

Lemma built_answers_refer (schema_map : Dict.t BuildUserJson.field_info)
      (es : list BuildUserJson.entry) (ds answers : list json) :
  Spec.built schema_map es ds answers ->
  forall a,
    In a answers ->
    exists d fid,
      In d ds /\ Spec.definition_id d = ok fid
      /\ Spec.answer_field_id a = ok fid.
Proof.
  induction 1 as [|e es d ds a0 answers [_ [fid [Hd Ha]]] _ IH];
    intros a Hin.
  - destruct Hin.
  - destruct Hin as [<- | Hin].
    + exists d, fid. repeat split; [left; reflexivity | exact Hd | exact Ha].
    + destruct (IH a Hin) as [d' [fid' [Hin' H']]].
      exists d', fid'. split; [right; exact Hin' | exact H'].
Qed.

(** C6. Whatever the references are, the builder returns as long as the
    type hints it finds in the schema are strings.  An entry whose
    reference is unknown gets a placeholder definition, of type [text],
    with the id made of [id_] and the first six characters of the
    reference and with the question of the entry as its title, and one
    warning is issued for it; an entry whose reference is known gets the
    id, title and type of the schema field. *)
Theorem build_typeform_json_total
        (landed submitted : str) (es : list BuildUserJson.entry)
        (schema_map : Dict.t BuildUserJson.field_info)
        (form_id form_title : json) :
  Spec.string_types schema_map es ->
  exists payload ds,
    BuildUserJson.build_typeform_json landed submitted es schema_map
                                      form_id form_title
    = ok (map BuildUserJson.RefNotFound (Spec.unknown_refs schema_map es),
          payload)
    /\ Spec.payload_fields payload = ok (JArr ds)
    /\ Forall2 (Spec.expected_definition schema_map) es ds.
Proof.
  intros Hty. unfold BuildUserJson.build_typeform_json.
  destruct (build_entries_total schema_map es Hty
              (BuildUserJson.mkBuilder [] [] [])) as [st Hst].
  rewrite Hst. cbn [bind ok].
  destruct (build_entries_inv _ _ _ _ Hst) as [ds [answers [Hf [_ [Hw Hb]]]]].
  cbn in Hf, Hw. rewrite Hw, Hf.
  eexists. exists ds. split; [reflexivity|]. split; [reflexivity|].
  exact (built_definitions _ _ _ _ Hb).
Qed.

(** C9. In a payload that the builder returns, definitions and answers
    are built from the entries one for one and in entry order, repeated
    references included, and every answer refers to the id of a
    definition of the payload, the one built from the same entry. *)
Theorem build_typeform_json_answers_refer_to_definitions
        (landed submitted : str) (es : list BuildUserJson.entry)
        (schema_map : Dict.t BuildUserJson.field_info)
        (form_id form_title : json)
        (diagnostics : list BuildUserJson.diagnostic) (payload : json) :
  BuildUserJson.build_typeform_json landed submitted es schema_map
                                    form_id form_title
  = ok (diagnostics, payload) ->
  exists ds answers,
    Spec.payload_fields payload = ok (JArr ds)
    /\ Spec.payload_answers payload = ok (JArr answers)
    /\ Spec.built schema_map es ds answers
    /\ length ds = length es
    /\ length answers = length es
    /\ (forall a,
          In a answers ->
          exists d fid,
            In d ds /\ Spec.definition_id d = ok fid
            /\ Spec.answer_field_id a = ok fid).
Proof.
  unfold BuildUserJson.build_typeform_json.
  destruct (BuildUserJson.build_entries schema_map
              (BuildUserJson.mkBuilder [] [] []) es) as [err | st] eqn:Hst;
    [discriminate|].
  cbn [bind]. intros E. injection E as <- <-.
  destruct (build_entries_inv _ _ _ _ Hst) as [ds [answers [Hf [Ha [_ Hb]]]]].
  cbn in Hf, Ha. rewrite Hf, Ha.
  exists ds, answers. split; [reflexivity|]. split; [reflexivity|].
  split; [exact Hb|].
  destruct (built_lengths _ _ _ _ Hb) as [L1 L2].
  split; [exact L1|]. split; [exact L2|].
  exact (built_answers_refer _ _ _ _ Hb).
Qed.

Lemma build_typeform_json_total_witness :
  exists payload ds,
    BuildUserJson.build_typeform_json
      (Py.lit "2025-01-01T10:00:00") (Py.lit "2025-01-01T10:00:01")
      [BuildUserJson.mkEntry (Py.lit "r1") (Py.lit "Age?") (Py.lit "29");
       BuildUserJson.mkEntry (Py.lit "trip-destination") (Py.lit "Where?")
                             (Py.lit "Lisbon")]
      [(Py.lit "r1",
        BuildUserJson.mkInfo (JStr (Py.lit "id1")) (JStr (Py.lit "Age?"))
                             (JStr (Py.lit "number")))]
      (JStr (Py.lit "form1")) (JStr (Py.lit "Trips"))
    = ok ([BuildUserJson.RefNotFound (Py.lit "trip-destination")], payload)
    /\ Spec.payload_fields payload = ok (JArr ds)
    /\ Forall2
         (Spec.expected_definition
            [(Py.lit "r1",
              BuildUserJson.mkInfo (JStr (Py.lit "id1")) (JStr (Py.lit "Age?"))
                                   (JStr (Py.lit "number")))])
         [BuildUserJson.mkEntry (Py.lit "r1") (Py.lit "Age?") (Py.lit "29");
          BuildUserJson.mkEntry (Py.lit "trip-destination") (Py.lit "Where?")
                                (Py.lit "Lisbon")]
         ds.
Proof.
  apply (build_typeform_json_total
           (Py.lit "2025-01-01T10:00:00") (Py.lit "2025-01-01T10:00:01")
           [BuildUserJson.mkEntry (Py.lit "r1") (Py.lit "Age?") (Py.lit "29");
            BuildUserJson.mkEntry (Py.lit "trip-destination") (Py.lit "Where?")
                                  (Py.lit "Lisbon")]).
  intros e f [<- | [<- | []]] Hg; vm_compute in Hg.
  - injection Hg as <-. eexists. reflexivity.
  - discriminate Hg.
Defined.

(** The placeholder of the sample above. *)
Example build_typeform_json_placeholder :
  BuildUserJson.resolve
    [(Py.lit "r1",
      BuildUserJson.mkInfo (JStr (Py.lit "id1")) (JStr (Py.lit "Age?"))
                           (JStr (Py.lit "number")))]
    (BuildUserJson.mkEntry (Py.lit "trip-destination") (Py.lit "Where?")
                           (Py.lit "Lisbon"))
  = ([BuildUserJson.RefNotFound (Py.lit "trip-destination")],
     BuildUserJson.mkInfo (JStr (Py.lit "id_trip-d")) (JStr (Py.lit "Where?"))
                          (JStr (Py.lit "text"))).
Proof. reflexivity. Qed.

Lemma build_typeform_json_answers_refer_to_definitions_witness :
  exists ds answers,
    Spec.payload_fields
      (match
          BuildUserJson.build_typeform_json
            (Py.lit "t0") (Py.lit "t1")
            [BuildUserJson.mkEntry (Py.lit "r1") (Py.lit "Age?") (Py.lit "29");
             BuildUserJson.mkEntry (Py.lit "r1") (Py.lit "Age?") (Py.lit "31")]
            [(Py.lit "r1",
              BuildUserJson.mkInfo (JStr (Py.lit "id1"))
                                   (JStr (Py.lit "Age?"))
                                   (JStr (Py.lit "number")))]
            (JStr (Py.lit "form1")) (JStr (Py.lit "Trips"))
        with
        | inr (_, payload) => payload
        | inl _ => JNull
        end)
    = ok (JArr ds)
    /\ length ds = 2 /\ length answers = 2
    /\ (forall a,
          In a answers ->
          exists d fid,
            In d ds /\ Spec.definition_id d = ok fid
            /\ Spec.answer_field_id a = ok fid).
Proof.
  destruct (build_typeform_json_answers_refer_to_definitions
              (Py.lit "t0") (Py.lit "t1")
              [BuildUserJson.mkEntry (Py.lit "r1") (Py.lit "Age?")
                                     (Py.lit "29");
               BuildUserJson.mkEntry (Py.lit "r1") (Py.lit "Age?")
                                     (Py.lit "31")]
              [(Py.lit "r1",
                BuildUserJson.mkInfo (JStr (Py.lit "id1"))
                                     (JStr (Py.lit "Age?"))
                                     (JStr (Py.lit "number")))]
              (JStr (Py.lit "form1")) (JStr (Py.lit "Trips"))
              _ _ eq_refl)
    as [ds [answers [Hf [_ [_ [L1 [L2 Hr]]]]]]].
  exists ds, answers. split; [exact Hf|]. split; [exact L1|].
  split; [exact L2 | exact Hr].
Defined.

(** ** Dicts *)

Lemma dict_get_set_same (A : Type) (k : str) (v : A) (d : Dict.t A) :
  Dict.get k (Dict.set k v d) = Some v.
Proof.
  induction d as [|[k' v'] d IH]; cbn [Dict.set Dict.get].
  - rewrite py_eqb_refl. reflexivity.
  - destruct (Py.eqb k k') eqn:E; cbn [Dict.get]; rewrite E;
      [reflexivity | exact IH].
Qed.

Lemma dict_get_set_other (A : Type) (k k' : str) (v : A) (d : Dict.t A) :
  k <> k' -> Dict.get k (Dict.set k' v d) = Dict.get k d.
Proof.
  intros Hk. induction d as [|[k0 v0] d IH]; cbn [Dict.set Dict.get].
  - destruct (Py.eqb k k') eqn:E; [|reflexivity].
    apply py_eqb_eq in E. contradiction.
  - destruct (Py.eqb k' k0) eqn:E; cbn [Dict.get].
    + apply py_eqb_eq in E. subst k0. rewrite (py_eqb_neq _ _ Hk). reflexivity.
    + destruct (Py.eqb k k0); [reflexivity | exact IH].
Qed.

Lemma dict_get_in_keys (A : Type) (k : str) (d : Dict.t A) :
  In k (Dict.keys d) <-> exists v, Dict.get k d = Some v.
Proof.
  unfold Dict.keys. induction d as [|[k' v'] d IH]; cbn [map Dict.get fst].
  - split; [intros [] | intros [v H]; discriminate].
  - destruct (Py.eqb k k') eqn:E.
    + apply py_eqb_eq in E. subst k'. split.
      * intros _. exists v'. reflexivity.
      * intros _. left. reflexivity.
    + rewrite <- IH. split.
      * intros [H | H]; [|exact H].
        subst k'. rewrite py_eqb_refl in E. discriminate.
      * intros H. right. exact H.
Qed.

(** ** The order of strings *)

Lemma code_inj (x y : ascii) : Py.code x = Py.code y -> x = y.
Proof.
  unfold Py.code. intros H.
  rewrite <- (ascii_N_embedding x), <- (ascii_N_embedding y), H. reflexivity.
Qed.

Lemma compare_eq (a b : str) : Py.compare a b = Eq -> a = b.
Proof.
  revert b. induction a as [|x a IH]; destruct b as [|y b]; cbn;
    try discriminate; [reflexivity|].
  destruct (N.compare_spec (Py.code x) (Py.code y)) as [E | L | G];
    try discriminate.
  intros H. apply code_inj in E. rewrite (IH b H), E. reflexivity.
Qed.

Lemma compare_refl (a : str) : Py.compare a a = Eq.
Proof.
  induction a as [|x a IH]; cbn; [reflexivity|].
  rewrite N.compare_refl. exact IH.
Qed.

Lemma compare_antisym (a b : str) :
  Py.compare a b = CompOpp (Py.compare b a).
Proof.
  revert b. induction a as [|x a IH]; destruct b as [|y b]; cbn;
    try reflexivity.
  rewrite (N.compare_antisym (Py.code x) (Py.code y)).
  destruct (Py.code x ?= Py.code y)%N; cbn; [apply IH | reflexivity..].
Qed.

Lemma compare_lt_trans (a b c : str) :
  Py.compare a b = Lt -> Py.compare b c = Lt -> Py.compare a c = Lt.
Proof.
  revert b c. induction a as [|x a IH]; intros [|y b] [|z c]; cbn;
    try discriminate; try reflexivity.
  destruct (N.compare_spec (Py.code x) (Py.code y)) as [E1 | L1 | G1];
    try discriminate;
    destruct (N.compare_spec (Py.code y) (Py.code z)) as [E2 | L2 | G2];
    try discriminate; intros H1 H2.
  - rewrite E1, E2, N.compare_refl. exact (IH b c H1 H2).
  - rewrite E1. apply N.compare_lt_iff in L2. rewrite L2. reflexivity.
  - rewrite <- E2. apply N.compare_lt_iff in L1. rewrite L1. reflexivity.
  - assert (L : (Py.code x < Py.code z)%N) by lia.
    apply N.compare_lt_iff in L. rewrite L. reflexivity.
Qed.

(** [x <= m < item] gives [x <= item]. *)
Lemma compare_le_lt (x m item : str) :
  Py.compare x m <> Gt -> Py.compare item m = Gt -> Py.compare x item <> Gt.
Proof.
  intros H1 H2.
  assert (L : Py.compare m item = Lt).
  { rewrite compare_antisym, H2. reflexivity. }
  destruct (Py.compare x m) eqn:E; [| |contradiction].
  - apply compare_eq in E. subst x. rewrite L. discriminate.
  - rewrite (compare_lt_trans x m item E L). discriminate.
Qed.

(** ** The greatest scored candidate *)

Lemma tuple_gt_false (p q : Q * str) :
  Difflib.tuple_gt p q = false <->
  (fst p <= fst q)%Q
  /\ ((fst p == fst q)%Q -> Py.compare (snd p) (snd q) <> Gt).
Proof.
  unfold Difflib.tuple_gt.
  destruct (Qeq_bool (fst p) (fst q)) eqn:E.
  - apply Qeq_bool_iff in E. split.
    + intros H. split; [rewrite E; apply Qle_refl|].
      intros _. destruct (Py.compare (snd p) (snd q)); discriminate.
    + intros [_ H]. specialize (H E).
      destruct (Py.compare (snd p) (snd q)); try reflexivity. contradiction.
  - assert (N : ~ (fst p == fst q)%Q).
    { intros H. apply Qeq_bool_iff in H. congruence. }
    rewrite negb_false_iff, Qle_bool_iff. split.
    + intros H. split; [exact H | intros H'; contradiction].
    + intros [H _]. exact H.
Qed.

Lemma tuple_gt_true (p q : Q * str) :
  Difflib.tuple_gt p q = true ->
  (fst q <= fst p)%Q
  /\ ((fst p == fst q)%Q -> Py.compare (snd p) (snd q) = Gt).
Proof.
  unfold Difflib.tuple_gt.
  destruct (Qeq_bool (fst p) (fst q)) eqn:E.
  - apply Qeq_bool_iff in E. intros H. split.
    + rewrite E. apply Qle_refl.
    + intros _. destruct (Py.compare (snd p) (snd q)); try discriminate.
      reflexivity.
  - assert (N : ~ (fst p == fst q)%Q).
    { intros H. apply Qeq_bool_iff in H. congruence. }
    rewrite negb_true_iff. intros H. split; [|intros H'; contradiction].
    destruct (Qlt_le_dec (fst q) (fst p)) as [L | L].
    + apply Qlt_le_weak, L.
    + apply Qle_bool_iff in L. congruence.
Qed.

Lemma tuple_gt_irrefl (p : Q * str) : Difflib.tuple_gt p p = false.
Proof.
  apply tuple_gt_false. split; [apply Qle_refl|].
  intros _. rewrite compare_refl. discriminate.
Qed.

Lemma compare_le_trans (x y z : str) :
  Py.compare x y <> Gt -> Py.compare y z <> Gt -> Py.compare x z <> Gt.
Proof.
  intros H1 H2.
  destruct (Py.compare x y) eqn:E1; [| |contradiction].
  - apply compare_eq in E1. subst x. exact H2.
  - destruct (Py.compare y z) eqn:E2; [| |contradiction].
    + apply compare_eq in E2. subst z. rewrite E1. discriminate.
    + rewrite (compare_lt_trans x y z E1 E2). discriminate.
Qed.

Lemma tuple_le_trans (x y z : Q * str) :
  Difflib.tuple_gt x y = false ->
  Difflib.tuple_gt y z = false ->
  Difflib.tuple_gt x z = false.
Proof.
  intros H1 H2. apply tuple_gt_false in H1. apply tuple_gt_false in H2.
  destruct H1 as [L1 S1], H2 as [L2 S2].
  apply tuple_gt_false. split; [apply (Qle_trans _ _ _ L1 L2)|].
  intros E.
  assert (E1 : (fst x == fst y)%Q).
  { apply Qle_antisym; [exact L1|]. rewrite E. exact L2. }
  assert (E2 : (fst y == fst z)%Q).
  { rewrite <- E1. exact E. }
  exact (compare_le_trans _ _ _ (S1 E1) (S2 E2)).
Qed.

Lemma tuple_gt_asym (x y : Q * str) :
  Difflib.tuple_gt x y = true -> Difflib.tuple_gt y x = false.
Proof.
  intros H. apply tuple_gt_true in H. destruct H as [L S].
  apply tuple_gt_false. split; [exact L|].
  intros E. symmetry in E. specialize (S E).
  rewrite compare_antisym, S. discriminate.
Qed.

(** [max] returns an item of the list that no item exceeds. *)
Lemma py_max_fold (rest : list (Q * str)) (first : Q * str) :
  let m := fold_left (fun maxitem item =>
                        if Difflib.tuple_gt item maxitem
                        then item else maxitem) rest first in
  In m (first :: rest)
  /\ forall x, In x (first :: rest) -> Difflib.tuple_gt x m = false.
Proof.
  revert first. induction rest as [|item rest IH]; intros first; cbn [fold_left].
  - split; [left; reflexivity|].
    intros x [<- | []]. apply tuple_gt_irrefl.
  - destruct (Difflib.tuple_gt item first) eqn:G.
    + destruct (IH item) as [Hin Hmax].
      split; [right; exact Hin|].
      intros x [<- | Hx]; [|exact (Hmax x Hx)].
      apply (tuple_le_trans _ item); [apply tuple_gt_asym, G|].
      apply Hmax. left. reflexivity.
    + destruct (IH first) as [Hin Hmax].
      split.
      { destruct Hin as [<- | Hin]; [left; reflexivity|].
        right. right. exact Hin. }
      intros x [<- | [<- | Hx]].
      * apply Hmax. left. reflexivity.
      * apply (tuple_le_trans _ first); [exact G|].
        apply Hmax. left. reflexivity.
      * apply Hmax. right. exact Hx.
Qed.

Lemma py_max_spec (items : list (Q * str)) :
  match Difflib.py_max items with
  | None => items = []
  | Some m =>
      In m items /\ forall x, In x items -> Difflib.tuple_gt x m = false
  end.
Proof.
  destruct items as [|first rest]; [reflexivity|].
  exact (py_max_fold rest first).
Qed.

(** ** [get_close_matches] *)

(** No possibility passes the cutoff test exactly when the result is
    empty. *)
Lemma get_close_matches_nil (word : str) (ps : list str) (cutoff : Q) :
  Difflib.get_close_matches word ps cutoff = [] <->
  forall p, In p ps -> Difflib.close_enough cutoff word p = false.
Proof.
  unfold Difflib.get_close_matches, Difflib.nlargest1.
  pose proof (py_max_spec (Difflib.scored cutoff word ps)) as H.
  destruct (Difflib.py_max (Difflib.scored cutoff word ps)) as [m|].
  - split; [discriminate|]. intros Hall. exfalso.
    destruct H as [Hin _]. unfold Difflib.scored in Hin.
    apply in_map_iff in Hin. destruct Hin as [p [_ Hp]].
    apply filter_In in Hp. destruct Hp as [Hp Hc].
    rewrite (Hall p Hp) in Hc. discriminate.
  - split; [|reflexivity]. intros _ p Hp.
    destruct (Difflib.close_enough cutoff word p) eqn:Hc; [|reflexivity].
    exfalso. unfold Difflib.scored in H.
    assert (Hin : In p (filter (Difflib.close_enough cutoff word) ps)).
    { apply filter_In. split; assumption. }
    apply (in_map (fun x => (Difflib.ratio x word, x))) in Hin.
    rewrite H in Hin. destruct Hin.
Qed.

(** The one match returned passes the cutoff test, and no possibility
    that passes it has a greater score, or the same score and a greater
    title. *)
Lemma get_close_matches_best (word : str) (ps : list str) (cutoff : Q)
      (best : str) (others : list str) :
  Difflib.get_close_matches word ps cutoff = best :: others ->
  others = []
  /\ In best ps
  /\ Difflib.close_enough cutoff word best = true
  /\ forall p,
       In p ps ->
       Difflib.close_enough cutoff word p = true ->
       (Difflib.ratio p word <= Difflib.ratio best word)%Q
       /\ ((Difflib.ratio p word == Difflib.ratio best word)%Q ->
           Py.compare p best <> Gt).
Proof.
  unfold Difflib.get_close_matches, Difflib.nlargest1.
  pose proof (py_max_spec (Difflib.scored cutoff word ps)) as H.
  destruct (Difflib.py_max (Difflib.scored cutoff word ps)) as [m|];
    [|discriminate].
  cbn [map]. intros E. injection E as E1 E2.
  destruct H as [Hin Hmax]. unfold Difflib.scored in Hin.
  apply in_map_iff in Hin. destruct Hin as [t [Ht Hin]].
  apply filter_In in Hin. destruct Hin as [Hin Hc].
  subst m. cbn [snd] in E1. subst t.
  split; [symmetry; exact E2|]. split; [exact Hin|]. split; [exact Hc|].
  intros p Hp Hpc.
  assert (Hs : In (Difflib.ratio p word, p) (Difflib.scored cutoff word ps)).
  { unfold Difflib.scored.
    apply (in_map (fun x => (Difflib.ratio x word, x))).
    apply filter_In. split; assumption. }
  apply Hmax, tuple_gt_false in Hs. exact Hs.
Qed.

(** ** Matcher *)

Section MatcherFacts.

Context {V : Type}.

Implicit Types (f g : BuildRefText.field V)
         (fields : list (BuildRefText.field V)).

Lemma last_titled_some (k : str) fields f :
  Spec.last_titled k fields = Some f -> In f fields /\ Spec.norm_title f = k.
Proof.
  induction fields as [|f0 fields IH]; cbn [Spec.last_titled]; [discriminate|].
  destruct (Spec.last_titled k fields) as [g|].
  - intros E. injection E as <-. destruct (IH eq_refl) as [Hin Hk].
    split; [right; exact Hin | exact Hk].
  - destruct (Py.eqb (Spec.norm_title f0) k) eqn:E; [|discriminate].
    intros E'. injection E' as <-. apply py_eqb_eq in E.
    split; [left; reflexivity | exact E].
Qed.

Lemma last_titled_none (k : str) fields :
  Spec.last_titled k fields = None ->
  forall f, In f fields -> Spec.norm_title f <> k.
Proof.
  induction fields as [|f0 fields IH]; cbn [Spec.last_titled];
    [intros _ f []|].
  destruct (Spec.last_titled k fields) as [g|]; [discriminate|].
  destruct (Py.eqb (Spec.norm_title f0) k) eqn:E; [discriminate|].
  intros _ f [<- | Hin]; [|exact (IH eq_refl f Hin)].
  intros H. apply py_eqb_eq in H. congruence.
Qed.

Lemma last_titled_found fields f :
  In f fields ->
  exists g, Spec.last_titled (Spec.norm_title f) fields = Some g.
Proof.
  intros Hin.
  destruct (Spec.last_titled (Spec.norm_title f) fields) as [g|] eqn:E;
    [exists g; reflexivity|].
  exfalso. exact (last_titled_none _ _ E f Hin eq_refl).
Qed.

(** The last field with a given normalised title, by position. *)
Lemma last_titled_position (k : str) fields f :
  Spec.last_titled k fields = Some f ->
  exists i,
    nth_error fields i = Some f
    /\ forall j g, i < j -> nth_error fields j = Some g ->
                   Spec.norm_title g <> k.
Proof.
  induction fields as [|f0 fields IH]; cbn [Spec.last_titled]; [discriminate|].
  destruct (Spec.last_titled k fields) as [g0|] eqn:E.
  - intros E'. injection E' as <-. destruct (IH eq_refl) as [i [Hi Hlater]].
    exists (S i). split; [exact Hi|].
    intros [|j] g Hlt Hj; [lia|]. apply (Hlater j g); [lia | exact Hj].
  - destruct (Py.eqb (Spec.norm_title f0) k); [|discriminate].
    intros E'. injection E' as <-. exists 0. split; [reflexivity|].
    intros [|j] g Hlt Hj; [lia|]. cbn in Hj.
    apply (last_titled_none k fields E g). exact (nth_error_In _ _ Hj).
Qed.

(** The title lookup of the matcher keeps, for each normalised title,
    the last field that carries it. *)
Lemma schema_map_fold fields (acc : Dict.t (BuildRefText.field V)) (k : str) :
  Dict.get k
    (fold_left (fun m f =>
                  Dict.set (BuildRefText.normalize (BuildRefText.title f)) f m)
               fields acc)
  = match Spec.last_titled k fields with
    | Some g => Some g
    | None => Dict.get k acc
    end.
Proof.
  revert acc. induction fields as [|f fields IH]; intros acc;
    cbn [fold_left Spec.last_titled]; [reflexivity|].
  rewrite IH. destruct (Spec.last_titled k fields) as [g|]; [reflexivity|].
  unfold Spec.norm_title.
  destruct (Py.eqb (BuildRefText.normalize (BuildRefText.title f)) k) eqn:E.
  - apply py_eqb_eq in E. subst k. apply dict_get_set_same.
  - apply dict_get_set_other. intros ->. rewrite py_eqb_refl in E.
    discriminate.
Qed.

Lemma schema_map_get fields (k : str) :
  Dict.get k (BuildRefText.build_schema_map fields) = Spec.last_titled k fields.
Proof.
  unfold BuildRefText.build_schema_map. rewrite schema_map_fold.
  destruct (Spec.last_titled k fields); reflexivity.
Qed.

Lemma schema_map_keys fields f :
  In f fields ->
  In (Spec.norm_title f) (Dict.keys (BuildRefText.build_schema_map fields)).
Proof.
  intros Hin. apply dict_get_in_keys. rewrite schema_map_get.
  exact (last_titled_found fields f Hin).
Qed.

(** The matcher never raises, and its run over the blocks is the one
    [Spec.aligned] describes. *)
Lemma match_loop_aligned fields (qas : list BuildRefText.qa_pair) :
  forall (accm : list (BuildRefText.matched_entry V))
         (accu : list BuildRefText.qa_pair),
  exists calls m u,
    BuildRefText.match_loop
      (BuildRefText.build_schema_map fields)
      (Dict.keys (BuildRefText.build_schema_map fields)) qas (accm, accu)
    = (calls, ok (accm ++ m, accu ++ u))
    /\ Spec.aligned fields qas calls m u.
Proof.
  induction qas as [|[q a] qas IH]; intros accm accu.
  - exists [], [], []. rewrite !app_nil_r. split; [reflexivity | constructor].
  - cbn [BuildRefText.match_loop]. unfold BuildRefText.match_step.
    unfold Dict.mem, BuildRefText.item. rewrite schema_map_get.
    destruct (Spec.last_titled (BuildRefText.normalize q) fields)
      as [f|] eqn:Hq.
    + destruct (IH (accm ++ [BuildRefText.entry_of f a BuildRefText.EXACT])
                   accu) as [calls [m [u [Hrun Hal]]]].
      exists calls, (BuildRefText.entry_of f a BuildRefText.EXACT :: m), u.
      split; [|constructor; assumption].
      cbn [BuildRefText.tbind BuildRefText.tret ok app].
      rewrite Hrun, <- app_assoc. reflexivity.
    + unfold BuildRefText.close_matches.
      destruct (Difflib.get_close_matches (BuildRefText.normalize q)
                  (Dict.keys (BuildRefText.build_schema_map fields))
                  BuildRefText.cutoff) as [|best others] eqn:Hg.
      * destruct (IH accm (accu ++ [(q, a)])) as [calls [m [u [Hrun Hal]]]].
        exists (BuildRefText.normalize q :: calls), m, ((q, a) :: u).
        split.
        -- cbn [BuildRefText.tbind BuildRefText.tret ok app].
           rewrite Hrun, <- app_assoc. reflexivity.
        -- constructor; [exact Hq | | exact Hal].
           intros g Hin Hc. unfold Spec.candidate in Hc.
           rewrite (proj1 (get_close_matches_nil _ _ _) Hg _
                          (schema_map_keys fields g Hin)) in Hc.
           discriminate.
      * destruct (get_close_matches_best _ _ _ _ _ Hg)
          as [_ [Hin [Hc Hmax]]].
        apply dict_get_in_keys in Hin. destruct Hin as [f Hf].
        rewrite schema_map_get in Hf.
        destruct (last_titled_some _ _ _ Hf) as [Hfin Hft].
        destruct (IH (accm ++ [BuildRefText.entry_of f a BuildRefText.FUZZY])
                     accu) as [calls [m [u [Hrun Hal]]]].
        exists (BuildRefText.normalize q :: calls),
               (BuildRefText.entry_of f a BuildRefText.FUZZY :: m), u.
        split.
        -- cbn [BuildRefText.tbind BuildRefText.tret ok app].
           rewrite schema_map_get, Hf.
           cbn [BuildRefText.tbind BuildRefText.tret ok app].
           rewrite Hrun, <- app_assoc. reflexivity.
        -- constructor; [exact Hq | | rewrite Hft; exact Hf | exact Hal].
           split; [exact Hfin|]. split.
           ++ unfold Spec.candidate. rewrite Hft. exact Hc.
           ++ intros g Hgin Hgc. unfold Spec.score. rewrite Hft.
              exact (Hmax _ (schema_map_keys fields g Hgin) Hgc).
Qed.

Lemma match_questions_aligned fields (qas : list BuildRefText.qa_pair) :
  exists calls m u,
    BuildRefText.match_questions qas fields = (calls, ok (m, u))
    /\ Spec.aligned fields qas calls m u.
Proof.
  destruct (match_loop_aligned fields qas [] []) as [calls [m [u [H Hal]]]].
  exists calls, m, u. split; [exact H | exact Hal].
Qed.

End MatcherFacts.

Section MatcherClaims.

Context {V : Type}.

Implicit Types (f g : BuildRefText.field V)
         (fields : list (BuildRefText.field V))
         (qas : list BuildRefText.qa_pair).

Lemma last_titled_absent (k : str) fields :
  (forall f, In f fields -> Spec.norm_title f <> k) ->
  Spec.last_titled k fields = None.
Proof.
  intros H. destruct (Spec.last_titled k fields) as [g|] eqn:E;
    [|reflexivity].
  destruct (last_titled_some _ _ _ E) as [Hin Hk].
  exfalso. exact (H g Hin Hk).
Qed.


Lemma aligned_exact_block fields qas calls m u :
  Spec.aligned fields qas calls m u ->
  forall q a f,
    In (q, a) qas ->
    Spec.last_titled (BuildRefText.normalize q) fields = Some f ->
    In (BuildRefText.entry_of f a BuildRefText.EXACT) m.
Proof.
  induction 1 as [| q0 a0 f0 qas calls m u Hq _ IH
                  | q0 a0 f0 qas calls m u Hq _ _ _ IH
                  | q0 a0 qas calls m u Hq _ _ IH]; intros q a f Hin Hf.
  - destruct Hin.
  - destruct Hin as [E | Hin].
    + injection E as -> ->. rewrite Hq in Hf. injection Hf as ->.
      left. reflexivity.
    + right. exact (IH q a f Hin Hf).
  - destruct Hin as [E | Hin].
    + injection E as -> ->. congruence.
    + right. exact (IH q a f Hin Hf).
  - destruct Hin as [E | Hin].
    + injection E as -> ->. congruence.
    + exact (IH q a f Hin Hf).
Qed.

Lemma aligned_fuzzy_block fields qas calls m u :
  Spec.aligned fields qas calls m u ->
  forall q a,
    In (q, a) qas ->
    Spec.last_titled (BuildRefText.normalize q) fields = None ->
    ((forall g, In g fields -> ~ Spec.candidate (BuildRefText.normalize q) g)
     /\ In (q, a) u)
    \/ (exists f,
           Spec.best_candidate fields (BuildRefText.normalize q) f
           /\ Spec.last_titled (Spec.norm_title f) fields = Some f
           /\ In (BuildRefText.entry_of f a BuildRefText.FUZZY) m).
Proof.
  induction 1 as [| q0 a0 f0 qas calls m u Hq _ IH
                  | q0 a0 f0 qas calls m u Hq Hb Hl _ IH
                  | q0 a0 qas calls m u Hq Hn _ IH]; intros q a Hin Hnone.
  - destruct Hin.
  - destruct Hin as [E | Hin].
    + injection E as -> ->. congruence.
    + destruct (IH q a Hin Hnone) as [[H1 H2] | [f [H1 [H2 H3]]]].
      * left. split; assumption.
      * right. exists f. split; [exact H1|]. split; [exact H2|].
        right. exact H3.
  - destruct Hin as [E | Hin].
    + injection E as -> ->. right. exists f0.
      split; [exact Hb|]. split; [exact Hl|]. left. reflexivity.
    + destruct (IH q a Hin Hnone) as [[H1 H2] | [f [H1 [H2 H3]]]].
      * left. split; assumption.
      * right. exists f. split; [exact H1|]. split; [exact H2|].
        right. exact H3.
  - destruct Hin as [E | Hin].
    + injection E as -> ->. left. split; [exact Hn | left; reflexivity].
    + destruct (IH q a Hin Hnone) as [[H1 H2] | [f [H1 [H2 H3]]]].
      * left. split; [exact H1 | right; exact H2].
      * right. exists f. split; [exact H1|]. split; assumption.
Qed.

Lemma aligned_entries fields qas calls m u :
  Spec.aligned fields qas calls m u ->
  forall e,
    In e m ->
    exists f a kind,
      e = BuildRefText.entry_of f a kind
      /\ Spec.last_titled (Spec.norm_title f) fields = Some f.
Proof.
  induction 1 as [| q0 a0 f0 qas calls m u Hq _ IH
                  | q0 a0 f0 qas calls m u Hq Hb Hl _ IH
                  | q0 a0 qas calls m u Hq Hn _ IH]; intros e He.
  - destruct He.
  - destruct He as [<- | He]; [|exact (IH e He)].
    exists f0, a0, BuildRefText.EXACT. split; [reflexivity|].
    destruct (last_titled_some _ _ _ Hq) as [_ Hk]. rewrite Hk. exact Hq.
  - destruct He as [<- | He]; [|exact (IH e He)].
    exists f0, a0, BuildRefText.FUZZY. split; [reflexivity | exact Hl].
  - exact (IH e He).
Qed.


(** C10. Of the fields whose titles normalise to the same string the
    matcher keeps the one that comes last in the schema.  A block whose
    normalised question is that string yields an entry tagged [EXACT]
    with the title and the reference of that last field.  A block with no
    exact title for which some field passes the cutoff yields an entry
    tagged [FUZZY] for a best candidate that again is the last field with
    its normalised title.  And every matched entry carries the title and
    the reference of a field after which no field has the same normalised
    title: a field followed by one of the same normalised title is never
    the one matched. *)
Theorem match_questions_last_duplicate_wins fields qas :
  exists calls matched unmatched,
    BuildRefText.match_questions qas fields = (calls, ok (matched, unmatched))
    /\ (forall q a f0,
          In (q, a) qas ->
          In f0 fields ->
          Spec.norm_title f0 = BuildRefText.normalize q ->
          exists i f,
            nth_error fields i = Some f
            /\ Spec.norm_title f = BuildRefText.normalize q
            /\ (forall j g,
                  i < j -> nth_error fields j = Some g ->
                  Spec.norm_title g <> BuildRefText.normalize q)
            /\ In (BuildRefText.mkMatched (BuildRefText.title f)
                     (BuildRefText.ref f) a (BuildRefText.ref f)
                     BuildRefText.EXACT) matched)
    /\ (forall q a g0,
          In (q, a) qas ->
          (forall f, In f fields ->
                     Spec.norm_title f <> BuildRefText.normalize q) ->
          In g0 fields ->
          Spec.candidate (BuildRefText.normalize q) g0 ->
          exists i f,
            nth_error fields i = Some f
            /\ Spec.best_candidate fields (BuildRefText.normalize q) f
            /\ (forall j g,
                  i < j -> nth_error fields j = Some g ->
                  Spec.norm_title g <> Spec.norm_title f)
            /\ In (BuildRefText.mkMatched (BuildRefText.title f)
                     (BuildRefText.ref f) a (BuildRefText.ref f)
                     BuildRefText.FUZZY) matched)
    /\ (forall e,
          In e matched ->
          exists i f,
            nth_error fields i = Some f
            /\ BuildRefText.question e = BuildRefText.title f
            /\ BuildRefText.question_ref e = BuildRefText.ref f
            /\ BuildRefText.answer_ref e = BuildRefText.ref f
            /\ forall j g,
                 i < j -> nth_error fields j = Some g ->
                 Spec.norm_title g <> Spec.norm_title f).
Proof.
  destruct (match_questions_aligned fields qas) as [calls [m [u [H Hal]]]].
  exists calls, m, u. split; [exact H|]. split; [|split].
  - intros q a f0 Hin Hf0 Hk.
    destruct (last_titled_found fields f0 Hf0) as [f Hf]. rewrite Hk in Hf.
    destruct (last_titled_some _ _ _ Hf) as [_ Hfk].
    destruct (last_titled_position _ _ _ Hf) as [i [Hi Hlater]].
    exists i, f. split; [exact Hi|]. split; [exact Hfk|].
    split; [exact Hlater|].
    exact (aligned_exact_block _ _ _ _ _ Hal q a f Hin Hf).
  - intros q a g0 Hin Hno Hg0 Hc.
    destruct (aligned_fuzzy_block _ _ _ _ _ Hal q a Hin
                (last_titled_absent _ _ Hno))
      as [[Hmiss _] | [f [Hb [Hl He]]]].
    + exfalso. exact (Hmiss g0 Hg0 Hc).
    + destruct (last_titled_position _ _ _ Hl) as [i [Hi Hlater]].
      exists i, f. split; [exact Hi|]. split; [exact Hb|].
      split; [exact Hlater | exact He].
  - intros e He.
    destruct (aligned_entries _ _ _ _ _ Hal e He) as [f [a [kind [-> Hl]]]].
    destruct (last_titled_position _ _ _ Hl) as [i [Hi Hlater]].
    exists i, f. split; [exact Hi|]. split; [reflexivity|].
    split; [reflexivity|]. split; [reflexivity|]. exact Hlater.
Qed.


End MatcherClaims.


Lemma match_questions_last_duplicate_wins_witness :
  exists calls matched unmatched,
    BuildRefText.match_questions
      [(Py.lit "What is your age", Py.lit "29");
       (Py.lit "Whats ur age", Py.lit "30")]
      [BuildRefText.mkField (Py.lit "What is your age?") (Py.lit "r1")
                            (Py.lit "number");
       BuildRefText.mkField (Py.lit "what is your age") (Py.lit "r2")
                            (Py.lit "text")]
    = (calls, ok (matched, unmatched))
    /\ In (BuildRefText.mkMatched (Py.lit "what is your age") (Py.lit "r2")
             (Py.lit "29") (Py.lit "r2") BuildRefText.EXACT) matched
    /\ In (BuildRefText.mkMatched (Py.lit "what is your age") (Py.lit "r2")
             (Py.lit "30") (Py.lit "r2") BuildRefText.FUZZY) matched
    /\ forall e,
         In e matched ->
         exists i f,
           nth_error
             [BuildRefText.mkField (Py.lit "What is your age?") (Py.lit "r1")
                                   (Py.lit "number");
              BuildRefText.mkField (Py.lit "what is your age") (Py.lit "r2")
                                   (Py.lit "text")] i = Some f
           /\ BuildRefText.question_ref e = BuildRefText.ref f
           /\ forall j g,
                i < j ->
                nth_error
                  [BuildRefText.mkField (Py.lit "What is your age?")
                                        (Py.lit "r1") (Py.lit "number");
                   BuildRefText.mkField (Py.lit "what is your age")
                                        (Py.lit "r2") (Py.lit "text")] j
                = Some g ->
                Spec.norm_title g <> Spec.norm_title f.
Proof.
  destruct (match_questions_last_duplicate_wins
              [BuildRefText.mkField (Py.lit "What is your age?") (Py.lit "r1")
                                    (Py.lit "number");
               BuildRefText.mkField (Py.lit "what is your age") (Py.lit "r2")
                                    (Py.lit "text")]
              [(Py.lit "What is your age", Py.lit "29");
               (Py.lit "Whats ur age", Py.lit "30")])
    as [calls [m [u [H [Hexact [Hfuzzy Hall]]]]]].
  exists calls, m, u. split; [exact H|]. split; [|split].
  - destruct (Hexact (Py.lit "What is your age") (Py.lit "29")
                     (BuildRefText.mkField (Py.lit "What is your age?")
                                           (Py.lit "r1") (Py.lit "number"))
                     (or_introl eq_refl) (or_introl eq_refl) eq_refl)
      as [i [f [Hi [_ [Hlater He]]]]].
    destruct i as [|[|i]].
    + exfalso. exact (Hlater 1 _ (le_n 1) eq_refl eq_refl).
    + injection Hi as <-. exact He.
    + destruct i; discriminate Hi.
  - destruct (Hfuzzy (Py.lit "Whats ur age") (Py.lit "30")
                     (BuildRefText.mkField (Py.lit "What is your age?")
                                           (Py.lit "r1") (Py.lit "number"))
                     (or_intror (or_introl eq_refl)))
      as [i [f [Hi [_ [Hlater He]]]]].
    + intros f [<- | [<- | []]]; vm_compute; discriminate.
    + left. reflexivity.
    + vm_compute. reflexivity.
    + destruct i as [|[|i]].
      * injection Hi as <-.
        exfalso. exact (Hlater 1 _ (le_n 1) eq_refl eq_refl).
      * injection Hi as <-. exact He.
      * destruct i; discriminate Hi.
  - intros e He. destruct (Hall e He) as [i [f [Hi [_ [Hr [_ Hlater]]]]]].
    exists i, f. split; [exact Hi|]. split; [exact Hr | exact Hlater].
Defined.

(** Two fields whose titles normalise to the same string: the entry
    carries the reference of the second. *)
Example match_questions_duplicate_titles :
  BuildRefText.match_questions
    [(Py.lit "Age", Py.lit "29")]
    [BuildRefText.mkField (Py.lit "Age?") (Py.lit "r1") (Py.lit "number");
     BuildRefText.mkField (Py.lit "age") (Py.lit "r2") (Py.lit "text")]
  = ([],
     ok ([BuildRefText.mkMatched (Py.lit "age") (Py.lit "r2") (Py.lit "29")
                                 (Py.lit "r2") BuildRefText.EXACT],
         [])).
Proof. vm_compute. reflexivity. Qed.


(** The scenario of the specification: the misspelt question is matched
    to the age field by similarity. *)
Example match_questions_typo :
  BuildRefText.match_questions
    [(Py.lit "Whats ur age", Py.lit "29")]
    [BuildRefText.mkField (Py.lit "What is your age?") (Py.lit "r1")
                          (Py.lit "number")]
  = ([Py.lit "whats ur age"],
     ok ([BuildRefText.mkMatched (Py.lit "What is your age?") (Py.lit "r1")
                                 (Py.lit "29") (Py.lit "r1")
                                 BuildRefText.FUZZY],
         [])).
Proof. vm_compute. reflexivity. Qed.


(** ** Outcome of the matcher *)

Section MatcherOutcomeFacts.

Context {V : Type}.

Implicit Types (f g : BuildRefText.field V)
         (fields : list (BuildRefText.field V))
         (qas : list BuildRefText.qa_pair).

Lemma has_title_last_titled (q : str) fields :
  Spec.has_title fields q = true <->
  exists f, Spec.last_titled (BuildRefText.normalize q) fields = Some f.
Proof.
  unfold Spec.has_title. rewrite existsb_exists. split.
  - intros [f [Hin E]]. apply py_eqb_eq in E. rewrite <- E.
    exact (last_titled_found fields f Hin).
  - intros [f Hf]. destruct (last_titled_some _ fields f Hf) as [Hin E].
    exists f. split; [exact Hin | apply py_eqb_eq; exact E].
Qed.

Lemma has_title_false (q : str) fields :
  Spec.last_titled (BuildRefText.normalize q) fields = None ->
  Spec.has_title fields q = false.
Proof.
  intros H. destruct (Spec.has_title fields q) eqn:E; [|reflexivity].
  apply has_title_last_titled in E. destruct E as [f Hf]. congruence.
Qed.

Lemma finds_field_exact (q : str) fields f :
  Spec.last_titled (BuildRefText.normalize q) fields = Some f ->
  Spec.finds_field fields q = true.
Proof.
  intros Hf. destruct (last_titled_some _ fields f Hf) as [Hin E].
  unfold Spec.finds_field. apply existsb_exists. exists f.
  split; [exact Hin|]. apply orb_true_iff. left. apply py_eqb_eq. exact E.
Qed.

Lemma finds_field_candidate (q : str) fields f :
  In f fields -> Spec.candidate (BuildRefText.normalize q) f ->
  Spec.finds_field fields q = true.
Proof.
  intros Hin Hc. unfold Spec.finds_field. apply existsb_exists. exists f.
  split; [exact Hin|]. apply orb_true_iff. right. exact Hc.
Qed.

Lemma finds_field_none (q : str) fields :
  Spec.last_titled (BuildRefText.normalize q) fields = None ->
  (forall g, In g fields -> ~ Spec.candidate (BuildRefText.normalize q) g) ->
  Spec.finds_field fields q = false.
Proof.
  intros Hn Hc. destruct (Spec.finds_field fields q) eqn:E; [|reflexivity].
  unfold Spec.finds_field in E. apply existsb_exists in E.
  destruct E as [f [Hin E]]. apply orb_true_iff in E. destruct E as [E | E].
  - apply py_eqb_eq in E.
    exfalso. exact (last_titled_none _ fields Hn f Hin E).
  - exfalso. exact (Hc f Hin E).
Qed.

Lemma aligned_outcome fields qas calls m u :
  Spec.aligned fields qas calls m u ->
  calls = map (fun qa => BuildRefText.normalize (fst qa))
              (filter (fun qa => negb (Spec.has_title fields (fst qa))) qas)
  /\ map (@BuildRefText.answer V) m
     = map snd (filter (fun qa => Spec.finds_field fields (fst qa)) qas)
  /\ u = filter (fun qa => negb (Spec.finds_field fields (fst qa))) qas.
Proof.
  induction 1 as [|q a f qas calls m u Hf _ IH
                  |q a f qas calls m u Hn Hb Hf _ IH
                  |q a qas calls m u Hn Hc _ IH];
    [repeat split; reflexivity | | |];
    destruct IH as [IHc [IHm IHu]]; cbn [filter fst snd].
  - assert (Ht : Spec.has_title fields q = true)
      by (apply has_title_last_titled; exists f; exact Hf).
    rewrite Ht, (finds_field_exact q fields f Hf). cbn [negb map].
    repeat split; [exact IHc | | exact IHu].
    cbn [BuildRefText.entry_of BuildRefText.answer snd]. f_equal. exact IHm.
  - destruct Hb as [Hin [Hcand _]].
    rewrite (has_title_false q fields Hn),
            (finds_field_candidate q fields f Hin Hcand).
    cbn [negb map fst].
    repeat split; [f_equal; exact IHc | | exact IHu].
    cbn [BuildRefText.entry_of BuildRefText.answer snd]. f_equal. exact IHm.
  - rewrite (has_title_false q fields Hn), (finds_field_none q fields Hn Hc).
    cbn [negb map fst].
    repeat split; [f_equal; exact IHc | exact IHm | f_equal; exact IHu].
Qed.

(** X1.  The matcher never raises and puts every block in exactly one
    of its two lists, keeping the order of the blocks: the unmatched list
    is the blocks whose question finds no field (none with the same
    normalised title, none that passes the cutoff test), unchanged; the
    answers of the matched list are the answers of the other blocks,
    unchanged; and the similarity search is called once for each block
    whose normalised question is not a normalised title. *)
Theorem match_questions_splits_blocks fields qas :
  exists matched,
    BuildRefText.match_questions qas fields
    = (map (fun qa => BuildRefText.normalize (fst qa))
           (filter (fun qa => negb (Spec.has_title fields (fst qa))) qas),
       ok (matched,
           filter (fun qa => negb (Spec.finds_field fields (fst qa))) qas))
    /\ map (@BuildRefText.answer V) matched
       = map snd (filter (fun qa => Spec.finds_field fields (fst qa)) qas)
    /\ length matched
       + length (filter (fun qa => negb (Spec.finds_field fields (fst qa))) qas)
       = length qas.
Proof.
  destruct (match_questions_aligned fields qas) as [calls [m [u [E A]]]].
  destruct (aligned_outcome fields qas calls m u A) as [Hc [Hm Hu]].
  exists m. rewrite E, <- Hc, <- Hu. repeat split; [exact Hm|].
  rewrite <- (length_map (@BuildRefText.answer V) m), Hm, length_map, Hu.
  clear. induction qas as [|qa qas IH]; [reflexivity|].
  cbn [filter]. destruct (Spec.finds_field fields (fst qa));
    cbn [negb length]; lia.
Qed.

Lemma match_loop_empty_schema qas :
  forall (accm : list (BuildRefText.matched_entry V))
         (accu : list BuildRefText.qa_pair),
    BuildRefText.match_loop [] [] qas (accm, accu)
    = (map (fun qa => BuildRefText.normalize (fst qa)) qas,
       ok (accm, accu ++ qas)).
Proof.
  induction qas as [|[q a] qas IH]; intros accm accu.
  - cbn [BuildRefText.match_loop map]. rewrite app_nil_r. reflexivity.
  - cbn [BuildRefText.match_loop BuildRefText.match_step Dict.mem Dict.get
         map fst].
    cbn [BuildRefText.close_matches BuildRefText.tbind].
    change (Difflib.get_close_matches (BuildRefText.normalize q) []
                                      BuildRefText.cutoff) with (@nil str).
    cbv beta iota delta [ok BuildRefText.tret BuildRefText.tbind].
    rewrite IH. cbn [app]. rewrite <- app_assoc. reflexivity.
Qed.

(** X2.  With a schema without fields every block is unmatched: the
    matcher returns no entry and the blocks as they are, after one
    similarity search for each of them. *)
Theorem match_questions_empty_schema qas :
  BuildRefText.match_questions qas (@nil (BuildRefText.field V))
  = (map (fun qa => BuildRefText.normalize (fst qa)) qas, ok ([], qas)).
Proof.
  unfold BuildRefText.match_questions.
  change (BuildRefText.build_schema_map (@nil (BuildRefText.field V)))
    with (@nil (str * BuildRefText.field V)).
  change (Dict.keys (@nil (str * BuildRefText.field V))) with (@nil str).
  rewrite match_loop_empty_schema. reflexivity.
Qed.

End MatcherOutcomeFacts.

(** ** Normalisation of titles and questions, continued *)

Lemma lower_char_idem (c : ascii) :
  Py.lower_char (Py.lower_char c) = Py.lower_char c.
Proof. each_char c. Qed.

Lemma isspace_lower_char (c : ascii) :
  Py.isspace (Py.lower_char c) = Py.isspace c.
Proof. each_char c. Qed.

Lemma lower_idem (s : str) : Py.lower (Py.lower s) = Py.lower s.
Proof.
  unfold Py.lower. rewrite map_map. apply map_ext. exact lower_char_idem.
Qed.

Lemma lower_lstrip (s : str) : Py.lower (Py.lstrip s) = Py.lstrip (Py.lower s).
Proof.
  induction s as [|c s IH]; [reflexivity|].
  cbn [Py.lstrip Py.lower map]. rewrite isspace_lower_char.
  destruct (Py.isspace c); [exact IH | reflexivity].
Qed.

Lemma lower_rev (s : str) : Py.lower (rev s) = rev (Py.lower s).
Proof. unfold Py.lower. apply map_rev. Qed.

Lemma lower_rstrip (s : str) : Py.lower (Py.rstrip s) = Py.rstrip (Py.lower s).
Proof.
  unfold Py.rstrip. rewrite lower_rev, lower_lstrip, lower_rev. reflexivity.
Qed.

Lemma lower_strip (s : str) : Py.lower (Py.strip s) = Py.strip (Py.lower s).
Proof.
  unfold Py.strip. rewrite lower_rstrip, lower_lstrip. reflexivity.
Qed.

(** X3.  [normalize] yields only the letters a-z, digits and spaces, and
    it does not see letter case or the white space around the text: the
    lower-cased text and the stripped text normalise as the text does. *)
Theorem normalize_alphabet_case_margin (s : str) :
  Forall (fun c => Py.islower_ascii c = true \/ Py.isdigit c = true
                   \/ c = BuildRefText.SPACE)
         (BuildRefText.normalize s)
  /\ BuildRefText.normalize (Py.lower s) = BuildRefText.normalize s
  /\ BuildRefText.normalize (Py.strip s) = BuildRefText.normalize s.
Proof.
  split; [|split].
  - eapply Forall_impl; [|exact (normalize_kept s)].
    intros c Hc. unfold BuildRefText.kept in Hc.
    apply orb_true_iff in Hc. destruct Hc as [Hc | Hc].
    + apply orb_true_iff in Hc. destruct Hc as [Hc | Hc]; auto.
    + right. right. apply eqb_char_eq in Hc. exact Hc.
  - unfold BuildRefText.normalize. rewrite lower_idem. reflexivity.
  - unfold BuildRefText.normalize. rewrite lower_strip, strip_idem.
    reflexivity.
Qed.

(** ** Answer-type inference, continued *)

Lemma drop_non_digits (pre : str) (d : ascii) (rest : str) :
  Spec.no_digit pre -> Py.isdigit d = true ->
  Py.drop_while (fun c => negb (Py.isdigit c)) (pre ++ d :: rest) = d :: rest.
Proof.
  intros Hpre Hd. induction Hpre as [|c pre Hc _ IH]; cbn [app Py.drop_while].
  - rewrite Hd. reflexivity.
  - rewrite Hc. cbn [negb]. exact IH.
Qed.

Lemma first_digit_run_after (pre : str) (d : ascii) (rest : str) :
  Spec.no_digit pre -> Py.isdigit d = true ->
  BuildUserJson.first_digit_run (pre ++ d :: rest)
  = Some (d :: Py.take_while Py.isdigit rest).
Proof.
  intros Hpre Hd. unfold BuildUserJson.first_digit_run.
  rewrite (drop_non_digits pre d rest Hpre Hd).
  cbn [Py.take_while]. rewrite Hd. reflexivity.
Qed.

Lemma first_digit_run_none (s : str) :
  Spec.no_digit s -> BuildUserJson.first_digit_run s = None.
Proof.
  intros Hs. unfold BuildUserJson.first_digit_run.
  assert (E : Py.drop_while (fun c => negb (Py.isdigit c)) s = []).
  { induction Hs as [|c t Hc _ IH]; [reflexivity|].
    cbn [Py.drop_while]. rewrite Hc. exact IH. }
  rewrite E. reflexivity.
Qed.

Lemma starts_with_digit_none (s : str) :
  Spec.no_digit s -> BuildUserJson.starts_with_digit s = false.
Proof. intros [|c t Hc _]; [reflexivity | exact Hc]. Qed.

(** X4.  Under a type hint that names a number or a scale, an answer
    with a digit anywhere is typed [number], and its payload is the first
    run of digits of the trimmed answer converted by [float], the double
    nearest to its value: what precedes the run and what follows it is
    dropped. *)
Theorem detect_answer_type_first_digit_run
        (hint answer pre : str) (d : ascii) (rest : str) :
  Spec.numeric_hint hint = true ->
  Py.strip answer = pre ++ d :: rest ->
  Spec.no_digit pre ->
  Py.isdigit d = true ->
  BuildUserJson.detect_answer_type (JStr hint) answer
  = ok (Py.lit "number",
        [(Py.lit "number",
          BuildUserJson.float_of_digits
            (d :: Py.take_while Py.isdigit rest))]).
Proof.
  intros Hh Hs Hpre Hd. unfold BuildUserJson.detect_answer_type.
  unfold Spec.numeric_hint in Hh. rewrite Hh. cbn [orb].
  rewrite Hs, (first_digit_run_after pre d rest Hpre Hd). reflexivity.
Qed.

Lemma detect_answer_type_first_digit_run_witness :
  BuildUserJson.detect_answer_type
    (JStr (Py.lit "opinion_scale")) (Py.lit " between 7 and 10 ")
  = ok (Py.lit "number", [(Py.lit "number", JNum (inject_Z 7))]).
Proof.
  exact (detect_answer_type_first_digit_run
           (Py.lit "opinion_scale") (Py.lit " between 7 and 10 ")
           (Py.lit "between ") (ascii_of_nat 55) (Py.lit " and 10")
           eq_refl eq_refl
           ltac:(repeat constructor) eq_refl).
Defined.

(** X5.  An answer without any digit is never typed [number]: it is a
    [choice] labelled with the trimmed answer when the hint names a
    choice and names neither a number nor a scale, and it is the trimmed
    answer as [text] otherwise, a number or scale hint included. *)
Theorem detect_answer_type_without_digits (hint answer : str) :
  Spec.no_digit answer ->
  BuildUserJson.detect_answer_type (JStr hint) answer
  = ok (if negb (Spec.numeric_hint hint) && Spec.choice_hint hint
        then (Py.lit "choice",
              [(Py.lit "choice",
                JObj [(Py.lit "label", JStr (Py.strip answer))])])
        else (Py.lit "text", [(Py.lit "text", JStr (Py.strip answer))])).
Proof.
  intros Ha.
  assert (Hs : Spec.no_digit (Py.strip answer))
    by exact (strip_Forall _ answer Ha).
  unfold BuildUserJson.detect_answer_type.
  rewrite (starts_with_digit_none (Py.strip answer) Hs),
          (first_digit_run_none (Py.strip answer) Hs).
  rewrite orb_false_r.
  fold (Spec.numeric_hint hint). fold (Spec.choice_hint hint).
  destruct (Spec.numeric_hint hint), (Spec.choice_hint hint); reflexivity.
Qed.

Lemma detect_answer_type_without_digits_witness :
  BuildUserJson.detect_answer_type
    (JStr (Py.lit "number")) (Py.lit " twenty ")
  = ok (Py.lit "text", [(Py.lit "text", JStr (Py.lit "twenty"))]).
Proof.
  exact (detect_answer_type_without_digits
           (Py.lit "number") (Py.lit " twenty ")
           ltac:(repeat constructor)).
Defined.

(** ** Trimmed texts *)

Lemma lstrip_blank (s : str) : Spec.blank s -> Py.lstrip s = [].
Proof.
  induction 1 as [|c s Hc _ IH]; [reflexivity|].
  cbn [Py.lstrip]. rewrite Hc. exact IH.
Qed.

Lemma strip_blank (s : str) : Spec.blank s -> Py.strip s = [].
Proof.
  intros H. unfold Py.strip. rewrite (lstrip_blank s H). reflexivity.
Qed.

Lemma lstrip_head (c : ascii) (t : str) :
  Py.isspace c = false -> Py.lstrip (c :: t) = c :: t.
Proof. intros H. cbn [Py.lstrip]. rewrite H. reflexivity. Qed.

Lemma lstrip_same_length (s : str) :
  length (Py.lstrip s) = length s -> Py.lstrip s = s.
Proof.
  destruct s as [|c t]; [reflexivity|]. cbn [Py.lstrip].
  destruct (Py.isspace c); [|reflexivity].
  intros H. pose proof (lstrip_length t) as L. cbn [length] in H. lia.
Qed.

Lemma rstrip_length (s : str) : length (Py.rstrip s) <= length s.
Proof.
  unfold Py.rstrip. rewrite length_rev.
  pose proof (lstrip_length (rev s)) as L. rewrite length_rev in L. exact L.
Qed.

Lemma rstrip_fixed_rev (s : str) :
  Py.rstrip s = s <-> Py.lstrip (rev s) = rev s.
Proof.
  unfold Py.rstrip. split; intros H.
  - rewrite <- H at 2. rewrite rev_involutive. reflexivity.
  - rewrite H. apply rev_involutive.
Qed.

Lemma trimmed_edges (s : str) :
  Spec.trimmed s <-> Py.lstrip s = s /\ Py.rstrip s = s.
Proof.
  unfold Spec.trimmed, Py.strip. split.
  - intros H.
    assert (L : Py.lstrip s = s).
    { apply lstrip_same_length.
      pose proof (lstrip_length s) as L1.
      pose proof (rstrip_length (Py.lstrip s)) as L2.
      rewrite H in L2. lia. }
    split; [exact L|]. rewrite L in H. exact H.
  - intros [L R]. rewrite L. exact R.
Qed.

Lemma trimmed_head (c : ascii) (t : str) :
  Spec.trimmed (c :: t) -> Py.isspace c = false.
Proof.
  intros H. apply trimmed_edges in H. destruct H as [L _].
  exact (lstrip_fixed_head c t L).
Qed.

Lemma lstrip_app_fixed (a b : str) :
  a <> [] -> Py.lstrip a = a -> Py.lstrip (a ++ b) = a ++ b.
Proof.
  destruct a as [|c a]; [congruence|]. intros _ H.
  apply lstrip_fixed_head in H. cbn [app]. exact (lstrip_head c (a ++ b) H).
Qed.

Lemma rstrip_app_fixed (a b : str) :
  b <> [] -> Py.rstrip b = b -> Py.rstrip (a ++ b) = a ++ b.
Proof.
  intros Hb H. apply rstrip_fixed_rev. apply rstrip_fixed_rev in H.
  rewrite rev_app_distr. apply lstrip_app_fixed; [|exact H].
  intros E. apply Hb. rewrite <- (rev_involutive b), E. reflexivity.
Qed.

Lemma trimmed_app (a m b : str) :
  a <> [] -> b <> [] -> Spec.trimmed a -> Spec.trimmed b ->
  Spec.trimmed (a ++ m ++ b).
Proof.
  intros Ha Hb Ta Tb. apply trimmed_edges in Ta, Tb.
  destruct Ta as [La _], Tb as [_ Rb]. apply trimmed_edges. split.
  - exact (lstrip_app_fixed a (m ++ b) Ha La).
  - rewrite app_assoc. exact (rstrip_app_fixed (a ++ m) b Hb Rb).
Qed.

Lemma trimmed_strip (s : str) : Spec.trimmed (Py.strip s).
Proof. exact (strip_idem s). Qed.

(** ** Splitting on a character *)

Lemma split_on_nonempty (sep : ascii) (s : str) : Py.split_on sep s <> [].
Proof.
  destruct s as [|c t]; cbn [Py.split_on]; [discriminate|].
  destruct (Py.eqb_char c sep); [discriminate|].
  destruct (Py.split_on sep t); discriminate.
Qed.

Lemma split_on_pieces (sep : ascii) (s : str) :
  Forall (Forall (fun c => c <> sep)) (Py.split_on sep s).
Proof.
  induction s as [|c t IH]; cbn [Py.split_on].
  - constructor; constructor.
  - destruct (Py.eqb_char c sep) eqn:E.
    + constructor; [constructor | exact IH].
    + assert (Hc : c <> sep).
      { intros ->. unfold Py.eqb_char in E. rewrite Ascii.eqb_refl in E.
        discriminate. }
      destruct (Py.split_on sep t) as [|p ps].
      * constructor; [|constructor]. constructor; [exact Hc | constructor].
      * inversion IH as [|? ? Hp Hps]; subst.
        constructor; [|exact Hps]. constructor; [exact Hc | exact Hp].
Qed.

Lemma split_on_length (sep : ascii) (s : str) :
  length (Py.split_on sep s)
  = S (length (filter (fun c => Py.eqb_char c sep) s)).
Proof.
  induction s as [|c t IH]; [reflexivity|]. cbn [Py.split_on filter].
  destruct (Py.eqb_char c sep).
  - cbn [length]. rewrite IH. reflexivity.
  - destruct (Py.split_on sep t) as [|p ps]; cbn [length] in *; lia.
Qed.

Lemma split_on_free (sep : ascii) (s : str) :
  Forall (fun c => c <> sep) s -> Py.split_on sep s = [s].
Proof.
  induction 1 as [|c t Hc _ IH]; [reflexivity|]. cbn [Py.split_on].
  destruct (Py.eqb_char c sep) eqn:E.
  - apply eqb_char_eq in E. contradiction.
  - rewrite IH. reflexivity.
Qed.

Lemma split_on_app (sep : ascii) (a b : str) :
  Forall (fun c => c <> sep) a ->
  Py.split_on sep (a ++ sep :: b) = a :: Py.split_on sep b.
Proof.
  induction 1 as [|c t Hc _ IH]; cbn [app Py.split_on].
  - unfold Py.eqb_char. rewrite Ascii.eqb_refl. reflexivity.
  - destruct (Py.eqb_char c sep) eqn:E.
    + apply eqb_char_eq in E. contradiction.
    + rewrite IH. reflexivity.
Qed.

(** ** The reader of the responses *)

Lemma isLF_true (c : ascii) : Py.isLF c = true -> c = Spec.LF.
Proof. each_char c. Qed.

Lemma isLF_false (c : ascii) : c <> Spec.LF -> Py.isLF c = false.
Proof.
  intros H. destruct (Py.isLF c) eqn:E; [|reflexivity].
  apply isLF_true in E. contradiction.
Qed.

Lemma plain_strip (l : str) :
  Spec.one_line l -> Py.truthy (Py.strip l) = true -> Spec.plain (Py.strip l).
Proof.
  intros Hl Ht. split; [|split].
  - intros E. rewrite E in Ht. discriminate.
  - exact (trimmed_strip l).
  - exact (strip_Forall _ l Hl).
Qed.

Lemma block_lines_plain (block : str) :
  Forall Spec.plain (BuildRefTextInput.block_lines block).
Proof.
  unfold BuildRefTextInput.block_lines.
  pose proof (split_on_pieces BuildRefTextInput.LF block) as H.
  induction H as [|l ls Hl _ IH]; [constructor|]. cbn [filter].
  destruct (Py.truthy (Py.strip l)) eqn:Ht; [|exact IH].
  cbn [map]. constructor; [exact (plain_strip l Hl Ht) | exact IH].
Qed.

Lemma join_plain (lines : list str) :
  lines <> [] -> Forall Spec.plain lines ->
  Spec.plain (Py.join [BuildRefTextInput.SPACE] lines).
Proof.
  intros Hne H. induction H as [|p rest Hp Hrest IH]; [congruence|].
  destruct rest as [|q rest]; [exact Hp|].
  assert (Hj : Spec.plain (Py.join [BuildRefTextInput.SPACE] (q :: rest)))
    by (apply IH; discriminate).
  change (Py.join [BuildRefTextInput.SPACE] (p :: q :: rest))
    with (p ++ [BuildRefTextInput.SPACE]
            ++ Py.join [BuildRefTextInput.SPACE] (q :: rest)).
  destruct Hp as [Hp0 [Hp1 Hp2]], Hj as [Hj0 [Hj1 Hj2]].
  split; [|split].
  - destruct p; [congruence | discriminate].
  - exact (trimmed_app p _ _ Hp0 Hj0 Hp1 Hj1).
  - apply Forall_app. split; [exact Hp2|].
    constructor; [discriminate | exact Hj2].
Qed.

Lemma parse_block_plain (acc : list BuildRefText.qa_pair) (block : str) :
  Forall (fun qa => Spec.plain (fst qa) /\ Spec.plain (snd qa)) acc ->
  Forall (fun qa => Spec.plain (fst qa) /\ Spec.plain (snd qa))
         (BuildRefTextInput.parse_block acc block).
Proof.
  intros Hacc. unfold BuildRefTextInput.parse_block.
  pose proof (block_lines_plain block) as H.
  destruct (BuildRefTextInput.block_lines block) as [|q [|a rest]];
    cbn [length Nat.leb]; try exact Hacc.
  apply Forall_app. split; [exact Hacc|]. constructor; [|constructor].
  inversion H as [|? ? Hq Hrest]; subst. cbn [fst snd].
  split; [exact Hq|]. apply join_plain; [discriminate | exact Hrest].
Qed.

Lemma parse_blocks_plain (blocks : list str) :
  forall acc,
    Forall (fun qa => Spec.plain (fst qa) /\ Spec.plain (snd qa)) acc ->
    Forall (fun qa => Spec.plain (fst qa) /\ Spec.plain (snd qa))
           (fold_left BuildRefTextInput.parse_block blocks acc).
Proof.
  induction blocks as [|b blocks IH]; intros acc Hacc; [exact Hacc|].
  cbn [fold_left]. apply IH. exact (parse_block_plain acc b Hacc).
Qed.

(** X6.  Every pair that [parse_text_responses] returns holds a
    question and an answer that are non-empty, without white space at
    either end and without line feed, whatever the file holds. *)
Theorem parse_text_responses_pairs_plain (content : str) :
  Forall (fun qa => Spec.plain (fst qa) /\ Spec.plain (snd qa))
         (BuildRefTextInput.parse_text_responses content).
Proof.
  unfold BuildRefTextInput.parse_text_responses.
  apply parse_blocks_plain. constructor.
Qed.

(** X7.  A responses file of white space only, the empty file included,
    gives no pair. *)
Theorem parse_text_responses_blank (content : str) :
  Spec.blank content ->
  BuildRefTextInput.parse_text_responses content = [].
Proof.
  intros H. unfold BuildRefTextInput.parse_text_responses.
  rewrite (strip_blank content H). reflexivity.
Qed.

Lemma parse_text_responses_blank_witness :
  BuildRefTextInput.parse_text_responses
    [ascii_of_nat 32; ascii_of_nat 10; ascii_of_nat 9; ascii_of_nat 10] = [].
Proof.
  exact (parse_text_responses_blank
           [ascii_of_nat 32; ascii_of_nat 10; ascii_of_nat 9; ascii_of_nat 10]
           ltac:(repeat constructor)).
Defined.

(** *** Reading a file of two-line blocks *)

Lemma split_blank_line (x : str) :
  Spec.one_line x ->
  forall cur rest,
    BuildRefTextInput.split_blank_from cur 0 (x ++ rest)
    = BuildRefTextInput.split_blank_from (rev x ++ cur) 0 rest.
Proof.
  induction 1 as [|c x Hc _ IH]; intros cur rest; [reflexivity|].
  cbn [app BuildRefTextInput.split_blank_from BuildUserJson.sep_blank].
  rewrite (isLF_false c Hc), IH. cbn [rev]. rewrite <- app_assoc.
  reflexivity.
Qed.

Lemma split_blank_single (cur : str) (c : ascii) (rest : str) :
  Py.isspace c = false ->
  BuildRefTextInput.split_blank_from cur 0 (Spec.LF :: c :: rest)
  = BuildRefTextInput.split_blank_from (Spec.LF :: cur) 0 (c :: rest).
Proof.
  intros Hc.
  cbn [BuildRefTextInput.split_blank_from BuildUserJson.sep_blank].
  change (Py.isLF Spec.LF) with true. cbn iota.
  cbn [Py.take_while]. rewrite Hc. cbn [BuildUserJson.through_last_lf].
  reflexivity.
Qed.

Lemma split_blank_double (cur : str) (c : ascii) (rest : str) :
  Py.isspace c = false ->
  BuildRefTextInput.split_blank_from cur 0 (Spec.LF :: Spec.LF :: c :: rest)
  = rev cur :: BuildRefTextInput.split_blank_from [] 0 (c :: rest).
Proof.
  intros Hc.
  cbn [BuildRefTextInput.split_blank_from BuildUserJson.sep_blank].
  change (Py.isLF Spec.LF) with true. cbn iota.
  cbn [Py.take_while]. change (Py.isspace Spec.LF) with true. cbn iota.
  rewrite Hc. cbn [BuildUserJson.through_last_lf].
  change (Py.isLF Spec.LF) with true. cbn iota. cbn [Nat.add].
  reflexivity.
Qed.

Lemma plain_head (s : str) :
  Spec.plain s -> exists c t, s = c :: t /\ Py.isspace c = false.
Proof.
  intros [H0 [H1 _]]. destruct s as [|c t]; [congruence|].
  exists c, t. split; [reflexivity | exact (trimmed_head c t H1)].
Qed.

Lemma responses_text_cons (qa qa' : BuildRefText.qa_pair)
      (rest : list BuildRefText.qa_pair) :
  Spec.responses_text (qa :: qa' :: rest)
  = fst qa ++ Spec.LF :: snd qa
    ++ Spec.LF :: Spec.LF :: Spec.responses_text (qa' :: rest).
Proof.
  unfold Spec.responses_text. cbn [map Py.join]. unfold Spec.response_block.
  cbn [app]. rewrite <- !app_assoc. reflexivity.
Qed.

Lemma responses_text_head (qa : BuildRefText.qa_pair)
      (rest : list BuildRefText.qa_pair) :
  Spec.plain (fst qa) ->
  exists c t,
    Spec.responses_text (qa :: rest) = c :: t /\ Py.isspace c = false.
Proof.
  intros Hq. destruct (plain_head (fst qa) Hq) as [c [t [E Hc]]].
  destruct rest as [|qa' rest].
  - exists c, (t ++ Spec.LF :: snd qa). split; [|exact Hc].
    unfold Spec.responses_text, Spec.response_block. cbn [map Py.join].
    rewrite E. reflexivity.
  - exists c, (t ++ Spec.LF :: snd qa
               ++ Spec.LF :: Spec.LF :: Spec.responses_text (qa' :: rest)).
    split; [|exact Hc]. rewrite responses_text_cons, E. reflexivity.
Qed.

Lemma split_blank_responses (qa_pairs : list BuildRefText.qa_pair) :
  qa_pairs <> [] ->
  Forall (fun qa => Spec.plain (fst qa) /\ Spec.plain (snd qa)) qa_pairs ->
  BuildRefTextInput.split_blank (Spec.responses_text qa_pairs)
  = map Spec.response_block qa_pairs.
Proof.
  intros Hne H. unfold BuildRefTextInput.split_blank. revert Hne.
  induction H as [|qa rest [Hq Ha] Hrest IH]; intros Hne;
    [exfalso; apply Hne; reflexivity|].
  destruct (plain_head (snd qa) Ha) as [c [t [Ea Hc]]].
  assert (Hblock : forall tail,
             BuildRefTextInput.split_blank_from
               [] 0 (fst qa ++ Spec.LF :: snd qa ++ tail)
             = BuildRefTextInput.split_blank_from
                 (rev (snd qa) ++ Spec.LF :: rev (fst qa)) 0 tail).
  { intros tail.
    rewrite (split_blank_line (fst qa) (proj2 (proj2 Hq))).
    rewrite app_nil_r, Ea. cbn [app].
    rewrite (split_blank_single _ c (t ++ tail) Hc).
    change (c :: t ++ tail) with ((c :: t) ++ tail).
    rewrite <- Ea.
    rewrite (split_blank_line (snd qa) (proj2 (proj2 Ha))). reflexivity. }
  assert (Hrev : rev (rev (snd qa) ++ Spec.LF :: rev (fst qa))
                 = Spec.response_block qa).
  { rewrite rev_app_distr. cbn [rev]. rewrite !rev_involutive.
    unfold Spec.response_block. rewrite <- app_assoc. reflexivity. }
  destruct rest as [|qa' rest].
  - unfold Spec.responses_text. cbn [map Py.join].
    unfold Spec.response_block at 1. cbn [app].
    rewrite <- (app_nil_r (snd qa)) at 1. rewrite Hblock.
    cbn [BuildRefTextInput.split_blank_from]. rewrite Hrev. reflexivity.
  - rewrite responses_text_cons, Hblock.
    inversion Hrest as [|? ? [Hq' _] _]; subst.
    destruct (responses_text_head qa' rest Hq') as [d [u [E Hd]]].
    rewrite E, (split_blank_double _ d u Hd), <- E, Hrev.
    cbn [map]. f_equal. apply IH. discriminate.
Qed.

Lemma block_lines_response (qa : BuildRefText.qa_pair) :
  Spec.plain (fst qa) -> Spec.plain (snd qa) ->
  BuildRefTextInput.block_lines (Spec.response_block qa) = [fst qa; snd qa].
Proof.
  intros [Hq0 [Hq1 Hq2]] [Ha0 [Ha1 Ha2]].
  unfold BuildRefTextInput.block_lines, Spec.response_block. cbn [app].
  change BuildRefTextInput.LF with Spec.LF.
  rewrite (split_on_app Spec.LF (fst qa) (snd qa) Hq2),
          (split_on_free Spec.LF (snd qa) Ha2).
  cbn [filter]. unfold Spec.trimmed in Hq1, Ha1. rewrite Hq1, Ha1.
  destruct (fst qa) as [|c q]; [congruence|].
  destruct (snd qa) as [|d a]; [congruence|].
  cbn [Py.truthy map]. rewrite Hq1, Ha1. reflexivity.
Qed.

Lemma parse_response_blocks (qa_pairs : list BuildRefText.qa_pair) :
  Forall (fun qa => Spec.plain (fst qa) /\ Spec.plain (snd qa)) qa_pairs ->
  forall acc,
    fold_left BuildRefTextInput.parse_block
              (map Spec.response_block qa_pairs) acc
    = acc ++ qa_pairs.
Proof.
  induction 1 as [|qa rest [Hq Ha] _ IH]; intros acc; cbn [map fold_left].
  - rewrite app_nil_r. reflexivity.
  - rewrite IH. unfold BuildRefTextInput.parse_block.
    rewrite (block_lines_response qa Hq Ha). cbn [length Nat.leb Py.join].
    rewrite <- app_assoc. destruct qa as [q a]. reflexivity.
Qed.

Lemma responses_text_trimmed (qa_pairs : list BuildRefText.qa_pair) :
  Forall (fun qa => Spec.plain (fst qa) /\ Spec.plain (snd qa)) qa_pairs ->
  Spec.trimmed (Spec.responses_text qa_pairs)
  /\ (qa_pairs <> [] -> Spec.responses_text qa_pairs <> []).
Proof.
  induction 1 as [|qa rest [Hq Ha] _ [IH1 IH2]].
  - split; [reflexivity | intros Hne; exfalso; apply Hne; reflexivity].
  - assert (Hb : Spec.trimmed (Spec.response_block qa)
                 /\ Spec.response_block qa <> []).
    { destruct Hq as [Hq0 [Hq1 _]], Ha as [Ha0 [Ha1 _]]. split.
      - exact (trimmed_app (fst qa) [Spec.LF] (snd qa) Hq0 Ha0 Hq1 Ha1).
      - unfold Spec.response_block. destruct (fst qa); [congruence|].
        discriminate. }
    destruct Hb as [Hb1 Hb0].
    destruct rest as [|qa' rest].
    + split; [exact Hb1 | intros _; exact Hb0].
    + assert (Hr : Spec.responses_text (qa' :: rest) <> [])
        by (apply IH2; discriminate).
      change (Spec.responses_text (qa :: qa' :: rest))
        with (Spec.response_block qa ++ [Spec.LF; Spec.LF]
                ++ Spec.responses_text (qa' :: rest)).
      split.
      * exact (trimmed_app _ _ _ Hb0 Hr Hb1 IH1).
      * intros _. destruct (Spec.response_block qa); [congruence|].
        discriminate.
Qed.

(** X8.  A responses file laid out as the reader expects it is read
    back exactly: for pairs of non-empty, trimmed, one-line questions and
    answers, written as a question line and an answer line with a blank
    line between two pairs, [parse_text_responses] returns the pairs, in
    order. *)
Theorem parse_text_responses_reads_layout
        (qa_pairs : list BuildRefText.qa_pair) :
  Forall (fun qa => Spec.plain (fst qa) /\ Spec.plain (snd qa)) qa_pairs ->
  BuildRefTextInput.parse_text_responses (Spec.responses_text qa_pairs)
  = qa_pairs.
Proof.
  intros H. unfold BuildRefTextInput.parse_text_responses.
  destruct (responses_text_trimmed qa_pairs H) as [Ht _].
  unfold Spec.trimmed in Ht. rewrite Ht.
  destruct qa_pairs as [|qa rest]; [reflexivity|].
  rewrite (split_blank_responses (qa :: rest) ltac:(discriminate) H).
  exact (parse_response_blocks (qa :: rest) H []).
Qed.

Lemma parse_text_responses_reads_layout_witness :
  BuildRefTextInput.parse_text_responses
    (Spec.responses_text
       [(Py.lit "What is your age?", Py.lit "29 years old");
        (Py.lit "Where to?", Py.lit "Lisbon, in May")])
  = [(Py.lit "What is your age?", Py.lit "29 years old");
     (Py.lit "Where to?", Py.lit "Lisbon, in May")].
Proof.
  apply (parse_text_responses_reads_layout
           [(Py.lit "What is your age?", Py.lit "29 years old");
            (Py.lit "Where to?", Py.lit "Lisbon, in May")]).
  repeat constructor; try discriminate; try reflexivity.
Defined.

(** ** [find_key] *)

Lemma normalized_map_fold (data acc : Dict.t json) (n : str) :
  Dict.get n (fold_left (fun m kv =>
                           Dict.set (RunLocal.normalized (fst kv)) (snd kv) m)
                        data acc)
  = match Spec.last_keyed n data with
    | Some w => Some w
    | None => Dict.get n acc
    end.
Proof.
  revert acc. induction data as [|[k v] data IH]; intros acc; [reflexivity|].
  cbn [fold_left Spec.last_keyed fst snd]. rewrite IH.
  destruct (Spec.last_keyed n data) as [w|]; [reflexivity|].
  destruct (Py.eqb (RunLocal.normalized k) n) eqn:E.
  - apply py_eqb_eq in E. rewrite <- E. apply dict_get_set_same.
  - apply dict_get_set_other. intros ->. rewrite py_eqb_refl in E.
    discriminate.
Qed.

Lemma normalized_map_get (data : Dict.t json) (n : str) :
  Dict.get n (RunLocal.normalized_map data) = Spec.last_keyed n data.
Proof.
  unfold RunLocal.normalized_map. rewrite normalized_map_fold.
  destruct (Spec.last_keyed n data); reflexivity.
Qed.

Lemma last_keyed_unique (n : str) (data : Dict.t json) (k : str) (v : json) :
  In (k, v) data -> RunLocal.normalized k = n ->
  (forall k' v', In (k', v') data -> RunLocal.normalized k' = n -> v' = v) ->
  Spec.last_keyed n data = Some v.
Proof.
  induction data as [|[k0 v0] data IH]; intros Hin Hk Hu; [destruct Hin|].
  cbn [Spec.last_keyed].
  destruct (Spec.last_keyed n data) as [w|] eqn:E.
  - f_equal.
    assert (Hw : exists kw, In (kw, w) data /\ RunLocal.normalized kw = n).
    { clear - E. induction data as [|[k1 v1] data IH]; [discriminate|].
      cbn [Spec.last_keyed] in E.
      destruct (Spec.last_keyed n data) as [w'|].
      - injection E as ->. destruct (IH eq_refl) as [kw [Hin Hn]].
        exists kw. split; [right; exact Hin | exact Hn].
      - destruct (Py.eqb (RunLocal.normalized k1) n) eqn:E1; [|discriminate].
        injection E as ->. apply py_eqb_eq in E1.
        exists k1. split; [left; reflexivity | exact E1]. }
    destruct Hw as [kw [Hin' Hn]].
    exact (Hu kw w (or_intror Hin') Hn).
  - destruct Hin as [Hin | Hin].
    + injection Hin as -> ->. rewrite Hk, py_eqb_refl. reflexivity.
    + assert (C : None = Some v); [|discriminate C].
      apply IH; [exact Hin | exact Hk|].
      intros k' v' Hin'. exact (Hu k' v' (or_intror Hin')).
Qed.

(** X9.  [find_key] answers for the first of the possible keys that
    some key of the data matches up to letter case and underscores, and
    returns the value of the last member of the data that matches it;
    when no possible key is matched it returns [None]. *)
Theorem find_key_first_key_last_member
        (data : Dict.t json) (possible_keys : list str) :
  ((forall key, In key possible_keys ->
                Spec.last_keyed (RunLocal.normalized key) data = None) ->
   RunLocal.find_key (JObj data) possible_keys = JNull)
  /\ (forall before key after v,
        possible_keys = before ++ key :: after ->
        (forall k, In k before ->
                   Spec.last_keyed (RunLocal.normalized k) data = None) ->
        Spec.last_keyed (RunLocal.normalized key) data = Some v ->
        RunLocal.find_key (JObj data) possible_keys = v).
Proof.
  unfold RunLocal.find_key. split.
  - induction possible_keys as [|key keys IH]; intros H; [reflexivity|].
    cbn [RunLocal.first_known]. rewrite normalized_map_get.
    rewrite (H key (or_introl eq_refl)). apply IH.
    intros k Hk. exact (H k (or_intror Hk)).
  - intros before key after v ->. induction before as [|k before IH];
      intros Hb Hv; cbn [app RunLocal.first_known];
      rewrite normalized_map_get.
    + rewrite Hv. reflexivity.
    + rewrite (Hb k (or_introl eq_refl)). apply IH; [|exact Hv].
      intros k' Hk'. exact (Hb k' (or_intror Hk')).
Qed.

Lemma find_key_first_key_last_member_witness :
  RunLocal.find_key
    (JObj [(Py.lit "User_ID", JStr (Py.lit "u1"));
           (Py.lit "userid", JStr (Py.lit "u2"))])
    [Py.lit "email"; Py.lit "user_id"]
  = JStr (Py.lit "u2").
Proof.
  exact (proj2 (find_key_first_key_last_member
                  [(Py.lit "User_ID", JStr (Py.lit "u1"));
                   (Py.lit "userid", JStr (Py.lit "u2"))]
                  [Py.lit "email"; Py.lit "user_id"])
               [Py.lit "email"] (Py.lit "user_id") []
               (JStr (Py.lit "u2")) eq_refl
               (fun k Hk => match Hk with
                            | or_introl E =>
                                eq_ind (Py.lit "email")
                                       (fun x => Spec.last_keyed
                                                   (RunLocal.normalized x)
                                                   [(Py.lit "User_ID", JStr (Py.lit "u1"));
                                                    (Py.lit "userid", JStr (Py.lit "u2"))]
                                                 = None)
                                       eq_refl k E
                            | or_intror F => match F with end
                            end)
               eq_refl).
Defined.

(** X10.  The lookup is blind to letter case and to underscores: when
    the data holds a key that differs from the first possible key only
    in letter case and underscores, and every such key of the data holds
    the same value, [find_key] returns that value. *)
Theorem find_key_ignores_case_and_underscores
        (data : Dict.t json) (k : str) (v : json)
        (key : str) (others : list str) :
  In (k, v) data ->
  RunLocal.normalized key = RunLocal.normalized k ->
  (forall k' v', In (k', v') data ->
                 RunLocal.normalized k' = RunLocal.normalized k -> v' = v) ->
  RunLocal.find_key (JObj data) (key :: others) = v.
Proof.
  intros Hin Hk Hu. unfold RunLocal.find_key. cbn [RunLocal.first_known].
  rewrite normalized_map_get, Hk.
  rewrite (last_keyed_unique (RunLocal.normalized k) data k v Hin eq_refl Hu).
  reflexivity.
Qed.

Lemma find_key_ignores_case_and_underscores_witness :
  RunLocal.find_key
    (JObj [(Py.lit "form_id", JStr (Py.lit "f1"));
           (Py.lit "User_ID", JStr (Py.lit "u1"))])
    [Py.lit "userId"; Py.lit "uid"]
  = JStr (Py.lit "u1").
Proof.
  apply (find_key_ignores_case_and_underscores
           [(Py.lit "form_id", JStr (Py.lit "f1"));
            (Py.lit "User_ID", JStr (Py.lit "u1"))]
           (Py.lit "User_ID") (JStr (Py.lit "u1"))
           (Py.lit "userId") [Py.lit "uid"]).
  - right. left. reflexivity.
  - reflexivity.
  - intros k' v' [E | [E | []]] Hn; injection E as <- <-.
    + vm_compute in Hn. discriminate.
    + reflexivity.
Defined.

(** ** The trip catalog *)

Lemma trip_of_line_inv (line : str) (trip : json) :
  BuildTripCatalog.trip_of_line line = inr trip ->
  exists title_part title regions transport tier_part tier pb_sd_part
         continent_part,
    let parts := map Py.strip (Py.split_on BuildTripCatalog.PIPE line) in
    nth_error parts 0 = Some title_part
    /\ Py.split_once BuildTripCatalog.COLON title_part = Some (title, regions)
    /\ nth_error parts 1 = Some transport
    /\ nth_error parts 2 = Some tier_part
    /\ Py.int_of_str (Py.strip (Py.replace (Py.lit "Tier") [] tier_part))
       = Some tier
    /\ nth_error parts 3 = Some pb_sd_part
    /\ nth_error parts 4 = Some continent_part
    /\ trip
       = JObj
           [(Py.lit "title", JStr (Py.strip title));
            (Py.lit "tier", BuildTripCatalog.whole tier);
            (Py.lit "pb_sd",
             JStr (BuildTripCatalog.pb_sd_of (Py.lower pb_sd_part)));
            (Py.lit "continent", JStr (Py.strip continent_part));
            (Py.lit "transport_modes",
             BuildTripCatalog.strings
               (map Py.strip (Py.split_on BuildTripCatalog.COMMA transport)));
            (Py.lit "themes",
             BuildTripCatalog.strings
               (BuildTripCatalog.themes_of (Py.strip continent_part)));
            (Py.lit "activity_level",
             BuildTripCatalog.whole (if (tier =? 1)%Z then 5%Z else 6%Z));
            (Py.lit "cultural_depth",
             BuildTripCatalog.whole
               (if existsb (Py.eqb (Py.strip continent_part))
                           [Py.lit "Europe"; Py.lit "Asia";
                            Py.lit "Asia/Africa"]
                then 8%Z else 6%Z));
            (Py.lit "region_examples",
             BuildTripCatalog.strings
               (map Py.strip (Py.split_on BuildTripCatalog.COMMA regions)));
            (Py.lit "description",
             JStr (Py.strip title ++ Py.lit " visiting "
                   ++ Py.join (Py.lit ", ")
                        (firstn 3 (map Py.strip
                                     (Py.split_on BuildTripCatalog.COMMA
                                                  regions)))
                   ++ Py.lit " and nearby regions."))].
Proof.
  unfold BuildTripCatalog.trip_of_line, BuildTripCatalog.part.
  set (parts := map Py.strip (Py.split_on BuildTripCatalog.PIPE line)).
  destruct (nth_error parts 0) as [title_part|] eqn:E0; [|discriminate].
  destruct (Py.split_once BuildTripCatalog.COLON title_part)
    as [[title regions]|] eqn:E1; [|discriminate].
  destruct (nth_error parts 1) as [transport|] eqn:E2; [|discriminate].
  destruct (nth_error parts 2) as [tier_part|] eqn:E3; [|discriminate].
  destruct (Py.int_of_str (Py.strip (Py.replace (Py.lit "Tier") [] tier_part)))
    as [tier|] eqn:E4; [|discriminate].
  destruct (nth_error parts 3) as [pb_sd_part|] eqn:E5; [|discriminate].
  destruct (nth_error parts 4) as [continent_part|] eqn:E6; [|discriminate].
  intros E. injection E as <-.
  exists title_part, title, regions, transport, tier_part, tier, pb_sd_part,
         continent_part.
  cbv zeta. repeat split; try reflexivity; assumption.
Qed.

Lemma trip_of_line_object (line : str) (trip : json) :
  BuildTripCatalog.trip_of_line line = inr trip ->
  exists k v members, trip = JObj ((k, v) :: members).
Proof.
  intros E. destruct (trip_of_line_inv line trip E)
    as [x1 [x2 [x3 [x4 [x5 [x6 [x7 [x8 H]]]]]]]].
  cbv zeta in H. decompose [and] H. subst trip.
  eexists _, _, _. reflexivity.
Qed.

Lemma parse_trip_line_truthy (line : str) (trip : json) :
  BuildTripCatalog.parse_trip_line line = Some trip ->
  Json.truthy trip = true.
Proof.
  unfold BuildTripCatalog.parse_trip_line.
  destruct (negb (Py.truthy (Py.strip line))
            || Py.startswith (Py.lit "#") (Py.strip line)); [discriminate|].
  destruct (BuildTripCatalog.trip_of_line line) as [e|t] eqn:E;
    [discriminate|].
  intros H. injection H as <-.
  destruct (trip_of_line_object line t E) as [k [v [members ->]]].
  reflexivity.
Qed.

Lemma add_lines_parsed (lines : list str) :
  forall trips,
    fold_left BuildTripCatalog.add_line lines trips
    = trips ++ Spec.parsed_trips lines.
Proof.
  induction lines as [|line lines IH]; intros trips;
    cbn [fold_left Spec.parsed_trips flat_map].
  - rewrite app_nil_r. reflexivity.
  - rewrite IH. unfold BuildTripCatalog.add_line.
    fold (Spec.parsed_trips lines).
    destruct (BuildTripCatalog.parse_trip_line line) as [trip|] eqn:E.
    + rewrite (parse_trip_line_truthy line trip E), <- app_assoc.
      reflexivity.
    + reflexivity.
Qed.

Lemma parse_trip_line_passed_over (line : str) :
  Spec.passed_over line -> BuildTripCatalog.parse_trip_line line = None.
Proof.
  unfold BuildTripCatalog.parse_trip_line. intros [H | H].
  - rewrite (strip_blank line H). reflexivity.
  - rewrite H, orb_true_r. reflexivity.
Qed.

(** X11.  The catalog holds the trip of every line that parses, in the
    order of the lines, and nothing else; a blank line or a comment line
    can stand anywhere in the trip list without changing the catalog. *)
Theorem build_catalog_passes_over_comments
        (before after : list str) (line : str) :
  Spec.passed_over line ->
  BuildTripCatalog.build_catalog (before ++ line :: after)
  = BuildTripCatalog.build_catalog (before ++ after)
  /\ BuildTripCatalog.build_catalog (before ++ after)
     = JArr (Spec.parsed_trips before ++ Spec.parsed_trips after).
Proof.
  intros H. unfold BuildTripCatalog.build_catalog.
  rewrite !add_lines_parsed. cbn [app]. unfold Spec.parsed_trips.
  rewrite !flat_map_app. cbn [flat_map].
  rewrite (parse_trip_line_passed_over line H). split; reflexivity.
Qed.

Lemma build_catalog_passes_over_comments_witness :
  BuildTripCatalog.build_catalog
    ([Py.lit "Alps: Bern | train | Tier 2 | Secondary Depth | Europe"]
       ++ Py.lit "  # rail trips" :: [])
  = BuildTripCatalog.build_catalog
      ([Py.lit "Alps: Bern | train | Tier 2 | Secondary Depth | Europe"]
         ++ []).
Proof.
  exact (proj1 (build_catalog_passes_over_comments
                  [Py.lit "Alps: Bern | train | Tier 2 | Secondary Depth | Europe"]
                  [] (Py.lit "  # rail trips") (or_intror eq_refl))).
Defined.

(** X12.  A line with fewer than four vertical bars gives no trip: the
    fifth field is missing, and the line is dropped. *)
Theorem parse_trip_line_needs_five_fields (line : str) :
  Spec.occurrences BuildTripCatalog.PIPE line < 4 ->
  BuildTripCatalog.parse_trip_line line = None.
Proof.
  intros H. unfold BuildTripCatalog.parse_trip_line.
  destruct (negb (Py.truthy (Py.strip line))
            || Py.startswith (Py.lit "#") (Py.strip line)); [reflexivity|].
  assert (E : exists e, BuildTripCatalog.trip_of_line line = inl e);
    [|destruct E as [e ->]; reflexivity].
  assert (L : nth_error (map Py.strip
                                (Py.split_on BuildTripCatalog.PIPE line)) 4
              = None).
  { apply nth_error_None. rewrite length_map, split_on_length.
    unfold Spec.occurrences in H. lia. }
  destruct (BuildTripCatalog.trip_of_line line) as [e|trip] eqn:E;
    [exists e; reflexivity|].
  destruct (trip_of_line_inv line trip E)
    as [x1 [x2 [x3 [x4 [x5 [x6 [x7 [x8 I]]]]]]]].
  cbv zeta in I. decompose [and] I. congruence.
Qed.

Lemma parse_trip_line_needs_five_fields_witness :
  BuildTripCatalog.parse_trip_line
    (Py.lit "Alps: Bern | train | Tier 2 | Secondary Depth") = None.
Proof.
  apply (parse_trip_line_needs_five_fields
           (Py.lit "Alps: Bern | train | Tier 2 | Secondary Depth")).
  vm_compute. reflexivity.
Defined.

(** ** The exported text, line by line *)

Lemma isdigit_not_space (c : ascii) :
  Py.isdigit c = true -> Py.isspace c = false.
Proof. each_char c. Qed.

Lemma isdigit_not_linebreak (c : ascii) :
  Py.isdigit c = true -> Py.islinebreak c = false.
Proof. each_char c. Qed.

Lemma isrefchar_not_space (c : ascii) :
  BuildUserJson.isrefchar c = true -> Py.isspace c = false.
Proof. each_char c. Qed.

Lemma isrefchar_not_linebreak (c : ascii) :
  BuildUserJson.isrefchar c = true -> Py.islinebreak c = false.
Proof. each_char c. Qed.

Lemma isrefchar_not_colon (c : ascii) :
  BuildUserJson.isrefchar c = true -> c <> Spec.COLON.
Proof. each_char c. Qed.

Lemma not_linebreak_not_LF (c : ascii) :
  Py.islinebreak c = false -> c <> Spec.LF.
Proof. each_char c. Qed.

Lemma digit_char_isdigit (d : nat) :
  d < 10 -> Py.isdigit (Py.digit_char d) = true.
Proof.
  intros H. do 10 (destruct d as [|d]; [reflexivity|]). lia.
Qed.

Lemma decimal_fuel_digits (fuel : nat) :
  forall (n : nat) (acc : str),
    Forall (fun c => Py.isdigit c = true) acc ->
    Forall (fun c => Py.isdigit c = true) (Py.decimal_fuel fuel n acc).
Proof.
  induction fuel as [|fuel IH]; intros n acc Hacc; [exact Hacc|].
  assert (Hd : Py.isdigit (Py.digit_char (n mod 10)) = true).
  { apply digit_char_isdigit. apply Nat.mod_upper_bound. discriminate. }
  change (Py.decimal_fuel (S fuel) n acc)
    with (if n <? 10 then Py.digit_char (n mod 10) :: acc
          else Py.decimal_fuel fuel (n / 10)
                               (Py.digit_char (n mod 10) :: acc)).
  destruct (n <? 10); [|apply IH]; constructor; assumption.
Qed.

Lemma decimal_fuel_nonempty (fuel : nat) :
  forall (n : nat) (acc : str), Py.decimal_fuel (S fuel) n acc <> [].
Proof.
  induction fuel as [|fuel IH]; intros n acc;
    change (Py.decimal_fuel (S ?f) n acc)
      with (if n <? 10 then Py.digit_char (n mod 10) :: acc
            else Py.decimal_fuel f (n / 10)
                                 (Py.digit_char (n mod 10) :: acc));
    destruct (n <? 10); try discriminate.
  apply IH.
Qed.

(** A decimal numeral is a non-empty run of digits. *)
Lemma decimal_digits (n : nat) :
  Py.decimal n <> [] /\ Forall (fun c => Py.isdigit c = true) (Py.decimal n).
Proof.
  split.
  - exact (decimal_fuel_nonempty n n []).
  - exact (decimal_fuel_digits (S n) n [] (Forall_nil _)).
Qed.

(** *** Lines of a text *)

Lemma splitlines_line (x : str) :
  Spec.no_linebreak x ->
  forall cur rest,
    Py.splitlines_from cur (x ++ rest) = Py.splitlines_from (rev x ++ cur) rest.
Proof.
  induction 1 as [|c x Hc _ IH]; intros cur rest; [reflexivity|].
  cbn [app Py.splitlines_from]. rewrite Hc, IH. cbn [rev].
  rewrite <- app_assoc. reflexivity.
Qed.

Lemma join_cons (sep p q : str) (rest : list str) :
  Py.join sep (p :: q :: rest) = p ++ sep ++ Py.join sep (q :: rest).
Proof. reflexivity. Qed.

Lemma join_last_nonempty (sep : str) (lines : list str) :
  last lines [] <> [] -> Py.join sep lines <> [].
Proof.
  induction lines as [|l ls IH]; [intros H; exact H|].
  destruct ls as [|l' ls]; [intros H; exact H|].
  intros H. rewrite join_cons. intros E.
  apply app_eq_nil in E. destruct E as [_ E].
  apply app_eq_nil in E. destruct E as [_ E].
  exact (IH H E).
Qed.

(** The lines of lines joined by line feeds are these lines, when none
    holds a line boundary and the last one is not empty. *)
Lemma splitlines_join (lines : list str) :
  Forall Spec.no_linebreak lines ->
  last lines [] <> [] ->
  Py.splitlines (Py.join [Spec.LF] lines) = lines.
Proof.
  unfold Py.splitlines. induction 1 as [|l ls Hl Hls IH]; intros Hlast.
  - exfalso. apply Hlast. reflexivity.
  - destruct ls as [|l' ls].
    + cbn [Py.join]. rewrite <- (app_nil_r l) at 1.
      rewrite (splitlines_line l Hl). rewrite app_nil_r.
      cbn [last] in Hlast. destruct l as [|c l]; [contradiction|].
      cbn [Py.splitlines_from].
      destruct (rev (c :: l)) as [|d r] eqn:E.
      * apply (f_equal (@length ascii)) in E.
        rewrite length_rev in E. discriminate.
      * rewrite <- E, rev_involutive. reflexivity.
    + rewrite join_cons. cbn [app].
      rewrite (splitlines_line l Hl). rewrite app_nil_r.
      assert (Hj : Py.join [Spec.LF] (l' :: ls) <> [])
        by (apply join_last_nonempty; exact Hlast).
      cbn [Py.splitlines_from].
      change (Py.islinebreak Spec.LF) with true. cbn iota.
      destruct (Py.join [Spec.LF] (l' :: ls)) as [|d t] eqn:E;
        [contradiction|].
      change (Py.isCR Spec.LF) with false. cbn [andb].
      rewrite rev_involutive. f_equal. apply IH. exact Hlast.
Qed.

(** ** The exported text and its lines *)

Ltac norm_app :=
  repeat (rewrite <- app_assoc || rewrite <- app_comm_cons); cbn [app].

Lemma exported_lines_cons (i : nat) (m m' : BuildRefText.matched_entry str)
      (rest : list (BuildRefText.matched_entry str)) :
  Spec.exported_lines i (m :: m' :: rest)
  = Spec.line_q i m :: Spec.line_qref m :: Spec.line_a m :: Spec.line_aref m
    :: Spec.line_match m :: [] :: Spec.exported_lines (S i) (m' :: rest).
Proof. reflexivity. Qed.

Lemma exported_lines_head (i : nat) (m : BuildRefText.matched_entry str)
      (rest : list (BuildRefText.matched_entry str)) :
  exists ls, Spec.exported_lines i (m :: rest) = Spec.line_q i m :: ls
             /\ ls <> [].
Proof.
  destruct rest; eexists; (split; [reflexivity | discriminate]).
Qed.

Lemma export_record_lines (i : nat) (m : BuildRefText.matched_entry str) :
  BuildRefText.export_record i m
  = Spec.line_q i m ++ [Spec.LF] ++ Spec.line_qref m ++ [Spec.LF]
    ++ Spec.line_a m ++ [Spec.LF] ++ Spec.line_aref m ++ [Spec.LF]
    ++ Spec.line_match m ++ [Spec.LF; Spec.LF].
Proof.
  unfold BuildRefText.export_record, Spec.line_q, Spec.line_qref, Spec.line_a,
    Spec.line_aref, Spec.line_match.
  rewrite <- !app_assoc. reflexivity.
Qed.

(** The exported text is its lines joined by line feeds, and two line
    feeds. *)
Lemma export_from_lines (rest : list (BuildRefText.matched_entry str)) :
  forall (i : nat) (m : BuildRefText.matched_entry str),
    BuildRefText.export_from i (m :: rest)
    = Py.join [Spec.LF] (Spec.exported_lines i (m :: rest))
      ++ [Spec.LF; Spec.LF].
Proof.
  induction rest as [|m' rest IH]; intros i m.
  - cbn [BuildRefText.export_from Spec.exported_lines Spec.record_lines app
         Py.join].
    rewrite app_nil_r, export_record_lines. norm_app. reflexivity.
  - change (BuildRefText.export_from i (m :: m' :: rest))
      with (BuildRefText.export_record i m
            ++ BuildRefText.export_from (S i) (m' :: rest)).
    rewrite IH, exported_lines_cons, export_record_lines.
    destruct (exported_lines_head (S i) m' rest) as [ls [E _]].
    rewrite E. cbn [Py.join]. norm_app. reflexivity.
Qed.

Lemma lstrip_blank_app (b y : str) :
  Spec.blank b -> Py.lstrip (b ++ y) = Py.lstrip y.
Proof.
  induction 1 as [|c b Hc _ IH]; [reflexivity|].
  cbn [app Py.lstrip]. rewrite Hc. exact IH.
Qed.

Lemma strip_blank_tail (x ws : str) :
  Spec.trimmed x -> x <> [] -> Spec.blank ws -> Py.strip (x ++ ws) = x.
Proof.
  intros Hx Hne Hws. apply trimmed_edges in Hx. destruct Hx as [L R].
  unfold Py.strip. rewrite (lstrip_app_fixed x ws Hne L).
  unfold Py.rstrip. rewrite rev_app_distr.
  rewrite (lstrip_blank_app (rev ws) (rev x)).
  - apply rstrip_fixed_rev in R. rewrite R. apply rev_involutive.
  - apply Forall_rev. exact Hws.
Qed.

Lemma join_rstrip (sep : str) (lines : list str) :
  last lines [] <> [] ->
  Py.rstrip (last lines []) = last lines [] ->
  Py.rstrip (Py.join sep lines) = Py.join sep lines.
Proof.
  induction lines as [|l ls IH]; [intros _ H; exact H|].
  destruct ls as [|l' ls]; [intros _ H; exact H|].
  intros Hne H. rewrite join_cons, app_assoc.
  apply rstrip_app_fixed.
  - apply join_last_nonempty. exact Hne.
  - apply IH; [exact Hne | exact H].
Qed.

Lemma exported_lines_last (rest : list (BuildRefText.matched_entry str)) :
  forall (i : nat) (m : BuildRefText.matched_entry str),
  exists m', last (Spec.exported_lines i (m :: rest)) [] = Spec.line_match m'.
Proof.
  induction rest as [|m' rest IH]; intros i m.
  - exists m. reflexivity.
  - destruct (IH (S i) m') as [m'' E]. exists m''.
    rewrite exported_lines_cons.
    destruct (exported_lines_head (S i) m' rest) as [ls [E' Hls]].
    rewrite E' in *. destruct ls as [|l ls]; [contradiction|]. exact E.
Qed.

Lemma line_match_edge (m : BuildRefText.matched_entry str) :
  Spec.line_match m <> [] /\ Py.rstrip (Spec.line_match m) = Spec.line_match m.
Proof.
  unfold Spec.line_match.
  destruct (BuildRefText.match_type m); split;
    solve [discriminate | reflexivity].
Qed.

Lemma line_q_head (i : nat) (m : BuildRefText.matched_entry str) :
  exists d t, Spec.line_q i m = d :: t /\ Py.isdigit d = true.
Proof.
  destruct (decimal_digits i) as [Hne Hd]. unfold Spec.line_q.
  destruct (Py.decimal i) as [|d ds]; [contradiction|].
  exists d, (ds ++ Py.lit ". Q: " ++ BuildRefText.question m).
  split; [reflexivity|]. inversion Hd. assumption.
Qed.

(** Stripping the exported text takes its last two line feeds away,
    and nothing else. *)
Lemma strip_export (i : nat) (matched : list (BuildRefText.matched_entry str)) :
  Py.strip (BuildRefText.export_from i matched)
  = Py.join [Spec.LF] (Spec.exported_lines i matched).
Proof.
  destruct matched as [|m rest]; [reflexivity|].
  rewrite export_from_lines.
  destruct (exported_lines_last rest i m) as [m' Hlast].
  destruct (line_match_edge m') as [Hne Hr].
  destruct (exported_lines_head i m rest) as [ls [E Hls]].
  destruct (line_q_head i m) as [d [t [Eq Hd]]].
  apply strip_blank_tail.
  - apply trimmed_edges. split.
    + rewrite E. destruct ls as [|l ls]; [contradiction|].
      rewrite join_cons, Eq. cbn [app].
      apply lstrip_head. exact (isdigit_not_space d Hd).
    + apply join_rstrip; rewrite Hlast; assumption.
  - apply join_last_nonempty. rewrite Hlast. exact Hne.
  - repeat constructor.
Qed.

(** *** The lines kept by the parser *)

Lemma no_linebreak_digits (s : str) :
  Forall (fun c => Py.isdigit c = true) s -> Spec.no_linebreak s.
Proof.
  intros H. eapply Forall_impl; [|exact H].
  exact isdigit_not_linebreak.
Qed.

Lemma no_linebreak_refchars (s : str) :
  Forall (fun c => BuildUserJson.isrefchar c = true) s -> Spec.no_linebreak s.
Proof.
  intros H. eapply Forall_impl; [|exact H].
  exact isrefchar_not_linebreak.
Qed.

Lemma no_linebreak_app (a b : str) :
  Spec.no_linebreak a -> Spec.no_linebreak b -> Spec.no_linebreak (a ++ b).
Proof. intros Ha Hb. apply Forall_app. split; assumption. Qed.

Lemma record_lines_no_linebreak (i : nat) (m : BuildRefText.matched_entry str) :
  Spec.exportable m -> Forall Spec.no_linebreak (Spec.record_lines i m).
Proof.
  intros [Hq [_ [_ [Hr [_ [_ [Ha Har]]]]]]].
  unfold Spec.record_lines, Spec.line_q, Spec.line_qref, Spec.line_a,
    Spec.line_aref, Spec.line_match.
  constructor; [|constructor; [|constructor; [|constructor;
    [|constructor; [|constructor]]]]].
  - apply no_linebreak_app.
    + apply no_linebreak_digits. exact (proj2 (decimal_digits i)).
    + apply no_linebreak_app; [repeat constructor | exact Hq].
  - apply no_linebreak_app; [repeat constructor|].
    exact (no_linebreak_refchars _ Hr).
  - apply no_linebreak_app; [repeat constructor | exact Ha].
  - apply no_linebreak_app; [repeat constructor | exact Har].
  - apply no_linebreak_app; [repeat constructor|].
    destruct (BuildRefText.match_type m); repeat constructor.
Qed.

Lemma exported_lines_no_linebreak
      (matched : list (BuildRefText.matched_entry str)) :
  Forall Spec.exportable matched ->
  forall i, Forall Spec.no_linebreak (Spec.exported_lines i matched).
Proof.
  induction 1 as [|m rest Hm Hrest IH]; intros i; [constructor|].
  cbn [Spec.exported_lines]. apply Forall_app. split.
  - exact (record_lines_no_linebreak i m Hm).
  - destruct rest as [|m' rest]; [constructor|].
    constructor; [constructor | apply IH].
Qed.

Lemma is_annotation_line_q (i : nat) (m : BuildRefText.matched_entry str) :
  BuildUserJson.is_annotation (Spec.line_q i m) = false.
Proof.
  destruct (line_q_head i m) as [d [t [E Hd]]]. rewrite E.
  unfold BuildUserJson.is_annotation. cbn [Py.drop_while].
  rewrite (isdigit_not_space d Hd).
  unfold BuildUserJson.tag_then_colon.
  assert (HA : Py.startswith_ci (Py.lit "A_ref") (d :: t) = false).
  { cbn [Py.lit String.list_ascii_of_string Py.startswith_ci].
    destruct d as [[] [] [] [] [] [] [] []]; try discriminate Hd;
      reflexivity. }
  assert (HM : Py.startswith_ci (Py.lit "Match") (d :: t) = false).
  { cbn [Py.lit String.list_ascii_of_string Py.startswith_ci].
    destruct d as [[] [] [] [] [] [] [] []]; try discriminate Hd;
      reflexivity. }
  rewrite HA, HM. reflexivity.
Qed.

Lemma is_annotation_line_qref (m : BuildRefText.matched_entry str) :
  BuildUserJson.is_annotation (Spec.line_qref m) = false.
Proof. reflexivity. Qed.

Lemma is_annotation_line_a (m : BuildRefText.matched_entry str) :
  BuildUserJson.is_annotation (Spec.line_a m) = false.
Proof. reflexivity. Qed.

Lemma is_annotation_line_aref (m : BuildRefText.matched_entry str) :
  BuildUserJson.is_annotation (Spec.line_aref m) = true.
Proof. reflexivity. Qed.

Lemma is_annotation_line_match (m : BuildRefText.matched_entry str) :
  BuildUserJson.is_annotation (Spec.line_match m) = true.
Proof. reflexivity. Qed.

Lemma kept_of_exported (matched : list (BuildRefText.matched_entry str)) :
  forall i,
    filter (fun line => negb (BuildUserJson.is_annotation line))
           (Spec.exported_lines i matched)
    = Spec.kept_lines i matched.
Proof.
  induction matched as [|m rest IH]; intros i; [reflexivity|].
  cbn [Spec.exported_lines Spec.record_lines app filter Spec.kept_lines].
  rewrite is_annotation_line_q, is_annotation_line_qref,
    is_annotation_line_a, is_annotation_line_aref, is_annotation_line_match.
  cbn [negb]. do 3 f_equal.
  destruct rest as [|m' rest]; [reflexivity|].
  cbn [filter]. change (BuildUserJson.is_annotation []) with false.
  cbn [negb]. f_equal. apply IH.
Qed.

Lemma kept_lines_cons (i : nat) (m m' : BuildRefText.matched_entry str)
      (rest : list (BuildRefText.matched_entry str)) :
  Spec.kept_lines i (m :: m' :: rest)
  = Spec.line_q i m :: Spec.line_qref m :: Spec.line_a m :: []
    :: Spec.line_q (S i) m'
    :: tl (Spec.kept_lines (S i) (m' :: rest)).
Proof. reflexivity. Qed.

Lemma join_kept_lines (rest : list (BuildRefText.matched_entry str)) :
  forall (i : nat) (m : BuildRefText.matched_entry str),
    Py.join [Spec.LF] (Spec.kept_lines i (m :: rest)) = Spec.clean i (m :: rest).
Proof.
  induction rest as [|m' rest IH]; intros i m.
  - cbn [Spec.kept_lines app Py.join Spec.clean Spec.clean_rest].
    unfold Spec.block_tail, Spec.line_q. norm_app. rewrite app_nil_r.
    reflexivity.
  - rewrite kept_lines_cons.
    change (Spec.line_q (S i) m' :: tl (Spec.kept_lines (S i) (m' :: rest)))
      with (Spec.kept_lines (S i) (m' :: rest)).
    cbn [Py.join].
    change (match Spec.kept_lines (S i) (m' :: rest) with
            | [] => Spec.line_a m
            | _ :: _ =>
                Spec.line_a m
                ++ [Spec.LF]
                ++ match Spec.kept_lines (S i) (m' :: rest) with
                   | [] => []
                   | _ :: _ =>
                       [] ++ [Spec.LF]
                       ++ Py.join [Spec.LF]
                            (Spec.kept_lines (S i) (m' :: rest))
                   end
            end)
      with (Spec.line_a m ++ [Spec.LF] ++ [] ++ [Spec.LF]
            ++ Py.join [Spec.LF] (Spec.kept_lines (S i) (m' :: rest))).
    rewrite IH.
    cbn [Spec.clean Spec.clean_rest].
    unfold Spec.block_tail, Spec.line_q. norm_app. reflexivity.
Qed.

(** The text that the parser splits into blocks, for an exported text. *)
Lemma clean_text_of_export (i : nat)
      (matched : list (BuildRefText.matched_entry str)) :
  Forall Spec.exportable matched ->
  Py.join [BuildUserJson.LF]
          (filter (fun line => negb (BuildUserJson.is_annotation line))
                  (Py.splitlines
                     (Py.strip (BuildRefText.export_from i matched))))
  = Spec.clean i matched.
Proof.
  intros H. rewrite strip_export.
  destruct matched as [|m rest]; [reflexivity|].
  rewrite splitlines_join.
  - rewrite kept_of_exported. change BuildUserJson.LF with Spec.LF.
    apply join_kept_lines.
  - apply exported_lines_no_linebreak. exact H.
  - destruct (exported_lines_last rest i m) as [m' E]. rewrite E.
    exact (proj1 (line_match_edge m')).
Qed.

(** ** The blocks of the cleaned text *)

Lemma take_while_stop (p : ascii -> bool) (x : str) (c : ascii) (r : str) :
  Forall (fun a => p a = true) x -> p c = false ->
  Py.take_while p (x ++ c :: r) = x /\ Py.drop_while p (x ++ c :: r) = c :: r.
Proof.
  intros Hx Hc. induction Hx as [|a x Ha _ [IH1 IH2]];
    cbn [app Py.take_while Py.drop_while].
  - rewrite Hc. split; reflexivity.
  - rewrite Ha, IH1, IH2. split; reflexivity.
Qed.

Lemma one_line_no_linebreak (s : str) : Spec.no_linebreak s -> Spec.one_line s.
Proof.
  intros H. eapply Forall_impl; [|exact H]. exact not_linebreak_not_LF.
Qed.

Lemma one_line_app (a b : str) :
  Spec.one_line a -> Spec.one_line b -> Spec.one_line (a ++ b).
Proof. intros Ha Hb. apply Forall_app. split; assumption. Qed.

Lemma separator_not_lf (c : ascii) (t : str) :
  c <> Spec.LF -> BuildUserJson.separator (c :: t) = None.
Proof.
  intros H. unfold BuildUserJson.separator, BuildUserJson.sep_numbered,
    BuildUserJson.sep_blank.
  rewrite (isLF_false c H). reflexivity.
Qed.

Lemma split_line (x : str) :
  Spec.one_line x ->
  forall cur rest,
    BuildUserJson.split_from cur 0 (x ++ rest)
    = BuildUserJson.split_from (rev x ++ cur) 0 rest.
Proof.
  induction 1 as [|c x Hc _ IH]; intros cur rest; [reflexivity|].
  cbn [app BuildUserJson.split_from].
  rewrite (separator_not_lf c (x ++ rest) Hc), IH. cbn [rev].
  rewrite <- app_assoc. reflexivity.
Qed.

Lemma split_skip (x : str) :
  forall cur k rest,
    BuildUserJson.split_from cur (length x + k) (x ++ rest)
    = BuildUserJson.split_from cur k rest.
Proof.
  induction x as [|c x IH]; intros cur k rest; [reflexivity|].
  cbn [length Nat.add app BuildUserJson.split_from]. apply IH.
Qed.

(** The line feed before the reference line or the answer line of a
    record is no separator. *)
Lemma split_before_qref (cur : str) (rest : str) :
  BuildUserJson.split_from cur 0 (Spec.LF :: Py.lit "   Q_ref: " ++ rest)
  = BuildUserJson.split_from (Spec.LF :: cur) 0 (Py.lit "   Q_ref: " ++ rest).
Proof. reflexivity. Qed.

Lemma split_before_a (cur : str) (rest : str) :
  BuildUserJson.split_from cur 0 (Spec.LF :: Py.lit "   A: " ++ rest)
  = BuildUserJson.split_from (Spec.LF :: cur) 0 (Py.lit "   A: " ++ rest).
Proof. reflexivity. Qed.

(** The blank line and the number before a record are one separator. *)
Lemma separator_numbered (i : nat) (rest : str) :
  BuildUserJson.separator
    (Spec.LF :: Spec.LF :: Py.decimal i ++ Py.lit ". " ++ Py.lit "Q: " ++ rest)
  = Some (S (length (Spec.LF :: Py.decimal i ++ Py.lit ". ") + 0)).
Proof.
  destruct (decimal_digits i) as [Hne Hd].
  unfold BuildUserJson.separator, BuildUserJson.sep_numbered.
  change (Py.isLF Spec.LF) with true. cbn iota.
  destruct (Py.decimal i) as [|d ds] eqn:E; [contradiction|].
  assert (Hsp : Py.isspace d = false).
  { apply isdigit_not_space. inversion Hd. assumption. }
  cbn [Py.take_while Py.drop_while app].
  change (Py.isspace Spec.LF) with true. cbn iota.
  rewrite Hsp.
  change (ds ++ Py.lit ". " ++ Py.lit "Q: " ++ rest)
    with (ds ++ BuildUserJson.DOT :: Py.lit " Q: " ++ rest).
  destruct (take_while_stop Py.isdigit (d :: ds) BuildUserJson.DOT
                            (Py.lit " Q: " ++ rest) Hd eq_refl) as [T D].
  cbn [app] in T, D. rewrite T, D.
  change (Py.eqb_char BuildUserJson.DOT BuildUserJson.DOT) with true.
  cbn iota.
  change (Py.take_while Py.isspace (Py.lit " Q: " ++ rest))
    with [BuildRefText.SPACE].
  f_equal. cbn [length]. rewrite length_app.
  change (length (Py.lit ". ")) with 2. lia.
Qed.

Lemma split_numbered (cur : str) (i : nat) (rest : str) :
  BuildUserJson.split_from
    cur 0
    (Spec.LF :: Spec.LF :: Py.decimal i ++ Py.lit ". " ++ Py.lit "Q: " ++ rest)
  = rev cur :: BuildUserJson.split_from [] 0 (Py.lit "Q: " ++ rest).
Proof.
  cbn [BuildUserJson.split_from].
  rewrite separator_numbered. f_equal.
  rewrite (app_assoc (Py.decimal i) (Py.lit ". ") (Py.lit "Q: " ++ rest)).
  exact (split_skip (Spec.LF :: Py.decimal i ++ Py.lit ". ") [] 0
                    (Py.lit "Q: " ++ rest)).
Qed.

Lemma rev_three_lines (a b c : str) :
  rev (a ++ Spec.LF :: b ++ Spec.LF :: c)
  = rev c ++ Spec.LF :: rev b ++ Spec.LF :: rev a.
Proof.
  rewrite rev_app_distr. cbn [rev]. rewrite rev_app_distr. cbn [rev].
  rewrite <- !app_assoc. reflexivity.
Qed.

Lemma block_tail_lines (m : BuildRefText.matched_entry str) :
  Spec.block_tail m
  = (Py.lit "Q: " ++ BuildRefText.question m)
    ++ Spec.LF :: Spec.line_qref m ++ Spec.LF :: Spec.line_a m.
Proof.
  unfold Spec.block_tail. rewrite <- !app_assoc. reflexivity.
Qed.

Lemma exportable_one_line (m : BuildRefText.matched_entry str) :
  Spec.exportable m ->
  Spec.one_line (Py.lit "Q: " ++ BuildRefText.question m)
  /\ Spec.one_line (Spec.line_qref m)
  /\ Spec.one_line (Spec.line_a m).
Proof.
  intros [Hq [_ [_ [Hr [_ [_ [Ha _]]]]]]].
  unfold Spec.line_qref, Spec.line_a. repeat split; apply one_line_app;
    try (repeat constructor; discriminate).
  - exact (one_line_no_linebreak _ Hq).
  - exact (one_line_no_linebreak _ (no_linebreak_refchars _ Hr)).
  - exact (one_line_no_linebreak _ Ha).
Qed.

(** A record of the cleaned text holds no separator. *)
Lemma split_block (m : BuildRefText.matched_entry str) :
  Spec.exportable m ->
  forall cur rest,
    BuildUserJson.split_from cur 0 (Spec.block_tail m ++ rest)
    = BuildUserJson.split_from (rev (Spec.block_tail m) ++ cur) 0 rest.
Proof.
  intros Hm cur rest.
  destruct (exportable_one_line m Hm) as [HA [HB HC]].
  rewrite block_tail_lines, rev_three_lines.
  rewrite <- app_assoc. rewrite (split_line _ HA).
  rewrite <- app_comm_cons, <- app_assoc.
  change (Spec.line_qref m ++ (Spec.LF :: Spec.line_a m) ++ rest)
    with (Py.lit "   Q_ref: "
            ++ (BuildRefText.question_ref m
                  ++ (Spec.LF :: Spec.line_a m) ++ rest)).
  rewrite split_before_qref.
  change (Py.lit "   Q_ref: "
            ++ (BuildRefText.question_ref m
                  ++ (Spec.LF :: Spec.line_a m) ++ rest))
    with (Spec.line_qref m ++ (Spec.LF :: Spec.line_a m) ++ rest).
  rewrite (split_line _ HB).
  rewrite <- app_comm_cons.
  change (Spec.line_a m ++ rest)
    with (Py.lit "   A: " ++ (BuildRefText.answer m ++ rest)).
  rewrite split_before_a.
  change (Py.lit "   A: " ++ (BuildRefText.answer m ++ rest))
    with (Spec.line_a m ++ rest).
  rewrite (split_line _ HC). f_equal.
  norm_app. reflexivity.
Qed.

Lemma split_numbered_block (cur : str) (i : nat)
      (m : BuildRefText.matched_entry str) (rest : str) :
  BuildUserJson.split_from
    cur 0
    (Spec.LF :: Spec.LF
       :: Py.decimal i ++ Py.lit ". " ++ Spec.block_tail m ++ rest)
  = rev cur :: BuildUserJson.split_from [] 0 (Spec.block_tail m ++ rest).
Proof.
  change (Spec.block_tail m ++ rest)
    with (Py.lit "Q: "
            ++ ((BuildRefText.question m ++ [Spec.LF] ++ Spec.line_qref m
                   ++ [Spec.LF] ++ Spec.line_a m) ++ rest)).
  apply split_numbered.
Qed.

Lemma split_clean_rest (matched : list (BuildRefText.matched_entry str)) :
  Forall Spec.exportable matched ->
  forall i cur,
    BuildUserJson.split_from cur 0 (Spec.clean_rest i matched)
    = rev cur :: map Spec.block_tail matched.
Proof.
  induction 1 as [|m rest Hm _ IH]; intros i cur; [reflexivity|].
  cbn [Spec.clean_rest map].
  change ([Spec.LF; Spec.LF]
            ++ Py.decimal i ++ Py.lit ". "
            ++ Spec.block_tail m ++ Spec.clean_rest (S i) rest)
    with (Spec.LF :: Spec.LF
            :: Py.decimal i ++ Py.lit ". "
            ++ Spec.block_tail m ++ Spec.clean_rest (S i) rest).
  rewrite split_numbered_block, (split_block m Hm).
  rewrite app_nil_r, IH, rev_involutive. reflexivity.
Qed.

(** The blocks of the cleaned text of an exported text: the records,
    the first one after its number. *)
Lemma split_blocks_clean (i : nat) (m : BuildRefText.matched_entry str)
      (rest : list (BuildRefText.matched_entry str)) :
  Forall Spec.exportable (m :: rest) ->
  BuildUserJson.split_blocks (Spec.clean i (m :: rest))
  = (Py.decimal i ++ Py.lit ". " ++ Spec.block_tail m)
    :: map Spec.block_tail rest.
Proof.
  intros H. inversion H as [|? ? Hm Hrest]; subst.
  unfold BuildUserJson.split_blocks. cbn [Spec.clean].
  rewrite (app_assoc (Py.decimal i) (Py.lit ". ")).
  assert (Hn : Spec.one_line (Py.decimal i ++ Py.lit ". ")).
  { apply one_line_app.
    - apply one_line_no_linebreak, no_linebreak_digits.
      exact (proj2 (decimal_digits i)).
    - repeat constructor; discriminate. }
  rewrite (split_line _ Hn), (split_block m Hm).
  rewrite (split_clean_rest rest Hrest). f_equal.
  rewrite app_nil_r, rev_app_distr, !rev_involutive, <- app_assoc.
  reflexivity.
Qed.

(** ** The parser of the reference-aligned text *)

Lemma drop_space_lstrip (s : str) : Py.drop_while Py.isspace s = Py.lstrip s.
Proof.
  induction s as [|c s IH]; [reflexivity|].
  cbn [Py.drop_while Py.lstrip]. rewrite IH. reflexivity.
Qed.

Lemma lstrip_nil_blank (s : str) : Py.lstrip s = [] -> Spec.blank s.
Proof.
  induction s as [|c s IH]; [constructor|]. cbn [Py.lstrip].
  destruct (Py.isspace c) eqn:E; [|discriminate].
  intros H. constructor; [exact E | exact (IH H)].
Qed.

Lemma strip_lstrip (s : str) : Py.strip (Py.lstrip s) = Py.strip s.
Proof. unfold Py.strip. rewrite lstrip_idem. reflexivity. Qed.

Lemma blank_last (c : ascii) (s : str) :
  Spec.blank (c :: s) -> Py.isspace (last (c :: s) Difflib.NUL) = true.
Proof.
  revert c. induction s as [|d s IH]; intros c H; inversion H; subst.
  - assumption.
  - change (last (c :: d :: s) Difflib.NUL) with (last (d :: s) Difflib.NUL).
    apply IH. assumption.
Qed.

(** The group that follows a tag up to the end of the block: stripped,
    it is what follows the tag, stripped. *)
Lemma group_rest_strip (rest : str) :
  rest <> [] ->
  exists g, BuildUserJson.group_rest rest = Some g
            /\ Py.strip g = Py.strip rest.
Proof.
  intros Hne. unfold BuildUserJson.group_rest.
  rewrite drop_space_lstrip.
  destruct (Py.lstrip rest) as [|c g] eqn:E.
  - destruct rest as [|d rest]; [contradiction|].
    eexists. split; [reflexivity|].
    pose proof (lstrip_nil_blank _ E) as B.
    rewrite (strip_blank _ B).
    apply strip_blank. constructor; [|constructor].
    exact (blank_last d rest B).
  - exists (c :: g). split; [reflexivity|].
    rewrite <- E. apply strip_lstrip.
Qed.

Lemma take_while_Forall (p : ascii -> bool) (s : str) :
  Forall (fun c => p c = true) (Py.take_while p s).
Proof.
  induction s as [|c s IH]; [constructor|]. cbn [Py.take_while].
  destruct (p c) eqn:E; constructor; assumption.
Qed.

Lemma group_ref_some (rest g : str) :
  BuildUserJson.group_ref rest = Some g ->
  g <> [] /\ Forall (fun c => BuildUserJson.isrefchar c = true) g.
Proof.
  unfold BuildUserJson.group_ref.
  pose proof (take_while_Forall BuildUserJson.isrefchar
                                (Py.drop_while Py.isspace rest)) as F.
  destruct (Py.take_while BuildUserJson.isrefchar
                          (Py.drop_while Py.isspace rest)) as [|c t];
    [discriminate|].
  intros E. injection E as <-. split; [discriminate | exact F].
Qed.

Lemma search_some (tag : str) (group : str -> option str) (block g : str) :
  BuildUserJson.search tag group block = Some g ->
  exists rest, group rest = Some g.
Proof.
  induction block as [|c block IH]; cbn [BuildUserJson.search].
  - destruct (Py.startswith_ci tag []); [|discriminate].
    destruct (group (skipn (length tag) [])) eqn:E; [|discriminate].
    intros H. injection H as <-. eexists. exact E.
  - destruct (Py.startswith_ci tag (c :: block)).
    + destruct (group (skipn (length tag) (c :: block))) eqn:E.
      * intros H. injection H as <-. eexists. exact E.
      * exact IH.
    + exact IH.
Qed.

Lemma strip_no_space (s : str) :
  Forall (fun c => Py.isspace c = false) s -> Py.strip s = s.
Proof.
  intros H. apply trimmed_edges. split.
  - destruct H as [|c s Hc _]; [reflexivity | exact (lstrip_head c s Hc)].
  - apply rstrip_fixed_rev. apply Forall_rev in H.
    destruct H as [|c t Hc _]; [reflexivity | exact (lstrip_head c t Hc)].
Qed.

Lemma strip_refchars (g : str) :
  Forall (fun c => BuildUserJson.isrefchar c = true) g -> Py.strip g = g.
Proof.
  intros H. apply strip_no_space. eapply Forall_impl; [|exact H].
  exact isrefchar_not_space.
Qed.

Lemma truthy_nonempty (s : str) : Py.truthy s = true -> s <> [].
Proof. destruct s; [discriminate | discriminate]. Qed.

Lemma parse_block_invariant (st : BuildUserJson.parser_state) (block : str) :
  Spec.parser_invariant st ->
  Spec.parser_invariant (BuildUserJson.parse_block st block).
Proof.
  intros [Href Hent]. unfold BuildUserJson.parse_block.
  destruct (negb (Py.truthy (Py.strip block))); [split; assumption|].
  rewrite Href.
  destruct (BuildUserJson.search (Py.lit "Q_ref:") BuildUserJson.group_ref
                                 block) as [g|] eqn:Eref.
  - destruct (search_some _ _ _ _ Eref) as [rest Hg].
    destruct (group_ref_some rest g Hg) as [Hne Hg'].
    rewrite (strip_refchars g Hg').
    destruct (Py.truthy g) eqn:Tg;
      [|destruct g; [|discriminate Tg]; exfalso; apply Hne; reflexivity].
    cbn [andb negb].
    match goal with
    | |- context [if Py.truthy ?a then _ else _] =>
        destruct (Py.truthy a) eqn:Ta
    end.
    + split; [reflexivity|]. cbn [BuildUserJson.entries].
      apply Forall_app. split; [exact Hent|].
      constructor; [|constructor]. unfold Spec.complete_entry.
      cbn [BuildUserJson.ref BuildUserJson.answer].
      repeat split; [exact Hne | exact Hg' |].
      apply truthy_nonempty. exact Ta.
    + cbn [negb]. split; [reflexivity | exact Hent].
  - cbn [Py.truthy andb negb]. split; [reflexivity | exact Hent].
Qed.

Lemma parse_blocks_invariant (blocks : list str) :
  forall st,
    Spec.parser_invariant st ->
    Spec.parser_invariant (fold_left BuildUserJson.parse_block blocks st).
Proof.
  induction blocks as [|b blocks IH]; intros st H; [exact H|].
  cbn [fold_left]. apply IH. exact (parse_block_invariant st b H).
Qed.

(** X13.  Whatever the file holds, every entry that [parse_ref_text]
    returns has a non-empty reference made of letters, digits and hyphens
    only, and a non-empty answer. *)
Theorem parse_ref_text_entries_complete (content : str) :
  Forall Spec.complete_entry (BuildUserJson.parse_ref_text content).
Proof.
  unfold BuildUserJson.parse_ref_text.
  apply parse_blocks_invariant. split; [reflexivity | constructor].
Qed.

(** X14.  A reference-aligned file of white space only, the empty file
    included, gives no entry. *)
Theorem parse_ref_text_blank (content : str) :
  Spec.blank content -> BuildUserJson.parse_ref_text content = [].
Proof.
  intros H. unfold BuildUserJson.parse_ref_text.
  rewrite (strip_blank content H). reflexivity.
Qed.

Lemma parse_ref_text_blank_witness :
  BuildUserJson.parse_ref_text [ascii_of_nat 10; ascii_of_nat 32] = [].
Proof.
  exact (parse_ref_text_blank [ascii_of_nat 10; ascii_of_nat 32]
                              ltac:(repeat constructor)).
Defined.

(** ** Parsing an exported text *)

(** *** Searching a tag *)

Lemma search_unfold (tag : str) (group : str -> option str) (block : str) :
  BuildUserJson.search tag group block
  = match
      (if Py.startswith_ci tag block
       then group (skipn (length tag) block) else None)
    with
    | Some g => Some g
    | None =>
        match block with
        | [] => None
        | _ :: t => BuildUserJson.search tag group t
        end
    end.
Proof. destruct block; reflexivity. Qed.

Lemma startswith_ci_refl (tag rest : str) :
  Py.startswith_ci tag (tag ++ rest) = true.
Proof.
  induction tag as [|c tag IH]; [reflexivity|].
  cbn [app Py.startswith_ci]. rewrite IH.
  unfold Py.eqb_char. rewrite Ascii.eqb_refl. reflexivity.
Qed.

Lemma skipn_tag (tag rest : str) : skipn (length tag) (tag ++ rest) = rest.
Proof. induction tag as [|c tag IH]; [reflexivity | exact IH]. Qed.

Lemma search_here (tag : str) (group : str -> option str) (rest g : str) :
  group rest = Some g ->
  BuildUserJson.search tag group (tag ++ rest) = Some g.
Proof.
  intros H. rewrite search_unfold, startswith_ci_refl, skipn_tag, H.
  reflexivity.
Qed.

Lemma search_skip (t0 : ascii) (tag : str) (group : str -> option str)
      (pre rest : str) :
  Forall (fun c => Py.eqb_char (Py.lower_char t0) (Py.lower_char c) = false)
         pre ->
  BuildUserJson.search (t0 :: tag) group (pre ++ rest)
  = BuildUserJson.search (t0 :: tag) group rest.
Proof.
  induction 1 as [|c pre Hc _ IH]; [reflexivity|].
  cbn [app]. rewrite search_unfold. cbn [Py.startswith_ci].
  rewrite Hc. cbn [andb]. exact IH.
Qed.

Lemma lower_colon (c : ascii) :
  Py.eqb_char (Py.lower_char Spec.COLON) (Py.lower_char c) = true ->
  c = Spec.COLON.
Proof. each_char c. Qed.

Lemma startswith_ci_colon_free (body : str) :
  Forall (fun b => Py.eqb_char (Py.lower_char b) (Py.lower_char Spec.LF)
                   = false) body ->
  forall y rest,
    Forall (fun c => c <> Spec.COLON) y ->
    Py.startswith_ci (body ++ [Spec.COLON]) (y ++ Spec.LF :: rest) = false.
Proof.
  induction 1 as [|b body Hb _ IH]; intros y rest Hy.
  - destruct Hy as [|c y Hc _]; cbn [app Py.startswith_ci]; [reflexivity|].
    destruct (Py.eqb_char (Py.lower_char Spec.COLON) (Py.lower_char c))
      eqn:E; [|reflexivity].
    apply lower_colon in E. contradiction.
  - destruct Hy as [|c y Hc Hy]; cbn [app Py.startswith_ci].
    + rewrite Hb. reflexivity.
    + rewrite (IH y rest Hy). apply andb_false_r.
Qed.

(** A tag that ends with a colon is not found in a line without
    colon. *)
Lemma search_colon_free (body : str) (group : str -> option str)
      (y rest : str) :
  Forall (fun b => Py.eqb_char (Py.lower_char b) (Py.lower_char Spec.LF)
                   = false) body ->
  Forall (fun c => c <> Spec.COLON) y ->
  BuildUserJson.search (body ++ [Spec.COLON]) group (y ++ Spec.LF :: rest)
  = BuildUserJson.search (body ++ [Spec.COLON]) group (Spec.LF :: rest).
Proof.
  intros Hb Hy. induction Hy as [|c y Hc Hy IH]; [reflexivity|].
  rewrite search_unfold.
  rewrite (startswith_ci_colon_free body Hb (c :: y) rest
                                    (Forall_cons c Hc Hy)).
  exact IH.
Qed.

(** *** The three tags in a record *)

Lemma skip_q_for_qref (group : str -> option str) (x : str) :
  BuildUserJson.search (Py.lit "Q_ref:") group (Py.lit "Q: " ++ x)
  = BuildUserJson.search (Py.lit "Q_ref:") group x.
Proof. reflexivity. Qed.

Lemma skip_indent_for_qref (group : str -> option str) (x : str) :
  BuildUserJson.search (Py.lit "Q_ref:") group
                       (Spec.LF :: Py.lit "   Q_ref: " ++ x)
  = BuildUserJson.search (Py.lit "Q_ref:") group (Py.lit "Q_ref: " ++ x).
Proof. reflexivity. Qed.

Lemma skip_q_for_a (group : str -> option str) (x : str) :
  BuildUserJson.search (Py.lit "A:") group (Py.lit "Q: " ++ x)
  = BuildUserJson.search (Py.lit "A:") group x.
Proof. reflexivity. Qed.

Lemma skip_qref_for_a (group : str -> option str) (x : str) :
  BuildUserJson.search (Py.lit "A:") group
                       (Spec.LF :: Py.lit "   Q_ref: " ++ x)
  = BuildUserJson.search (Py.lit "A:") group x.
Proof. reflexivity. Qed.

Lemma skip_indent_for_a (group : str -> option str) (x : str) :
  BuildUserJson.search (Py.lit "A:") group (Spec.LF :: Py.lit "   A: " ++ x)
  = BuildUserJson.search (Py.lit "A:") group (Py.lit "A: " ++ x).
Proof. reflexivity. Qed.

Lemma block_tail_shape (m : BuildRefText.matched_entry str) :
  Spec.block_tail m
  = Py.lit "Q: "
      ++ (BuildRefText.question m
            ++ Spec.LF :: Py.lit "   Q_ref: "
            ++ (BuildRefText.question_ref m
                  ++ Spec.LF :: Py.lit "   A: " ++ BuildRefText.answer m)).
Proof. reflexivity. Qed.

Lemma refchars_colon_free (r : str) :
  Forall (fun c => BuildUserJson.isrefchar c = true) r ->
  Forall (fun c => c <> Spec.COLON) r.
Proof.
  intros H. eapply Forall_impl; [|exact H]. exact isrefchar_not_colon.
Qed.

Lemma q_search (m : BuildRefText.matched_entry str) (pre : str) :
  Forall (fun c => Py.eqb_char (Py.lower_char "Q"%char) (Py.lower_char c)
                   = false) pre ->
  exists g,
    BuildUserJson.search (Py.lit "Q:") BuildUserJson.group_rest
                         (pre ++ Spec.block_tail m) = Some g
    /\ Py.strip g = BuildUserJson.question (Spec.reparsed m).
Proof.
  intros Hpre.
  destruct (group_rest_strip
              (BuildRefText.SPACE
                 :: BuildRefText.question m
                 ++ Spec.LF :: Py.lit "   Q_ref: "
                 ++ (BuildRefText.question_ref m
                       ++ Spec.LF :: Py.lit "   A: " ++ BuildRefText.answer m))
              ltac:(discriminate)) as [g [Hg Hs]].
  exists g. split.
  - change (Py.lit "Q:") with ("Q"%char :: Py.lit ":").
    rewrite (search_skip "Q"%char (Py.lit ":") _ pre _ Hpre).
    exact (search_here (Py.lit "Q:") BuildUserJson.group_rest _ g Hg).
  - rewrite Hs. reflexivity.
Qed.

Lemma qref_search (m : BuildRefText.matched_entry str) (pre : str) :
  Spec.exportable m ->
  Forall (fun c => Py.eqb_char (Py.lower_char "Q"%char) (Py.lower_char c)
                   = false) pre ->
  BuildUserJson.search (Py.lit "Q_ref:") BuildUserJson.group_ref
                       (pre ++ Spec.block_tail m)
  = Some (BuildRefText.question_ref m).
Proof.
  intros [_ [Hq [Hr0 [Hr _]]]] Hpre.
  change (Py.lit "Q_ref:") with ("Q"%char :: Py.lit "_ref:").
  rewrite (search_skip "Q"%char (Py.lit "_ref:") _ pre _ Hpre).
  change ("Q"%char :: Py.lit "_ref:") with (Py.lit "Q_ref:").
  rewrite block_tail_shape, skip_q_for_qref.
  change (Py.lit "Q_ref:") with (Py.lit "Q_ref" ++ [Spec.COLON]).
  rewrite (search_colon_free (Py.lit "Q_ref") _ _ _
                             ltac:(repeat constructor) Hq).
  change (Py.lit "Q_ref" ++ [Spec.COLON]) with (Py.lit "Q_ref:").
  rewrite skip_indent_for_qref.
  apply (search_here (Py.lit "Q_ref:") BuildUserJson.group_ref
                     (BuildRefText.SPACE
                        :: BuildRefText.question_ref m
                        ++ Spec.LF :: Py.lit "   A: " ++ BuildRefText.answer m)).
  unfold BuildUserJson.group_ref.
  change (Py.drop_while Py.isspace (BuildRefText.SPACE :: ?x))
    with (Py.drop_while Py.isspace x).
  destruct (BuildRefText.question_ref m) as [|c r] eqn:E;
    [exfalso; apply Hr0; reflexivity|].
  assert (Hc : Py.isspace c = false).
  { apply isrefchar_not_space. inversion Hr. assumption. }
  cbn [app Py.drop_while]. rewrite Hc.
  destruct (take_while_stop BuildUserJson.isrefchar (c :: r) Spec.LF
                            (Py.lit "   A: " ++ BuildRefText.answer m)
                            Hr eq_refl) as [T _].
  cbn [app] in T. rewrite T. reflexivity.
Qed.

Lemma a_search (m : BuildRefText.matched_entry str) (pre : str) :
  Spec.exportable m ->
  Forall (fun c => Py.eqb_char (Py.lower_char "A"%char) (Py.lower_char c)
                   = false) pre ->
  exists g,
    BuildUserJson.search (Py.lit "A:") BuildUserJson.group_rest
                         (pre ++ Spec.block_tail m) = Some g
    /\ Py.strip g = BuildRefText.answer m.
Proof.
  intros [_ [Hq [_ [Hr [_ [Ha _]]]]]] Hpre.
  destruct (group_rest_strip (BuildRefText.SPACE :: BuildRefText.answer m)
                             ltac:(discriminate)) as [g [Hg Hs]].
  exists g. split.
  - change (Py.lit "A:") with ("A"%char :: Py.lit ":").
    rewrite (search_skip "A"%char (Py.lit ":") _ pre _ Hpre).
    change ("A"%char :: Py.lit ":") with (Py.lit "A:").
    rewrite block_tail_shape, skip_q_for_a.
    change (Py.lit "A:") with (Py.lit "A" ++ [Spec.COLON]).
    rewrite (search_colon_free (Py.lit "A") _ _ _
                               ltac:(repeat constructor) Hq).
    change (Py.lit "A" ++ [Spec.COLON]) with (Py.lit "A:").
    rewrite skip_qref_for_a.
    change (Py.lit "A:") with (Py.lit "A" ++ [Spec.COLON]).
    rewrite (search_colon_free (Py.lit "A") _ _ _
                               ltac:(repeat constructor)
                               (refchars_colon_free _ Hr)).
    change (Py.lit "A" ++ [Spec.COLON]) with (Py.lit "A:").
    rewrite skip_indent_for_a.
    exact (search_here (Py.lit "A:") BuildUserJson.group_rest _ g Hg).
  - rewrite Hs.
    change (Py.strip (BuildRefText.SPACE :: BuildRefText.answer m))
      with (Py.strip (BuildRefText.answer m)).
    exact Ha.
Qed.

Lemma lstrip_keeps (c : ascii) (s : str) :
  In c s -> Py.isspace c = false -> In c (Py.lstrip s).
Proof.
  intros Hin Hc. induction s as [|d s IH]; [destruct Hin|].
  cbn [Py.lstrip]. destruct (Py.isspace d) eqn:E; [|exact Hin].
  destruct Hin as [-> | Hin]; [congruence | exact (IH Hin)].
Qed.

Lemma strip_keeps (c : ascii) (s : str) :
  In c s -> Py.isspace c = false -> Py.truthy (Py.strip s) = true.
Proof.
  intros Hin Hc.
  assert (H : In c (Py.strip s)).
  { unfold Py.strip, Py.rstrip. apply in_rev. rewrite rev_involutive.
    apply lstrip_keeps; [|exact Hc]. apply -> in_rev.
    apply lstrip_keeps; [exact Hin | exact Hc]. }
  destruct (Py.strip s); [destruct H | reflexivity].
Qed.

(** A record of the cleaned text gives one entry. *)
Lemma parse_block_record (st : BuildUserJson.parser_state)
      (m : BuildRefText.matched_entry str) (pre : str) :
  Spec.exportable m ->
  Forall (fun c => Py.eqb_char (Py.lower_char "Q"%char) (Py.lower_char c)
                   = false) pre ->
  Forall (fun c => Py.eqb_char (Py.lower_char "A"%char) (Py.lower_char c)
                   = false) pre ->
  BuildUserJson.parse_block st (pre ++ Spec.block_tail m)
  = {| BuildUserJson.entries := BuildUserJson.entries st ++ [Spec.reparsed m];
       BuildUserJson.current_q := [];
       BuildUserJson.current_ref := [];
       BuildUserJson.current_a := [] |}.
Proof.
  intros Hm HQ HA. unfold BuildUserJson.parse_block.
  rewrite (strip_keeps "Q"%char (pre ++ Spec.block_tail m)).
  - cbn [negb].
    destruct (q_search m pre HQ) as [gq [Eq Sq]].
    destruct (a_search m pre Hm HA) as [ga [Ea Sa]].
    rewrite Eq, Ea, (qref_search m pre Hm HQ), Sq, Sa.
    destruct Hm as [_ [_ [Hr0 [Hr [Ha0 _]]]]].
    rewrite (strip_refchars _ Hr).
    destruct (BuildRefText.question_ref m) as [|c r] eqn:Er;
      [exfalso; apply Hr0; reflexivity|].
    destruct (BuildRefText.answer m) as [|d a] eqn:Ean;
      [exfalso; apply Ha0; reflexivity|].
    cbn [Py.truthy andb]. unfold Spec.reparsed at 2.
    rewrite Er, Ean. reflexivity.
  - apply in_or_app. right. rewrite block_tail_shape. left. reflexivity.
  - reflexivity.
Qed.

Lemma parse_blocks_records (rest : list (BuildRefText.matched_entry str)) :
  Forall Spec.exportable rest ->
  forall st,
    BuildUserJson.entries
      (fold_left BuildUserJson.parse_block (map Spec.block_tail rest) st)
    = BuildUserJson.entries st ++ map Spec.reparsed rest.
Proof.
  induction 1 as [|m rest Hm _ IH]; intros st; cbn [map fold_left].
  - rewrite app_nil_r. reflexivity.
  - pose proof (parse_block_record st m [] Hm (Forall_nil _) (Forall_nil _))
      as B.
    cbn [app] in B. rewrite B, IH. cbn [BuildUserJson.entries]. rewrite <- app_assoc.
    reflexivity.
Qed.

Lemma number_prefix (i : nat) (t0 : ascii) :
  Py.isdigit t0 = false ->
  Py.eqb_char (Py.lower_char t0) (Py.lower_char "."%char) = false ->
  Py.eqb_char (Py.lower_char t0) (Py.lower_char " "%char) = false ->
  Py.islower_ascii (Py.lower_char t0) = true ->
  Forall (fun c => Py.eqb_char (Py.lower_char t0) (Py.lower_char c) = false)
         (Py.decimal i ++ Py.lit ". ").
Proof.
  intros Hd Hdot Hsp Hl. apply Forall_app. split.
  - eapply Forall_impl; [|exact (proj2 (decimal_digits i))].
    intros c Hc. cbv beta in Hc.
    destruct (Py.eqb_char (Py.lower_char t0) (Py.lower_char c)) eqn:E;
      [|reflexivity].
    apply eqb_char_eq in E. exfalso. revert Hl. rewrite E. clear - Hc.
    revert Hc. each_char c.
  - constructor; [exact Hdot|]. constructor; [exact Hsp | constructor].
Qed.

(** The parser on an exported text: one entry for each record, in
    order. *)
Lemma parse_exported (i : nat)
      (matched : list (BuildRefText.matched_entry str)) :
  Forall Spec.exportable matched ->
  BuildUserJson.parse_ref_text (BuildRefText.export_from i matched)
  = map Spec.reparsed matched.
Proof.
  intros H. unfold BuildUserJson.parse_ref_text.
  rewrite (clean_text_of_export i matched H).
  destruct matched as [|m rest]; [reflexivity|].
  rewrite (split_blocks_clean i m rest H).
  inversion H as [|? ? Hm Hrest]; subst.
  cbn [fold_left]. rewrite app_assoc.
  rewrite (parse_block_record _ m (Py.decimal i ++ Py.lit ". ") Hm).
  - rewrite (parse_blocks_records rest Hrest). reflexivity.
  - apply number_prefix; reflexivity.
  - apply number_prefix; reflexivity.
Qed.

(** X15.  The references and the answers survive the way through the
    text file: for matched entries whose title has no line break and no
    colon, whose reference is a non-empty run of letters, digits and
    hyphens, and whose answer is non-empty, trimmed and of one line,
    parsing the exported text gives one entry for each of them, in order,
    with the same reference and the same answer. *)
Theorem export_then_parse_keeps_refs_and_answers
        (matched : list (BuildRefText.matched_entry str)) :
  Forall Spec.exportable matched ->
  length (BuildUserJson.parse_ref_text (BuildRefText.export_text matched))
  = length matched
  /\ map BuildUserJson.ref
         (BuildUserJson.parse_ref_text (BuildRefText.export_text matched))
     = map (@BuildRefText.question_ref str) matched
  /\ map BuildUserJson.answer
         (BuildUserJson.parse_ref_text (BuildRefText.export_text matched))
     = map (@BuildRefText.answer str) matched.
Proof.
  intros H. unfold BuildRefText.export_text.
  rewrite (parse_exported 1 matched H).
  rewrite length_map, !map_map. repeat split.
Qed.

Lemma export_then_parse_keeps_refs_and_answers_witness :
  map BuildUserJson.ref
      (BuildUserJson.parse_ref_text
         (BuildRefText.export_text
            [BuildRefText.mkMatched (Py.lit "What is your age?")
               (Py.lit "age-1") (Py.lit "29 years old") (Py.lit "age-1")
               BuildRefText.EXACT;
             BuildRefText.mkMatched (Py.lit "Where to?") (Py.lit "dest")
               (Py.lit "Lisbon") (Py.lit "dest") BuildRefText.FUZZY]))
  = [Py.lit "age-1"; Py.lit "dest"].
Proof.
  refine (proj1 (proj2 (export_then_parse_keeps_refs_and_answers
            [BuildRefText.mkMatched (Py.lit "What is your age?")
               (Py.lit "age-1") (Py.lit "29 years old") (Py.lit "age-1")
               BuildRefText.EXACT;
             BuildRefText.mkMatched (Py.lit "Where to?") (Py.lit "dest")
               (Py.lit "Lisbon") (Py.lit "dest") BuildRefText.FUZZY] _))).
  repeat first [ split | constructor | discriminate | reflexivity ].
Defined.

Lemma lstrip_suffix (y z : str) :
  z <> [] -> Py.lstrip z = z -> exists w, Py.lstrip (y ++ z) = w ++ z.
Proof.
  intros Hz Lz. induction y as [|c y IH].
  - exists []. exact Lz.
  - cbn [app Py.lstrip]. destruct (Py.isspace c); [exact IH|].
    exists (c :: y). reflexivity.
Qed.

Lemma strip_suffix (y z : str) :
  z <> [] -> Spec.trimmed z -> exists w, Py.strip (y ++ z) = w ++ z.
Proof.
  intros Hz Tz. apply trimmed_edges in Tz. destruct Tz as [Lz Rz].
  destruct (lstrip_suffix y z Hz Lz) as [w E]. exists w.
  unfold Py.strip. rewrite E. exact (rstrip_app_fixed w z Hz Rz).
Qed.

Lemma reparsed_question_two_lines (m : BuildRefText.matched_entry str) :
  Spec.exportable m ->
  In Spec.LF (BuildUserJson.question (Spec.reparsed m)).
Proof.
  intros [_ [_ [_ [_ [Ha0 [Ha _]]]]]].
  assert (Hz : Spec.trimmed
                 (Py.lit "Q_ref: "
                    ++ (BuildRefText.question_ref m ++ Spec.LF :: Py.lit "   A: ")
                    ++ BuildRefText.answer m)).
  { apply trimmed_edges. split; [reflexivity|].
    rewrite app_assoc. apply rstrip_app_fixed; [exact Ha0|].
    exact (proj2 (proj1 (trimmed_edges _) Ha)). }
  assert (Hne : Py.lit "Q_ref: "
                  ++ (BuildRefText.question_ref m ++ Spec.LF :: Py.lit "   A: ")
                  ++ BuildRefText.answer m <> []) by discriminate.
  destruct (strip_suffix
              (BuildRefText.question m ++ Spec.LF :: Py.lit "   ")
              _ Hne Hz) as [w E].
  assert (Eq : BuildUserJson.question (Spec.reparsed m)
               = Py.strip ((BuildRefText.question m ++ Spec.LF :: Py.lit "   ")
                             ++ Py.lit "Q_ref: "
                             ++ (BuildRefText.question_ref m
                                   ++ Spec.LF :: Py.lit "   A: ")
                             ++ BuildRefText.answer m)).
  { cbn [Spec.reparsed BuildUserJson.question]. f_equal.
    unfold Spec.line_qref, Spec.line_a. rewrite <- !app_assoc.
    reflexivity. }
  rewrite Eq, E. apply in_or_app. right.
  apply in_or_app. right. apply in_or_app. left.
  apply in_or_app. right. left. reflexivity.
Qed.

(** X16.  The question does not survive the way through the text file:
    the group of the question tag runs to the end of the block, so the
    question of a parsed entry is the title followed by the reference
    line and the answer line of the record, and never the title alone. *)
Theorem export_then_parse_question_takes_whole_record
        (matched : list (BuildRefText.matched_entry str)) :
  Forall Spec.exportable matched ->
  Forall2 (fun m e =>
             BuildUserJson.question e
             = Py.strip (BuildRefText.question m
                         ++ [Spec.LF] ++ Py.lit "   Q_ref: "
                         ++ BuildRefText.question_ref m
                         ++ [Spec.LF] ++ Py.lit "   A: "
                         ++ BuildRefText.answer m)
             /\ BuildUserJson.question e <> BuildRefText.question m)
          matched
          (BuildUserJson.parse_ref_text (BuildRefText.export_text matched)).
Proof.
  intros H. unfold BuildRefText.export_text.
  rewrite (parse_exported 1 matched H).
  induction H as [|m rest Hm _ IH]; cbn [map]; constructor; [|exact IH].
  split.
  - cbn [Spec.reparsed BuildUserJson.question].
    unfold Spec.line_qref, Spec.line_a. rewrite <- !app_assoc. reflexivity.
  - intros E. pose proof (reparsed_question_two_lines m Hm) as Hin.
    rewrite E in Hin. destruct Hm as [Hq _].
    unfold Spec.no_linebreak in Hq. rewrite Forall_forall in Hq.
    specialize (Hq Spec.LF Hin). discriminate Hq.
Qed.

Lemma export_then_parse_question_takes_whole_record_witness :
  Forall2 (fun m e =>
             BuildUserJson.question e
             = Py.strip (BuildRefText.question m
                         ++ [Spec.LF] ++ Py.lit "   Q_ref: "
                         ++ BuildRefText.question_ref m
                         ++ [Spec.LF] ++ Py.lit "   A: "
                         ++ BuildRefText.answer m)
             /\ BuildUserJson.question e <> BuildRefText.question m)
          [BuildRefText.mkMatched (Py.lit "Where to?") (Py.lit "dest")
             (Py.lit "Lisbon") (Py.lit "dest") BuildRefText.FUZZY]
          (BuildUserJson.parse_ref_text
             (BuildRefText.export_text
                [BuildRefText.mkMatched (Py.lit "Where to?") (Py.lit "dest")
                   (Py.lit "Lisbon") (Py.lit "dest") BuildRefText.FUZZY])).
Proof.
  apply (export_then_parse_question_takes_whole_record
           [BuildRefText.mkMatched (Py.lit "Where to?") (Py.lit "dest")
              (Py.lit "Lisbon") (Py.lit "dest") BuildRefText.FUZZY]).
  repeat first [ split | constructor | discriminate | reflexivity ].
Defined.

(** ** From the builder to the normaliser *)

Section Compose.

Variable schema_map : Dict.t BuildUserJson.field_info.

Lemma resolved_string_type (es : list BuildUserJson.entry)
      (e : BuildUserJson.entry) :
  Spec.string_types schema_map es -> In e es ->
  exists s, BuildUserJson.type_ (Spec.resolved schema_map e) = JStr s.
Proof.
  intros Hty Hin. unfold Spec.resolved, BuildUserJson.resolve.
  destruct (Dict.get (BuildUserJson.ref e) schema_map) as [f|] eqn:E.
  - exact (Hty e f Hin E).
  - eexists. reflexivity.
Qed.

Lemma resolved_string_id (es : list BuildUserJson.entry)
      (e : BuildUserJson.entry) :
  Spec.string_ids schema_map es -> In e es ->
  exists i, BuildUserJson.id (Spec.resolved schema_map e) = JStr i.
Proof.
  intros Hid Hin. unfold Spec.resolved, BuildUserJson.resolve.
  destruct (Dict.get (BuildUserJson.ref e) schema_map) as [f|] eqn:E.
  - exact (Hid e f Hin E).
  - eexists. reflexivity.
Qed.

(** The answer that the builder writes for a kind it infers. *)
Lemma answer_of_shape (f : BuildUserJson.field_info) (kind : str) (v : json) :
  kind = Py.lit "number" \/ kind = Py.lit "choice" \/ kind = Py.lit "text" ->
  BuildUserJson.answer_of f kind [(kind, v)]
  = JObj [(Py.lit "field",
           JObj [(Py.lit "id", BuildUserJson.id f);
                 (Py.lit "type", BuildUserJson.type_ f)]);
          (Py.lit "type", JStr kind);
          (kind, v)].
Proof. intros [-> | [-> | ->]]; reflexivity. Qed.

Lemma detect_choice_label (hint answer : str) (v : json) :
  BuildUserJson.detect_answer_type (JStr hint) answer
  = ok (Py.lit "choice", [(Py.lit "choice", v)]) ->
  v = JObj [(Py.lit "label", JStr (Py.strip answer))].
Proof.
  unfold BuildUserJson.detect_answer_type.
  destruct (_ || _ || BuildUserJson.starts_with_digit _).
  - destruct (BuildUserJson.first_digit_run _); discriminate.
  - destruct (_ || _ || _); [|discriminate].
    intros E. injection E as <-. reflexivity.
Qed.

(** The builder, entry by entry. *)
Lemma build_entries_shape (all : list BuildUserJson.entry)
      (es : list BuildUserJson.entry) :
  Spec.string_types schema_map all ->
  incl es all ->
  forall st,
  exists st' answers,
    BuildUserJson.build_entries schema_map st es = ok st'
    /\ BuildUserJson.fields st'
       = BuildUserJson.fields st
         ++ map (fun e => BuildUserJson.definition_of
                            (Spec.resolved schema_map e)) es
    /\ BuildUserJson.answers st' = BuildUserJson.answers st ++ answers
    /\ Forall2 (fun e a =>
                  exists kind v,
                    BuildUserJson.detect_answer_type
                      (BuildUserJson.type_ (Spec.resolved schema_map e))
                      (BuildUserJson.answer e)
                    = ok (kind, [(kind, v)])
                    /\ (kind = Py.lit "number" \/ kind = Py.lit "choice"
                        \/ kind = Py.lit "text")
                    /\ a = BuildUserJson.answer_of
                             (Spec.resolved schema_map e) kind [(kind, v)])
               es answers.
Proof.
  intros Hty. induction es as [|e es IH]; intros Hin st.
  - exists st, []. cbn [BuildUserJson.build_entries map].
    rewrite !app_nil_r. repeat split. constructor.
  - assert (He : In e all) by (apply Hin; left; reflexivity).
    destruct (resolved_string_type all e Hty He) as [s Hs].
    destruct (detect_answer_type_total s (BuildUserJson.answer e))
      as [kind [v [Hd Hk]]].
    cbn [BuildUserJson.build_entries]. unfold BuildUserJson.build_entry.
    unfold Spec.resolved in Hs.
    destruct (BuildUserJson.resolve schema_map e) as [warned f] eqn:R.
    cbn [snd] in Hs. rewrite Hs, Hd. cbn [bind ok].
    match goal with
    | |- context [BuildUserJson.build_entries schema_map ?s es] =>
        destruct (IH (fun x Hx => Hin x (or_intror Hx)) s)
          as [st' [answers [E [Hf [Ha HF]]]]]
    end.
    exists st', (BuildUserJson.answer_of f kind [(kind, v)] :: answers).
    split; [exact E|]. cbn [BuildUserJson.fields BuildUserJson.answers] in Hf, Ha.
    split; [|split].
    + rewrite Hf, <- app_assoc. cbn [map app]. unfold Spec.resolved.
      rewrite R. reflexivity.
    + rewrite Ha, <- app_assoc. reflexivity.
    + constructor; [|exact HF]. exists kind, v. unfold Spec.resolved.
      rewrite R. cbn [snd]. rewrite Hs. repeat split; assumption.
Qed.


(** *** The definitions of a payload, by id *)

Lemma key_eqb_str (b : str) (k : json) :
  Json.key_eqb (JStr b) k = true -> k = JStr b.
Proof.
  destruct k; cbn [Json.key_eqb]; try discriminate.
  intros E. apply py_eqb_eq in E. rewrite E. reflexivity.
Qed.

Lemma by_id_get_set_str (a b : str) (v : Dict.t json)
      (m : NormalizeTypeform.by_id) :
  NormalizeTypeform.by_id_get (JStr a) (NormalizeTypeform.by_id_set (JStr b) v m)
  = if Py.eqb a b then Some v else NormalizeTypeform.by_id_get (JStr a) m.
Proof.
  induction m as [|[k' v'] m IH];
    cbn [NormalizeTypeform.by_id_set NormalizeTypeform.by_id_get].
  - reflexivity.
  - destruct (Json.key_eqb (JStr b) k') eqn:Eb.
    + apply key_eqb_str in Eb. subst k'.
      cbn [NormalizeTypeform.by_id_get Json.key_eqb].
      destruct (Py.eqb a b); reflexivity.
    + cbn [NormalizeTypeform.by_id_get]. rewrite IH.
      destruct (Json.key_eqb (JStr a) k') eqn:Ea; [|reflexivity].
      destruct (Py.eqb a b) eqn:Eab; [|reflexivity].
      apply key_eqb_str in Ea. apply py_eqb_eq in Eab. subst.
      cbn [Json.key_eqb] in Eb. rewrite py_eqb_refl in Eb. discriminate.
Qed.

Lemma by_id_fold_get (fl : list BuildUserJson.field_info) :
  Forall (fun f => exists i, BuildUserJson.id f = JStr i) fl ->
  forall (m0 : NormalizeTypeform.by_id) (i : str),
    NormalizeTypeform.by_id_get
      (JStr i)
      (fold_left (fun m f =>
                    NormalizeTypeform.by_id_set
                      (BuildUserJson.id f)
                      [(Py.lit "title", BuildUserJson.title f);
                       (Py.lit "type", BuildUserJson.type_ f)] m)
                 fl m0)
    = match Spec.last_same_id (JStr i) fl with
      | Some f' => Some [(Py.lit "title", BuildUserJson.title f');
                         (Py.lit "type", BuildUserJson.type_ f')]
      | None => NormalizeTypeform.by_id_get (JStr i) m0
      end.
Proof.
  induction 1 as [|f fl [j Hj] _ IH]; intros m0 i; [reflexivity|].
  cbn [fold_left Spec.last_same_id]. rewrite IH.
  destruct (Spec.last_same_id (JStr i) fl); [reflexivity|].
  rewrite Hj, by_id_get_set_str. cbn [Json.key_eqb].
  destruct (Py.eqb i j); reflexivity.
Qed.

Lemma add_fields_definitions (fl : list BuildUserJson.field_info) :
  Forall (fun f => exists i, BuildUserJson.id f = JStr i) fl ->
  forall m0,
    NormalizeTypeform.add_fields m0 (map BuildUserJson.definition_of fl)
    = ok (fold_left (fun m f =>
                       NormalizeTypeform.by_id_set
                         (BuildUserJson.id f)
                         [(Py.lit "title", BuildUserJson.title f);
                          (Py.lit "type", BuildUserJson.type_ f)] m)
                    fl m0).
Proof.
  induction 1 as [|f fl [j Hj] _ IH]; intros m0; [reflexivity|].
  cbn [map NormalizeTypeform.add_fields fold_left].
  assert (E : NormalizeTypeform.add_field m0 (BuildUserJson.definition_of f)
              = ok (NormalizeTypeform.by_id_set
                      (BuildUserJson.id f)
                      [(Py.lit "title", BuildUserJson.title f);
                       (Py.lit "type", BuildUserJson.type_ f)] m0)).
  { unfold NormalizeTypeform.add_field, BuildUserJson.definition_of.
    rewrite Hj. reflexivity. }
  rewrite E. cbn [bind ok]. apply IH.
Qed.

(** *** The answers of a payload, normalised *)

Lemma normalize_built_answer (m : NormalizeTypeform.by_id) (i : str)
      (ty t' ty' : json) (kind : str) (v : json) (answer : str) :
  kind = Py.lit "number" \/ kind = Py.lit "choice" \/ kind = Py.lit "text" ->
  (kind = Py.lit "choice" ->
   v = JObj [(Py.lit "label", JStr answer)]) ->
  NormalizeTypeform.by_id_get (JStr i) m
  = Some [(Py.lit "title", t'); (Py.lit "type", ty')] ->
  NormalizeTypeform.normalize_answer
    m
    (JObj [(Py.lit "field", JObj [(Py.lit "id", JStr i); (Py.lit "type", ty)]);
           (Py.lit "type", JStr kind);
           (kind, v)])
  = ok (JObj [(Py.lit "field_id", JStr i);
              (Py.lit "field_title", t');
              (Py.lit "field_type", if Json.truthy ty' then ty' else ty);
              (Py.lit "answer_type", JStr kind);
              (Py.lit "value",
               if Py.eqb kind (Py.lit "choice") then JStr answer else v)]).
Proof.
  intros Hk Hv Hm. unfold NormalizeTypeform.normalize_answer.
  destruct Hk as [-> | [-> | ->]].
  - cbn. rewrite Hm. reflexivity.
  - rewrite (Hv eq_refl). cbn. rewrite Hm. reflexivity.
  - cbn. rewrite Hm. reflexivity.
Qed.


Lemma last_same_id_found (k : json) (fl : list BuildUserJson.field_info)
      (f : BuildUserJson.field_info) :
  In f fl -> Json.key_eqb k (BuildUserJson.id f) = true ->
  exists f', Spec.last_same_id k fl = Some f'.
Proof.
  induction fl as [|g fl IH]; intros Hin Hk; [destruct Hin|].
  cbn [Spec.last_same_id].
  destruct (Spec.last_same_id k fl) as [f'|] eqn:E; [exists f'; reflexivity|].
  destruct Hin as [-> | Hin].
  - rewrite Hk. exists f. reflexivity.
  - destruct (IH Hin Hk) as [f' Hf']. discriminate Hf'.
Qed.

Lemma normalize_payload (form_id form_title : json) (landed submitted : str)
      (ds answers outs : list json) (m : NormalizeTypeform.by_id) :
  NormalizeTypeform.add_fields [] ds = ok m ->
  for_each (NormalizeTypeform.normalize_answer m) answers = ok outs ->
  NormalizeTypeform.normalize_typeform
    (JObj [
       (Py.lit "event_id", JStr (Py.lit "mock_event_001"));
       (Py.lit "event_type", JStr (Py.lit "form_response"));
       (Py.lit "form_response", JObj [
          (Py.lit "form_id", form_id);
          (Py.lit "token", JStr (Py.lit "mock_token_123"));
          (Py.lit "landed_at", JStr (landed ++ Py.lit "Z"));
          (Py.lit "submitted_at", JStr (submitted ++ Py.lit "Z"));
          (Py.lit "hidden",
           JObj [(Py.lit "user_id", JStr (Py.lit "12345"))]);
          (Py.lit "definition", JObj [
             (Py.lit "id", form_id);
             (Py.lit "title", form_title);
             (Py.lit "fields", JArr ds)]);
          (Py.lit "answers", JArr answers)])])
  = ok (JObj [(Py.lit "meta", Spec.normalized_meta form_id landed submitted);
              (Py.lit "answers", JArr outs)]).
Proof.
  intros H1 H2. unfold NormalizeTypeform.normalize_typeform.
  cbn [Json.item Json.get Json.get_default Json.iter Dict.get Py.eqb
       Py.eqb_char Py.lit String.list_ascii_of_string Ascii.eqb Bool.eqb
       andb bind ok].
  change (inr ds) with (ok ds). cbn [bind].
  rewrite H1. cbn [bind ok]. rewrite H2. reflexivity.
Qed.

Lemma normalize_built_answers (all : list BuildUserJson.entry)
      (m : NormalizeTypeform.by_id) :
  Spec.string_types schema_map all ->
  Spec.string_ids schema_map all ->
  (forall i,
      NormalizeTypeform.by_id_get (JStr i) m
      = match Spec.last_same_id (JStr i) (map (Spec.resolved schema_map) all)
        with
        | Some f' => Some [(Py.lit "title", BuildUserJson.title f');
                           (Py.lit "type", BuildUserJson.type_ f')]
        | None => None
        end) ->
  forall es answers,
    incl es all ->
    Forall2 (fun e a =>
               exists kind v,
                 BuildUserJson.detect_answer_type
                   (BuildUserJson.type_ (Spec.resolved schema_map e))
                   (BuildUserJson.answer e)
                 = ok (kind, [(kind, v)])
                 /\ (kind = Py.lit "number" \/ kind = Py.lit "choice"
                     \/ kind = Py.lit "text")
                 /\ a = BuildUserJson.answer_of
                          (Spec.resolved schema_map e) kind [(kind, v)])
            es answers ->
    exists outs,
      for_each (NormalizeTypeform.normalize_answer m) answers = ok outs
      /\ Forall2 (Spec.normalized_entry schema_map all) es outs.
Proof.
  intros Hty Hid Hm es answers Hin H.
  induction H as [|e a es answers [kind [v [Hd [Hk Ha]]]] _ IH].
  - exists []. split; [reflexivity | constructor].
  - assert (He : In e all) by (apply Hin; left; reflexivity).
    destruct (IH (fun x Hx => Hin x (or_intror Hx))) as [outs [E F]].
    destruct (resolved_string_type all e Hty He) as [s Hs].
    destruct (resolved_string_id all e Hid He) as [i Hi].
    destruct (last_same_id_found
                (JStr i) (map (Spec.resolved schema_map) all)
                (Spec.resolved schema_map e)) as [f' Hf'].
    { apply in_map. exact He. }
    { rewrite Hi. cbn [Json.key_eqb]. apply py_eqb_refl. }
    pose proof (Hm i) as Hg. rewrite Hf' in Hg.
    assert (Hv : kind = Py.lit "choice" ->
                 v = JObj [(Py.lit "label",
                            JStr (Py.strip (BuildUserJson.answer e)))]).
    { intros ->. rewrite Hs in Hd.
      exact (detect_choice_label s (BuildUserJson.answer e) v Hd). }
    pose proof (normalize_built_answer
                  m i (BuildUserJson.type_ (Spec.resolved schema_map e))
                  (BuildUserJson.title f') (BuildUserJson.type_ f')
                  kind v (Py.strip (BuildUserJson.answer e)) Hk Hv Hg) as N.
    rewrite (answer_of_shape (Spec.resolved schema_map e) kind v Hk) in Ha.
    rewrite Hi in Ha. subst a.
    eexists. split.
    + cbn [for_each]. rewrite N. cbn [bind ok]. rewrite E. reflexivity.
    + constructor; [|exact F].
      exists kind, v, f'. rewrite Hi. repeat split; assumption.
Qed.

(** X17.  The builder and the normaliser compose: when the type hints
    and the field ids that the entries reach in the schema are strings,
    the payload built from the entries is normalised without error, into
    the meta data of the payload and one answer for each entry, in order,
    that holds the id of the entry's field, the kind inferred for the
    answer and, as value, the float inferred from the digits of the
    answer or the trimmed answer; its title and type are those of the
    last definition with the same id. *)
Theorem build_then_normalize
        (landed submitted : str) (es : list BuildUserJson.entry)
        (form_id form_title : json) :
  Spec.string_types schema_map es ->
  Spec.string_ids schema_map es ->
  exists diagnostics payload outs,
    BuildUserJson.build_typeform_json landed submitted es schema_map
                                      form_id form_title
    = ok (diagnostics, payload)
    /\ NormalizeTypeform.normalize_typeform payload
       = ok (JObj [(Py.lit "meta",
                    Spec.normalized_meta form_id landed submitted);
                   (Py.lit "answers", JArr outs)])
    /\ Forall2 (Spec.normalized_entry schema_map es) es outs.
Proof.
  intros Hty Hid.
  destruct (build_entries_shape
              es es Hty (incl_refl es)
              {| BuildUserJson.warnings := []; BuildUserJson.fields := [];
                 BuildUserJson.answers := [] |})
    as [st' [answers [E [Hf [Ha HF]]]]].
  cbn [BuildUserJson.fields BuildUserJson.answers app] in Hf, Ha.
  assert (Hids : Forall (fun f => exists i, BuildUserJson.id f = JStr i)
                        (map (Spec.resolved schema_map) es)).
  { apply Forall_forall. intros f Hin. apply in_map_iff in Hin.
    destruct Hin as [e [<- Hin]]. exact (resolved_string_id es e Hid Hin). }
  pose proof (add_fields_definitions _ Hids []) as A.
  rewrite map_map in A.
  destruct (normalize_built_answers
              es _ Hty Hid
              (fun i => by_id_fold_get _ Hids [] i)
              es answers (incl_refl es) HF) as [outs [N F]].
  unfold BuildUserJson.build_typeform_json. rewrite E. cbn [bind ok].
  eexists _, _, outs. split; [reflexivity|]. split; [|exact F].
  rewrite Hf, Ha. exact (normalize_payload _ _ _ _ _ _ _ _ A N).
Qed.

End Compose.

Lemma build_then_normalize_witness :
  exists diagnostics payload outs,
    BuildUserJson.build_typeform_json
      (Py.lit "t0") (Py.lit "t1")
      [BuildUserJson.mkEntry (Py.lit "r1") (Py.lit "Age?") (Py.lit "29");
       BuildUserJson.mkEntry (Py.lit "trip") (Py.lit "Where?")
                             (Py.lit " Lisbon ")]
      [(Py.lit "r1",
        BuildUserJson.mkInfo (JStr (Py.lit "id1")) (JStr (Py.lit "Age?"))
                             (JStr (Py.lit "number")))]
      (JStr (Py.lit "form1")) (JStr (Py.lit "Trips"))
    = ok (diagnostics, payload)
    /\ NormalizeTypeform.normalize_typeform payload
       = ok (JObj [(Py.lit "meta",
                    Spec.normalized_meta (JStr (Py.lit "form1"))
                                         (Py.lit "t0") (Py.lit "t1"));
                   (Py.lit "answers", JArr outs)])
    /\ length outs = 2.
Proof.
  destruct (build_then_normalize
              [(Py.lit "r1",
                BuildUserJson.mkInfo (JStr (Py.lit "id1")) (JStr (Py.lit "Age?"))
                                     (JStr (Py.lit "number")))]
              (Py.lit "t0") (Py.lit "t1")
              [BuildUserJson.mkEntry (Py.lit "r1") (Py.lit "Age?") (Py.lit "29");
               BuildUserJson.mkEntry (Py.lit "trip") (Py.lit "Where?")
                                     (Py.lit " Lisbon ")]
              (JStr (Py.lit "form1")) (JStr (Py.lit "Trips")))
    as [diagnostics [payload [outs [B [N F]]]]].
  - intros e f _ Hg. unfold Dict.get in Hg.
    destruct (Py.eqb (BuildUserJson.ref e) (Py.lit "r1")); [|discriminate].
    injection Hg as <-. eexists. reflexivity.
  - intros e f _ Hg. unfold Dict.get in Hg.
    destruct (Py.eqb (BuildUserJson.ref e) (Py.lit "r1")); [|discriminate].
    injection Hg as <-. eexists. reflexivity.
  - exists diagnostics, payload, outs. split; [exact B|]. split; [exact N|].
    apply Forall2_length in F. symmetry. exact F.
Defined.

(** ** The schema of the payload builder, by reference *)

Lemma load_field_loadable (ref_map : Dict.t BuildUserJson.field_info)
      (item : json) :
  Spec.loadable item ->
  BuildUserJson.load_field ref_map item
  = ok (match Spec.kept_ref item with
        | Some (d, s) => Dict.set s (Spec.info_of d s) ref_map
        | None => ref_map
        end).
Proof.
  intros [d [-> H]]. unfold BuildUserJson.load_field, Spec.kept_ref.
  rewrite json_get_obj. cbn [bind ok].
  unfold NormalizeTypeform.dget in *.
  destruct H as [H | [s H]].
  - rewrite H.
    destruct (Dict.get (Py.lit "ref") d) as [[| | | |[|c s]| |]|];
      try reflexivity; cbn [Json.truthy Py.truthy] in H; discriminate.
  - rewrite H. destruct s as [|c s]; [reflexivity|].
    cbn [Json.truthy Py.truthy]. rewrite !get_default_obj. reflexivity.
Qed.

Lemma load_fields_get (items : list json) :
  Forall Spec.loadable items ->
  forall ref_map,
  exists ref_map',
    BuildUserJson.load_fields ref_map items = ok ref_map'
    /\ forall r,
         Dict.get r ref_map'
         = match Spec.last_with_ref r items with
           | Some f => Some f
           | None => Dict.get r ref_map
           end.
Proof.
  induction 1 as [|item items Hitem _ IH]; intros ref_map.
  - exists ref_map. split; reflexivity.
  - cbn [BuildUserJson.load_fields].
    rewrite (load_field_loadable ref_map item Hitem). cbn [bind ok].
    match goal with
    | |- context [BuildUserJson.load_fields ?m items] =>
        destruct (IH m) as [ref_map' [E G]]
    end.
    exists ref_map'. split; [exact E|]. intros r. rewrite G.
    cbn [Spec.last_with_ref].
    destruct (Spec.last_with_ref r items); [reflexivity|].
    destruct (Spec.kept_ref item) as [[d s]|]; [|reflexivity].
    destruct (Py.eqb s r) eqn:Es.
    + apply py_eqb_eq in Es. subst s. apply dict_get_set_same.
    + apply dict_get_set_other. intros ->. rewrite py_eqb_refl in Es.
      discriminate.
Qed.

Lemma last_with_ref_empty (items : list json) :
  Spec.last_with_ref [] items = None.
Proof.
  induction items as [|item items IH]; cbn [Spec.last_with_ref];
    [reflexivity|].
  rewrite IH. unfold Spec.kept_ref.
  destruct item as [| | | | | |d]; try reflexivity.
  destruct (Dict.get (Py.lit "ref") d) as [[| | | |[|c s]| |]|];
    reflexivity.
Qed.

(** X18.  The schema loader of the payload builder keeps, under each
    reference, the last field of the schema that carries it: a later
    field replaces an earlier one with the same reference, and a field
    whose reference is missing, null or empty is left out.  Absent
    members get their defaults: the form id and title, and for a field
    the id made of the first six characters of the reference, the empty
    title and the type text. *)
Theorem load_schema_last_ref_wins (m : Dict.t json) (items : list json) :
  Dict.get (Py.lit "fields") m = Some (JArr items) ->
  Forall Spec.loadable items ->
  exists ref_map,
    BuildUserJson.load_schema (JObj m)
    = ok (ref_map,
          Spec.member_or (Py.lit "id") (JStr (Py.lit "mock_form_001")) m,
          Spec.member_or (Py.lit "title") (JStr (Py.lit "Untitled Form")) m)
    /\ (forall r, Dict.get r ref_map = Spec.last_with_ref r items)
    /\ Dict.get [] ref_map = None.
Proof.
  intros Hf Hitems.
  destruct (load_fields_get items Hitems []) as [ref_map [E G]].
  exists ref_map.
  assert (G' : forall r, Dict.get r ref_map = Spec.last_with_ref r items).
  { intros r. rewrite G. destruct (Spec.last_with_ref r items); reflexivity. }
  split; [|split; [exact G'|]].
  - unfold BuildUserJson.load_schema. rewrite !get_default_obj.
    cbn [bind ok].
    assert (M : Spec.member_or (Py.lit "fields") (JArr []) m = JArr items)
      by (unfold Spec.member_or; rewrite Hf; reflexivity).
    rewrite M. cbn [Json.iter bind ok]. change (inr items) with (ok items).
    cbn [bind]. rewrite E. reflexivity.
  - rewrite G'. apply last_with_ref_empty.
Qed.

Lemma load_schema_last_ref_wins_witness :
  exists ref_map,
    BuildUserJson.load_schema
      (JObj [(Py.lit "fields",
              JArr [JObj [(Py.lit "ref", JStr (Py.lit "age"));
                          (Py.lit "title", JStr (Py.lit "Age?"))];
                    JObj [(Py.lit "title", JStr (Py.lit "No ref"))];
                    JObj [(Py.lit "ref", JStr (Py.lit "age"));
                          (Py.lit "type", JStr (Py.lit "number"))]])])
    = ok (ref_map, JStr (Py.lit "mock_form_001"),
          JStr (Py.lit "Untitled Form"))
    /\ Dict.get (Py.lit "age") ref_map
       = Some (BuildUserJson.mkInfo (JStr (Py.lit "id_age")) (JStr [])
                                    (JStr (Py.lit "number"))).
Proof.
  destruct (load_schema_last_ref_wins
              [(Py.lit "fields",
                JArr [JObj [(Py.lit "ref", JStr (Py.lit "age"));
                            (Py.lit "title", JStr (Py.lit "Age?"))];
                      JObj [(Py.lit "title", JStr (Py.lit "No ref"))];
                      JObj [(Py.lit "ref", JStr (Py.lit "age"));
                            (Py.lit "type", JStr (Py.lit "number"))]])]
              _ eq_refl) as [ref_map [E [G _]]].
  - constructor; [|constructor; [|constructor; [|constructor]]];
      eexists; (split; [reflexivity|]).
    + right. eexists. reflexivity.
    + left. reflexivity.
    + right. eexists. reflexivity.
  - exists ref_map. split; [exact E|]. rewrite G. reflexivity.
Defined.

(** ** From the responses to the parsed entries *)

Section Characters.

Variable P : ascii -> Prop.

Lemma split_blank_from_chars (s : str) :
  forall cur skip,
    Forall P cur -> Forall P s ->
    Forall (Forall P) (BuildRefTextInput.split_blank_from cur skip s).
Proof.
  induction s as [|c t IH]; intros cur skip Hcur Hs.
  - constructor; [apply Forall_rev; exact Hcur | constructor].
  - inversion Hs as [|? ? Hc Ht]; subst.
    cbn [BuildRefTextInput.split_blank_from].
    destruct skip as [|skip]; [|apply IH; assumption].
    destruct (BuildUserJson.sep_blank (c :: t)) as [[|n]|].
    + apply IH; [constructor|]; assumption.
    + constructor; [apply Forall_rev; exact Hcur|].
      apply IH; [constructor | exact Ht].
    + apply IH; [constructor|]; assumption.
Qed.

Lemma split_on_chars (sep : ascii) (s : str) :
  Forall P s -> Forall (Forall P) (Py.split_on sep s).
Proof.
  induction 1 as [|c t Hc _ IH]; cbn [Py.split_on].
  - constructor; constructor.
  - destruct (Py.eqb_char c sep); [constructor; [constructor | exact IH]|].
    destruct (Py.split_on sep t) as [|p ps].
    + constructor; [|constructor]. constructor; [exact Hc | constructor].
    + inversion IH; subst. constructor; [|assumption].
      constructor; assumption.
Qed.

Lemma block_lines_chars (block : str) :
  Forall P block -> Forall (Forall P) (BuildRefTextInput.block_lines block).
Proof.
  intros H. unfold BuildRefTextInput.block_lines.
  pose proof (split_on_chars BuildRefTextInput.LF block H) as L.
  induction L as [|l ls Hl _ IH]; [constructor|]. cbn [filter].
  destruct (Py.truthy (Py.strip l)); [|exact IH].
  cbn [map]. constructor; [exact (strip_Forall P l Hl) | exact IH].
Qed.

Lemma join_chars (sep : str) (lines : list str) :
  Forall P sep -> Forall (Forall P) lines -> Forall P (Py.join sep lines).
Proof.
  intros Hsep H. induction H as [|l ls Hl Hls IH]; [constructor|].
  destruct ls as [|l' ls]; [exact Hl|].
  rewrite join_cons. apply Forall_app. split; [exact Hl|].
  apply Forall_app. split; [exact Hsep | exact IH].
Qed.

Lemma parse_block_chars (acc : list BuildRefText.qa_pair) (block : str) :
  P BuildRefTextInput.SPACE ->
  Forall P block ->
  Forall (fun qa => Forall P (fst qa) /\ Forall P (snd qa)) acc ->
  Forall (fun qa => Forall P (fst qa) /\ Forall P (snd qa))
         (BuildRefTextInput.parse_block acc block).
Proof.
  intros Hsp Hb Hacc. unfold BuildRefTextInput.parse_block.
  pose proof (block_lines_chars block Hb) as H.
  destruct (BuildRefTextInput.block_lines block) as [|q [|a rest]];
    cbn [length Nat.leb]; try exact Hacc.
  apply Forall_app. split; [exact Hacc|]. constructor; [|constructor].
  inversion H as [|? ? Hq Hrest]; subst. cbn [fst snd].
  split; [exact Hq|]. apply join_chars; [|exact Hrest].
  constructor; [exact Hsp | constructor].
Qed.

Lemma parse_text_responses_chars (content : str) :
  P BuildRefTextInput.SPACE ->
  Forall P content ->
  Forall (fun qa => Forall P (fst qa) /\ Forall P (snd qa))
         (BuildRefTextInput.parse_text_responses content).
Proof.
  intros Hsp Hc. unfold BuildRefTextInput.parse_text_responses.
  pose proof (split_blank_from_chars
                (Py.strip content) [] 0 (Forall_nil _)
                (strip_Forall P content Hc)) as B.
  unfold BuildRefTextInput.split_blank.
  generalize (@nil BuildRefText.qa_pair)
             (Forall_nil (fun qa : BuildRefText.qa_pair =>
                            Forall P (fst qa) /\ Forall P (snd qa))).
  induction B as [|b bs Hb _ IH]; intros acc Hacc; [exact Hacc|].
  cbn [fold_left]. apply IH. exact (parse_block_chars acc b Hsp Hb Hacc).
Qed.

End Characters.

Lemma aligned_members (fields : list (BuildRefText.field str))
      (qas : list BuildRefText.qa_pair) (calls : list str)
      (m : list (BuildRefText.matched_entry str))
      (u : list BuildRefText.qa_pair) :
  Spec.aligned fields qas calls m u ->
  Forall (fun e =>
            exists f q kind,
              In f fields
              /\ In (q, BuildRefText.answer e) qas
              /\ e = BuildRefText.entry_of f (BuildRefText.answer e) kind)
         m.
Proof.
  induction 1 as [|q a f qas calls m u Hf _ IH
                  |q a f qas calls m u Hn Hb Hf _ IH
                  |q a qas calls m u Hn Hc _ IH].
  - constructor.
  - constructor.
    + exists f, q, BuildRefText.EXACT.
      destruct (last_titled_some _ fields f Hf) as [Hin _].
      repeat split; [exact Hin | left; reflexivity].
    + eapply Forall_impl; [|exact IH].
      intros e [f' [q' [k [H1 [H2 H3]]]]]. exists f', q', k.
      repeat split; [exact H1 | right; exact H2 | exact H3].
  - constructor.
    + exists f, q, BuildRefText.FUZZY. destruct Hb as [Hin _].
      repeat split; [exact Hin | left; reflexivity].
    + eapply Forall_impl; [|exact IH].
      intros e [f' [q' [k [H1 [H2 H3]]]]]. exists f', q', k.
      repeat split; [exact H1 | right; exact H2 | exact H3].
  - eapply Forall_impl; [|exact IH].
    intros e [f' [q' [k [H1 [H2 H3]]]]]. exists f', q', k.
    repeat split; [exact H1 | right; exact H2 | exact H3].
Qed.

(** X19.  The two scripts compose.  When the titles of the schema have
    no line break and no colon, its references are non-empty runs of
    letters, digits and hyphens, and the responses file has no line
    boundary but the line feed, then the matcher succeeds on the pairs
    read from the file, and parsing the text exported for the matched
    entries gives back, in order, the reference of each matched field
    and the answers of the pairs that found a field. *)
Theorem responses_reach_parsed_entries
        (fields : list (BuildRefText.field str)) (content : str) :
  Forall Spec.exportable_field fields ->
  Spec.lf_only content ->
  exists calls matched unmatched,
    BuildRefText.match_questions
      (BuildRefTextInput.parse_text_responses content) fields
    = (calls, ok (matched, unmatched))
    /\ map BuildUserJson.ref
           (BuildUserJson.parse_ref_text (BuildRefText.export_text matched))
       = map (@BuildRefText.question_ref str) matched
    /\ map BuildUserJson.answer
           (BuildUserJson.parse_ref_text (BuildRefText.export_text matched))
       = map snd (filter (fun qa => Spec.finds_field fields (fst qa))
                         (BuildRefTextInput.parse_text_responses content)).
Proof.
  intros Hfields Hcontent.
  destruct (match_questions_aligned
              fields (BuildRefTextInput.parse_text_responses content))
    as [calls [m [u [E A]]]].
  exists calls, m, u. split; [exact E|].
  destruct (aligned_outcome fields _ calls m u A) as [_ [Hm _]].
  assert (Hexp : Forall Spec.exportable m).
  { pose proof (aligned_members fields _ calls m u A) as M.
    pose proof (parse_blocks_plain
                  (BuildRefTextInput.split_blank (Py.strip content)) []
                  (Forall_nil _)) as Hplain.
    pose proof (parse_text_responses_chars
                  (fun c => Py.islinebreak c = false \/ c = Spec.LF)
                  content (or_introl eq_refl) Hcontent) as Hchars.
    fold (BuildRefTextInput.parse_text_responses content) in Hplain.
    rewrite Forall_forall in Hplain, Hchars, Hfields.
    eapply Forall_impl; [|exact M].
    intros e [f [q [kind [Hf [Hq He]]]]].
    destruct (Hfields f Hf) as [T1 [T2 [R1 R2]]].
    destruct (Hplain _ Hq) as [_ [A0 [A1 A2]]].
    destruct (Hchars _ Hq) as [_ C].
    cbn [fst snd] in A0, A1, A2, C.
    rewrite He. unfold Spec.exportable.
    cbn [BuildRefText.entry_of BuildRefText.question
         BuildRefText.question_ref BuildRefText.answer
         BuildRefText.answer_ref].
    repeat split; try assumption.
    - unfold Spec.no_linebreak. rewrite Forall_forall.
      unfold Spec.one_line in A2. rewrite Forall_forall in A2, C.
      intros c Hc. destruct (C c Hc) as [H | H]; [exact H|].
      exfalso. exact (A2 c Hc H).
    - exact (no_linebreak_refchars _ R2). }
  unfold BuildRefText.export_text.
  rewrite (parse_exported 1 m Hexp), !map_map. cbn [Spec.reparsed
    BuildUserJson.ref BuildUserJson.answer].
  split; [reflexivity | exact Hm].
Qed.

Lemma responses_reach_parsed_entries_witness :
  exists calls matched unmatched,
    BuildRefText.match_questions
      (BuildRefTextInput.parse_text_responses
         (Spec.responses_text [(Py.lit "What is your age", Py.lit "29")]))
      [BuildRefText.mkField (Py.lit "What is your age?") (Py.lit "age-1")
                            (Py.lit "number")]
    = (calls, ok (matched, unmatched))
    /\ map BuildUserJson.ref
           (BuildUserJson.parse_ref_text (BuildRefText.export_text matched))
       = map (@BuildRefText.question_ref str) matched.
Proof.
  destruct (responses_reach_parsed_entries
              [BuildRefText.mkField (Py.lit "What is your age?")
                                    (Py.lit "age-1") (Py.lit "number")]
              (Spec.responses_text [(Py.lit "What is your age", Py.lit "29")]))
    as [calls [matched [unmatched [E [R _]]]]].
  - repeat first [ split | constructor | discriminate | reflexivity ].
  - unfold Spec.lf_only. apply Forall_forall. intros c Hc.
    destruct (Py.islinebreak c) eqn:L; [|left; reflexivity].
    right. vm_compute in Hc.
    repeat (destruct Hc as [<- | Hc]; [try discriminate L; reflexivity|]).
    destruct Hc.
  - exists calls, matched, unmatched. split; [exact E | exact R].
Defined.

(** ** The records of the trip catalog *)

Lemma split_once_inv (sep : ascii) (s a b : str) :
  Py.split_once sep s = Some (a, b) ->
  s = a ++ sep :: b /\ Spec.without sep a.
Proof.
  revert a. induction s as [|c s IH]; intros a; cbn [Py.split_once];
    [discriminate|].
  destruct (Py.eqb_char c sep) eqn:E.
  - intros H. injection H as <- <-. apply eqb_char_eq in E. subst c.
    split; [reflexivity | constructor].
  - destruct (Py.split_once sep s) as [[a' b']|]; [|discriminate].
    intros H. injection H as <- <-.
    destruct (IH a' eq_refl) as [-> Ha]. split; [reflexivity|].
    constructor; [|exact Ha]. intros ->.
    unfold Py.eqb_char in E. rewrite Ascii.eqb_refl in E. discriminate.
Qed.

Lemma split_strip_items (sep : ascii) (P : ascii -> Prop) (s : str) :
  Forall P s ->
  map Py.strip (Py.split_on sep s) <> []
  /\ Forall (fun p => Spec.trimmed p /\ Spec.without sep p /\ Forall P p)
            (map Py.strip (Py.split_on sep s)).
Proof.
  intros Hs. split.
  - pose proof (split_on_nonempty sep s) as N.
    destruct (Py.split_on sep s); [contradiction | discriminate].
  - pose proof (split_on_pieces sep s) as H1.
    pose proof (split_on_chars P sep s Hs) as H2.
    induction H1 as [|p ps Hp _ IH]; [constructor|].
    inversion H2 as [|? ? Hp2 Hps2]; subst. cbn [map]. constructor.
    + split; [exact (trimmed_strip p)|].
      split; [exact (strip_Forall _ p Hp) | exact (strip_Forall _ p Hp2)].
    + exact (IH Hps2).
Qed.

Lemma pb_sd_of_values (raw : str) :
  BuildTripCatalog.pb_sd_of raw = Py.lit "PB"
  \/ BuildTripCatalog.pb_sd_of raw = Py.lit "SD".
Proof.
  unfold BuildTripCatalog.pb_sd_of.
  destruct (Py.contains (Py.lit "primary") raw); [left; reflexivity|].
  destruct (Py.contains (Py.lit "secondary") raw); right; reflexivity.
Qed.

(** X20.  Every trip that [parse_trip_line] returns is a record of ten
    members built from the parts of the line, and the separators of the
    line never reach it: the title is trimmed and holds no vertical bar
    and no colon, the continent is trimmed and holds no vertical bar, the
    transport modes and the regions are non-empty lists of trimmed items
    without comma and vertical bar, and [pb_sd] is PB or SD. *)
Theorem parse_trip_line_record (line : str) (trip : json) :
  BuildTripCatalog.parse_trip_line line = Some trip ->
  exists title tier pb_sd continent modes regions,
    trip = Spec.trip_record title tier pb_sd continent modes regions
    /\ Spec.trimmed title
    /\ Spec.without BuildTripCatalog.PIPE title
    /\ Spec.without BuildTripCatalog.COLON title
    /\ (pb_sd = Py.lit "PB" \/ pb_sd = Py.lit "SD")
    /\ Spec.trimmed continent
    /\ Spec.without BuildTripCatalog.PIPE continent
    /\ modes <> [] /\ Forall Spec.list_item modes
    /\ regions <> [] /\ Forall Spec.list_item regions.
Proof.
  unfold BuildTripCatalog.parse_trip_line.
  destruct (negb (Py.truthy (Py.strip line))
            || Py.startswith (Py.lit "#") (Py.strip line)); [discriminate|].
  destruct (BuildTripCatalog.trip_of_line line) as [e|t] eqn:E;
    [discriminate|].
  intros H. injection H as <-.
  destruct (trip_of_line_inv line t E)
    as [title_part [title [regions [transport [tier_part [tier
        [pb_sd_part [continent_part I]]]]]]]].
  cbv zeta in I.
  destruct I as [I0 [I1 [I2 [_ [_ [_ [I6 ->]]]]]]].
  assert (Hparts : forall i p,
             nth_error (map Py.strip
                            (Py.split_on BuildTripCatalog.PIPE line)) i
             = Some p ->
             Spec.without BuildTripCatalog.PIPE p).
  { intros i p Hp. apply nth_error_In in Hp. apply in_map_iff in Hp.
    destruct Hp as [piece [<- Hin]].
    pose proof (split_on_pieces BuildTripCatalog.PIPE line) as F.
    rewrite Forall_forall in F. exact (strip_Forall _ piece (F piece Hin)). }
  destruct (split_once_inv _ _ _ _ I1) as [Etp Hcolon].
  pose proof (Hparts 0 title_part I0) as Htp. rewrite Etp in Htp.
  unfold Spec.without in Htp. apply Forall_app in Htp.
  destruct Htp as [Htitle Hregions]. inversion Hregions as [|? ? _ Hreg]; subst.
  destruct (split_strip_items BuildTripCatalog.COMMA
                              (fun x => x <> BuildTripCatalog.PIPE)
                              transport (Hparts 1 transport I2))
    as [Hm0 Hm].
  destruct (split_strip_items BuildTripCatalog.COMMA
                              (fun x => x <> BuildTripCatalog.PIPE)
                              regions Hreg)
    as [Hr0 Hr].
  exists (Py.strip title), tier,
         (BuildTripCatalog.pb_sd_of (Py.lower pb_sd_part)),
         (Py.strip continent_part),
         (map Py.strip (Py.split_on BuildTripCatalog.COMMA transport)),
         (map Py.strip (Py.split_on BuildTripCatalog.COMMA regions)).
  split; [reflexivity|].
  split; [exact (trimmed_strip title)|].
  split; [exact (strip_Forall _ title Htitle)|].
  split; [exact (strip_Forall _ title Hcolon)|].
  split; [apply pb_sd_of_values|].
  split; [exact (trimmed_strip continent_part)|].
  split; [exact (strip_Forall _ _ (Hparts 4 continent_part I6))|].
  split; [exact Hm0|]. split; [exact Hm|]. split; [exact Hr0 | exact Hr].
Qed.

Lemma parse_trip_line_record_witness :
  exists title tier pb_sd continent modes regions,
    Some (Spec.trip_record (Py.lit "Alps") 2 (Py.lit "SD") (Py.lit "Europe")
                           [Py.lit "train"] [Py.lit "Bern"; Py.lit "Chur"])
    = Some (Spec.trip_record title tier pb_sd continent modes regions)
    /\ Spec.without BuildTripCatalog.COLON title.
Proof.
  destruct (parse_trip_line_record
              (Py.lit "Alps: Bern, Chur | train | Tier 2 | Secondary Depth | Europe")
              (Spec.trip_record (Py.lit "Alps") 2 (Py.lit "SD")
                                (Py.lit "Europe")
                                [Py.lit "train"] [Py.lit "Bern"; Py.lit "Chur"])
              eq_refl)
    as [title [tier [pb_sd [continent [modes [regions [E [_ [_ [C _]]]]]]]]]].
  exists title, tier, pb_sd, continent, modes, regions.
  split; [rewrite E; reflexivity | exact C].
Defined.

(** *** A line in the layout of the trip list *)

Lemma strip_padded (ws1 x ws2 : str) :
  Spec.blank ws1 -> Spec.blank ws2 -> Spec.trimmed x -> x <> [] ->
  Py.strip (ws1 ++ x ++ ws2) = x.
Proof.
  intros H1 H2 Hx Hne.
  pose proof (strip_blank_tail x ws2 Hx Hne H2) as E.
  unfold Py.strip in *. rewrite (lstrip_blank_app ws1 (x ++ ws2) H1).
  exact E.
Qed.

Lemma split_once_app (sep : ascii) (a b : str) :
  Spec.without sep a -> Py.split_once sep (a ++ sep :: b) = Some (a, b).
Proof.
  induction 1 as [|c a Hc _ IH]; cbn [app Py.split_once].
  - unfold Py.eqb_char. rewrite Ascii.eqb_refl. reflexivity.
  - destruct (Py.eqb_char c sep) eqn:E.
    + apply eqb_char_eq in E. contradiction.
    + rewrite IH. reflexivity.
Qed.

Lemma word_parts (w : str) :
  Spec.word w ->
  w <> [] /\ Spec.trimmed w
  /\ Spec.without BuildTripCatalog.COMMA w
  /\ Spec.without BuildTripCatalog.PIPE w
  /\ Spec.without BuildTripCatalog.COLON w.
Proof. intros [H0 [[H1 [H2 H3]] H4]]. repeat split; assumption. Qed.

Lemma strip_space_word (w : str) :
  Spec.word w -> Py.strip (BuildRefText.SPACE :: w) = w.
Proof.
  intros H. destruct (word_parts w H) as [H0 [H1 _]].
  pose proof (strip_padded [BuildRefText.SPACE] w [] ltac:(repeat constructor)
                           (Forall_nil _) H1 H0) as E.
  rewrite app_nil_r in E. exact E.
Qed.

(** The items of a list written with a comma and a space between two
    items. *)
Lemma split_items (ws : list str) :
  ws <> [] -> Forall Spec.word ws ->
  map Py.strip
      (Py.split_on BuildTripCatalog.COMMA
                   (BuildRefText.SPACE :: Py.join (Py.lit ", ") ws))
  = ws.
Proof.
  intros Hne H. induction H as [|w ws Hw Hws IH]; [contradiction|].
  destruct (word_parts w Hw) as [_ [_ [Hc _]]].
  assert (Hsw : Spec.without BuildTripCatalog.COMMA (BuildRefText.SPACE :: w))
    by (constructor; [discriminate | exact Hc]).
  destruct ws as [|w' ws].
  - cbn [Py.join]. rewrite (split_on_free _ _ Hsw). cbn [map].
    rewrite (strip_space_word w Hw). reflexivity.
  - rewrite join_cons.
    change (BuildRefText.SPACE
              :: w ++ Py.lit ", " ++ Py.join (Py.lit ", ") (w' :: ws))
      with ((BuildRefText.SPACE :: w)
              ++ BuildTripCatalog.COMMA
              :: BuildRefText.SPACE :: Py.join (Py.lit ", ") (w' :: ws)).
    rewrite (split_on_app _ _ _ Hsw). cbn [map].
    rewrite (strip_space_word w Hw), IH; [reflexivity | discriminate].
Qed.

Lemma split_items_first (ws : list str) :
  ws <> [] -> Forall Spec.word ws ->
  map Py.strip (Py.split_on BuildTripCatalog.COMMA (Py.join (Py.lit ", ") ws))
  = ws.
Proof.
  intros Hne H. destruct H as [|w ws Hw Hws]; [contradiction|].
  destruct (word_parts w Hw) as [_ [Ht [Hc _]]].
  destruct ws as [|w' ws].
  - cbn [Py.join]. rewrite (split_on_free _ _ Hc). cbn [map].
    rewrite Ht. reflexivity.
  - rewrite join_cons.
    change (w ++ Py.lit ", " ++ Py.join (Py.lit ", ") (w' :: ws))
      with (w ++ BuildTripCatalog.COMMA
              :: BuildRefText.SPACE :: Py.join (Py.lit ", ") (w' :: ws)).
    rewrite (split_on_app _ _ _ Hc). cbn [map].
    rewrite Ht, (split_items (w' :: ws) ltac:(discriminate) Hws).
    reflexivity.
Qed.

Lemma join_words (ws : list str) :
  ws <> [] -> Forall Spec.word ws ->
  Py.join (Py.lit ", ") ws <> []
  /\ Spec.trimmed (Py.join (Py.lit ", ") ws)
  /\ Spec.without BuildTripCatalog.PIPE (Py.join (Py.lit ", ") ws).
Proof.
  intros Hne H. induction H as [|w ws Hw Hws IH]; [contradiction|].
  destruct (word_parts w Hw) as [H0 [H1 [_ [H3 _]]]].
  destruct ws as [|w' ws]; [repeat split; assumption|].
  destruct (IH ltac:(discriminate)) as [J0 [J1 J2]].
  rewrite join_cons. split; [|split].
  - destruct w; [contradiction | discriminate].
  - exact (trimmed_app w _ _ H0 J0 H1 J1).
  - apply Forall_app. split; [exact H3|].
    apply Forall_app. split; [repeat constructor; discriminate | exact J2].
Qed.

Lemma replace_from_unchanged (t0 : ascii) (old new s : str) :
  Forall (fun c => Py.eqb_char t0 c = false) s ->
  Py.replace_from (t0 :: old) new 0 s = s.
Proof.
  induction 1 as [|c s Hc _ IH]; [reflexivity|].
  cbn [Py.replace_from Py.startswith]. rewrite Hc. cbn [andb].
  rewrite IH. reflexivity.
Qed.

Lemma digit_not_T (c : ascii) :
  Py.isdigit c = true -> Py.eqb_char "T"%char c = false.
Proof. each_char c. Qed.

Lemma digit_not_int_space (c : ascii) :
  Py.isdigit c = true -> Py.int_space c = false.
Proof. each_char c. Qed.

Lemma digit_not_sign (c : ascii) :
  Py.isdigit c = true ->
  Py.eqb_char c (ascii_of_nat 45) = false
  /\ Py.eqb_char c (ascii_of_nat 43) = false.
Proof. each_char c. Qed.

Lemma replace_tier (ds : str) :
  Forall (fun c => Py.isdigit c = true) ds ->
  Py.replace (Py.lit "Tier") [] (Py.lit "Tier " ++ ds) = BuildRefText.SPACE :: ds.
Proof.
  intros H. unfold Py.replace.
  change (Py.replace_from (Py.lit "Tier") [] 0 (Py.lit "Tier " ++ ds))
    with (BuildRefText.SPACE
            :: Py.replace_from ("T"%char :: Py.lit "ier") [] 0 ds).
  rewrite replace_from_unchanged; [reflexivity|].
  eapply Forall_impl; [|exact H]. exact digit_not_T.
Qed.

Lemma digits_value_digits (s : str) :
  Forall (fun c => Py.isdigit c = true) s ->
  forall acc count after,
    s <> [] \/ after = true ->
    Py.digits_value acc count after s
    = Some (fold_left (fun a c => (10 * a + Py.digit_value c)%N) s acc,
            count + length s).
Proof.
  induction 1 as [|c s Hc _ IH]; intros acc count after Hs.
  - destruct Hs as [Hs | ->]; [contradiction|].
    cbn [Py.digits_value fold_left length]. rewrite Nat.add_0_r.
    reflexivity.
  - cbn [Py.digits_value fold_left length]. rewrite Hc.
    rewrite IH; [|right; reflexivity]. rewrite Nat.add_succ_r.
    reflexivity.
Qed.

Lemma drop_while_none (p : ascii -> bool) (s : str) :
  Forall (fun c => p c = false) s -> Py.drop_while p s = s.
Proof.
  intros [|c t Hc _]; [reflexivity|]. cbn [Py.drop_while]. rewrite Hc.
  reflexivity.
Qed.

(** [int] of a run of decimal digits within the limit of the
    interpreter. *)
Lemma int_of_str_digits (ds : str) :
  ds <> [] ->
  Forall (fun c => Py.isdigit c = true) ds ->
  length ds <= Py.max_str_digits ->
  Py.int_of_str ds = Some (Z.of_N (Py.int_of_digits ds)).
Proof.
  intros Hne Hd Hlen. unfold Py.int_of_str.
  assert (Hsp : Forall (fun c => Py.int_space c = false) ds).
  { eapply Forall_impl; [|exact Hd]. exact digit_not_int_space. }
  rewrite (drop_while_none _ ds Hsp).
  rewrite (drop_while_none _ (rev ds) (Forall_rev Hsp)), rev_involutive.
  destruct ds as [|d ds]; [contradiction|].
  inversion Hd as [|? ? Hd0 _]; subst.
  destruct (digit_not_sign d Hd0) as [S1 S2]. rewrite S1, S2.
  cbv beta iota zeta.
  assert (N0 : d :: ds <> []) by discriminate.
  rewrite (digits_value_digits (d :: ds) Hd 0%N 0 false (or_introl N0)).
  cbn [Nat.add].
  destruct (Py.max_str_digits <? length (d :: ds)) eqn:L.
  - apply Nat.ltb_lt in L. lia.
  - reflexivity.
Qed.

Lemma tier_of_part (ds : str) :
  ds <> [] ->
  Forall (fun c => Py.isdigit c = true) ds ->
  length ds <= Py.max_str_digits ->
  Py.int_of_str (Py.strip (Py.replace (Py.lit "Tier") []
                                      (Py.lit "Tier " ++ ds)))
  = Some (Z.of_N (Py.int_of_digits ds)).
Proof.
  intros Hne Hd Hlen. rewrite (replace_tier ds Hd).
  assert (Ht : Spec.trimmed ds).
  { apply strip_no_space. eapply Forall_impl; [|exact Hd].
    exact isdigit_not_space. }
  pose proof (strip_padded [BuildRefText.SPACE] ds []
                           ltac:(repeat constructor) (Forall_nil _) Ht Hne)
    as E.
  rewrite app_nil_r in E. cbn [app] in E. rewrite E.
  exact (int_of_str_digits ds Hne Hd Hlen).
Qed.

Lemma digit_not_pipe (c : ascii) :
  Py.isdigit c = true -> c <> BuildTripCatalog.PIPE.
Proof. each_char c. Qed.

Lemma strip_tail (x ws : str) :
  Spec.blank ws -> Spec.trimmed x -> x <> [] -> Py.strip (x ++ ws) = x.
Proof. intros Hw Hx Hne. exact (strip_blank_tail x ws Hx Hne Hw). Qed.

Section TripLine.

Variables (title : str) (regions modes : list str)
          (tier_digits kind continent : str).

Hypothesis title_word : Spec.word title.
Hypothesis title_no_comment : Py.startswith (Py.lit "#") title = false.
Hypothesis regions_given : regions <> [].
Hypothesis regions_words : Forall Spec.word regions.
Hypothesis modes_given : modes <> [].
Hypothesis modes_words : Forall Spec.word modes.
Hypothesis tier_given : tier_digits <> [].
Hypothesis tier_is_digits : Forall (fun c => Py.isdigit c = true) tier_digits.
Hypothesis tier_short : length tier_digits <= Py.max_str_digits.
Hypothesis kind_word : Spec.word kind.
Hypothesis continent_word : Spec.word continent.

Lemma trip_line_segments :
  Spec.trip_line title regions modes tier_digits kind continent
  = (title ++ Py.lit ": " ++ Py.join (Py.lit ", ") regions ++ Py.lit " ")
      ++ BuildTripCatalog.PIPE
      :: (Py.lit " " ++ Py.join (Py.lit ", ") modes ++ Py.lit " ")
      ++ BuildTripCatalog.PIPE
      :: (Py.lit " " ++ (Py.lit "Tier " ++ tier_digits) ++ Py.lit " ")
      ++ BuildTripCatalog.PIPE
      :: (Py.lit " " ++ kind ++ Py.lit " ")
      ++ BuildTripCatalog.PIPE
      :: (Py.lit " " ++ continent ++ [Spec.LF]).
Proof. unfold Spec.trip_line. norm_app. reflexivity. Qed.

Lemma title_part_trimmed :
  Spec.trimmed (title ++ Py.lit ": " ++ Py.join (Py.lit ", ") regions)
  /\ title ++ Py.lit ": " ++ Py.join (Py.lit ", ") regions <> [].
Proof.
  destruct (word_parts title title_word) as [T0 [T1 _]].
  destruct (join_words regions regions_given regions_words) as [J0 [J1 _]].
  split; [exact (trimmed_app title _ _ T0 J0 T1 J1)|].
  destruct title; [contradiction | discriminate].
Qed.

Lemma tier_part_trimmed :
  Spec.trimmed (Py.lit "Tier " ++ tier_digits)
  /\ Py.lit "Tier " ++ tier_digits <> [].
Proof.
  split; [|discriminate]. apply trimmed_edges. split; [reflexivity|].
  apply rstrip_app_fixed; [exact tier_given|].
  assert (Ht : Spec.trimmed tier_digits).
  { apply strip_no_space. eapply Forall_impl; [|exact tier_is_digits].
    exact isdigit_not_space. }
  exact (proj2 (proj1 (trimmed_edges _) Ht)).
Qed.

Lemma without_pipe_app (a b : str) :
  Spec.without BuildTripCatalog.PIPE a ->
  Spec.without BuildTripCatalog.PIPE b ->
  Spec.without BuildTripCatalog.PIPE (a ++ b).
Proof. intros Ha Hb. apply Forall_app. split; assumption. Qed.

Lemma trip_line_parts :
  map Py.strip
      (Py.split_on BuildTripCatalog.PIPE
         (Spec.trip_line title regions modes tier_digits kind continent))
  = [title ++ Py.lit ": " ++ Py.join (Py.lit ", ") regions;
     Py.join (Py.lit ", ") modes;
     Py.lit "Tier " ++ tier_digits;
     kind;
     continent].
Proof.
  destruct (word_parts title title_word) as [T0 [T1 [_ [T3 _]]]].
  destruct (word_parts kind kind_word) as [K0 [K1 [_ [K3 _]]]].
  destruct (word_parts continent continent_word) as [C0 [C1 [_ [C3 _]]]].
  destruct (join_words regions regions_given regions_words) as [R0 [R1 R2]].
  destruct (join_words modes modes_given modes_words) as [M0 [M1 M2]].
  destruct title_part_trimmed as [TP1 TP0].
  destruct tier_part_trimmed as [TR1 TR0].
  assert (Hlit : forall l : str,
             Forall (fun c => c <> BuildTripCatalog.PIPE) l ->
             Spec.without BuildTripCatalog.PIPE l) by (intros l H; exact H).
  assert (Hd : Spec.without BuildTripCatalog.PIPE tier_digits).
  { eapply Forall_impl; [|exact tier_is_digits]. exact digit_not_pipe. }
  rewrite trip_line_segments.
  rewrite split_on_app;
    [|repeat apply without_pipe_app; try assumption;
      repeat constructor; discriminate].
  rewrite split_on_app;
    [|repeat apply without_pipe_app; try assumption;
      repeat constructor; discriminate].
  rewrite split_on_app;
    [|repeat apply without_pipe_app; try assumption;
      repeat constructor; discriminate].
  rewrite split_on_app;
    [|repeat apply without_pipe_app; try assumption;
      repeat constructor; discriminate].
  rewrite split_on_free;
    [|repeat apply without_pipe_app; try assumption;
      repeat constructor; discriminate].
  cbn [map].
  rewrite (strip_padded (Py.lit " ") _ (Py.lit " ")
                        ltac:(repeat constructor) ltac:(repeat constructor)
                        M1 M0).
  rewrite (strip_padded (Py.lit " ") _ (Py.lit " ")
                        ltac:(repeat constructor) ltac:(repeat constructor)
                        TR1 TR0).
  rewrite (strip_padded (Py.lit " ") _ (Py.lit " ")
                        ltac:(repeat constructor) ltac:(repeat constructor)
                        K1 K0).
  rewrite (strip_padded (Py.lit " ") _ [Spec.LF]
                        ltac:(repeat constructor) ltac:(repeat constructor)
                        C1 C0).
  replace (title ++ Py.lit ": " ++ Py.join (Py.lit ", ") regions ++ Py.lit " ")
    with ((title ++ Py.lit ": " ++ Py.join (Py.lit ", ") regions)
            ++ Py.lit " ")
    by (rewrite <- !app_assoc; reflexivity).
  rewrite (strip_tail _ (Py.lit " ") ltac:(repeat constructor) TP1 TP0).
  reflexivity.
Qed.

Lemma trip_line_guard :
  negb (Py.truthy
          (Py.strip (Spec.trip_line title regions modes tier_digits kind
                                    continent)))
  || Py.startswith
       (Py.lit "#")
       (Py.strip (Spec.trip_line title regions modes tier_digits kind
                                 continent))
  = false.
Proof.
  destruct (word_parts title title_word) as [T0 [T1 _]].
  destruct (word_parts continent continent_word) as [C0 [C1 _]].
  assert (E : Spec.trip_line title regions modes tier_digits kind continent
              = (title
                   ++ (Py.lit ": " ++ Py.join (Py.lit ", ") regions
                         ++ Py.lit " | " ++ Py.join (Py.lit ", ") modes
                         ++ Py.lit " | Tier " ++ tier_digits
                         ++ Py.lit " | " ++ kind ++ Py.lit " | ")
                   ++ continent)
                ++ [Spec.LF]).
  { unfold Spec.trip_line. rewrite <- !app_assoc. reflexivity. }
  rewrite E, strip_tail;
    [|repeat constructor | exact (trimmed_app title _ _ T0 C0 T1 C1)
     |destruct title; [contradiction | discriminate]].
  revert title_no_comment. clear - T0.
  destruct title as [|c t]; [contradiction|]. intros H.
  cbn [app Py.truthy negb orb].
  cbn [Py.lit String.list_ascii_of_string Py.startswith] in H |- *.
  exact H.
Qed.

(** X21.  A line in the layout of the trip list is read into the
    record of its parts: a title, regions and transport modes that are
    words (non-empty, trimmed, without comma, colon and vertical bar), a
    tier written in digits, the breadth or depth text and the continent
    give the trip with that title, those lists, the value of the digits
    as tier, and PB or SD by the text. *)
Theorem parse_trip_line_reads_layout :
  BuildTripCatalog.parse_trip_line
    (Spec.trip_line title regions modes tier_digits kind continent)
  = Some (Spec.trip_record title (Z.of_N (Py.int_of_digits tier_digits))
                           (BuildTripCatalog.pb_sd_of (Py.lower kind))
                           continent modes regions).
Proof.
  destruct (word_parts title title_word) as [T0 [T1 [_ [_ T4]]]].
  destruct (word_parts continent continent_word) as [C0 [C1 _]].
  unfold BuildTripCatalog.parse_trip_line. rewrite trip_line_guard.
  unfold BuildTripCatalog.trip_of_line. rewrite trip_line_parts.
  cbn [BuildTripCatalog.part nth_error].
  change (title ++ Py.lit ": " ++ Py.join (Py.lit ", ") regions)
    with (title ++ BuildTripCatalog.COLON
            :: BuildRefText.SPACE :: Py.join (Py.lit ", ") regions).
  rewrite (split_once_app _ _ _ T4).
  rewrite (split_items regions regions_given regions_words).
  rewrite (split_items_first modes modes_given modes_words).
  rewrite (tier_of_part tier_digits tier_given tier_is_digits tier_short).
  unfold Spec.trimmed in T1, C1. rewrite T1, C1. reflexivity.
Qed.

End TripLine.

Lemma parse_trip_line_reads_layout_witness :
  BuildTripCatalog.parse_trip_line
    (Py.lit "Classic Europe: London, Paris | train, plane | Tier 1 | Primary Breadth | Europe"
       ++ [Spec.LF])
  = Some (Spec.trip_record (Py.lit "Classic Europe") 1 (Py.lit "PB")
                           (Py.lit "Europe")
                           [Py.lit "train"; Py.lit "plane"]
                           [Py.lit "London"; Py.lit "Paris"]).
Proof.
  apply (parse_trip_line_reads_layout
           (Py.lit "Classic Europe") [Py.lit "London"; Py.lit "Paris"]
           [Py.lit "train"; Py.lit "plane"] (Py.lit "1")
           (Py.lit "Primary Breadth") (Py.lit "Europe"));
    [ repeat first [ split | constructor | discriminate | reflexivity ]
    | reflexivity
    | discriminate
    | repeat first [ split | constructor | discriminate | reflexivity ]
    | discriminate
    | repeat first [ split | constructor | discriminate | reflexivity ]
    | discriminate
    | repeat constructor
    | apply Nat.leb_le; reflexivity
    | repeat first [ split | constructor | discriminate | reflexivity ]
    | repeat first [ split | constructor | discriminate | reflexivity ] ].
Defined.

(** ** Matching the matched entries again *)

Section Rematch.

Context {V : Type}.

Implicit Types (f : BuildRefText.field V)
         (fields : list (BuildRefText.field V)).

Lemma match_loop_exact fields (entries : list (BuildRefText.matched_entry V)) :
  Forall (fun e =>
            exists f a kind,
              e = BuildRefText.entry_of f a kind
              /\ Spec.last_titled (Spec.norm_title f) fields = Some f)
         entries ->
  forall accm accu,
    BuildRefText.match_loop
      (BuildRefText.build_schema_map fields)
      (Dict.keys (BuildRefText.build_schema_map fields))
      (map Spec.as_block entries) (accm, accu)
    = ([], ok (accm ++ map Spec.as_exact entries, accu)).
Proof.
  induction 1 as [|e entries [f [a [kind [-> Hf]]]] _ IH]; intros accm accu.
  - cbn [map BuildRefText.match_loop]. rewrite app_nil_r. reflexivity.
  - cbn [map BuildRefText.match_loop]. unfold BuildRefText.match_step.
    cbn [Spec.as_block BuildRefText.entry_of BuildRefText.question
         BuildRefText.answer].
    fold (Spec.norm_title f). unfold Dict.mem, BuildRefText.item.
    rewrite (schema_map_get fields (Spec.norm_title f)), Hf.
    cbv beta iota delta [BuildRefText.tbind BuildRefText.tret ok].
    rewrite IH. cbn [app]. rewrite <- app_assoc. reflexivity.
Qed.

(** X22.  The matcher is stable on its own output: when the questions
    and answers of the matched entries are matched again against the
    same schema, every one of them is an exact match to the same field,
    nothing is left unmatched and the similarity search is not called. *)
Theorem match_questions_stable fields (qas : list BuildRefText.qa_pair) :
  exists calls matched unmatched,
    BuildRefText.match_questions qas fields = (calls, ok (matched, unmatched))
    /\ BuildRefText.match_questions (map Spec.as_block matched) fields
       = ([], ok (map Spec.as_exact matched, [])).
Proof.
  destruct (match_questions_aligned fields qas) as [calls [m [u [E A]]]].
  exists calls, m, u. split; [exact E|].
  unfold BuildRefText.match_questions.
  rewrite (match_loop_exact fields m); [reflexivity|].
  apply Forall_forall. intros e He.
  exact (aligned_entries fields qas calls m u A e He).
Qed.

End Rematch.

(** ** The payload builder, continued *)

Section BuilderMore.

Variable schema_map : Dict.t BuildUserJson.field_info.

Lemma build_entries_app (a b : list BuildUserJson.entry) :
  forall st,
    BuildUserJson.build_entries schema_map st (a ++ b)
    = bind (BuildUserJson.build_entries schema_map st a)
           (fun st' => BuildUserJson.build_entries schema_map st' b).
Proof.
  induction a as [|e a IH]; intros st; [reflexivity|].
  cbn [app BuildUserJson.build_entries].
  destruct (BuildUserJson.build_entry schema_map st e) as [x|st1];
    [reflexivity|].
  cbn [bind]. apply IH.
Qed.

(** X23.  The builder fails exactly at a type hint that is not a
    string: when the entries before an entry are built, and that entry
    reaches a schema field whose type is not a string, the builder
    raises AttributeError and builds no payload. *)
Theorem build_typeform_json_rejects_non_string_type
        (landed submitted : str)
        (before after : list BuildUserJson.entry) (e : BuildUserJson.entry)
        (f : BuildUserJson.field_info) (form_id form_title : json) :
  Spec.string_types schema_map before ->
  Dict.get (BuildUserJson.ref e) schema_map = Some f ->
  (forall s, BuildUserJson.type_ f <> JStr s) ->
  BuildUserJson.build_typeform_json landed submitted (before ++ e :: after)
                                    schema_map form_id form_title
  = raise AttributeError.
Proof.
  intros Hty Hf Hs. unfold BuildUserJson.build_typeform_json.
  rewrite build_entries_app.
  destruct (build_entries_total schema_map before Hty
              {| BuildUserJson.warnings := []; BuildUserJson.fields := [];
                 BuildUserJson.answers := [] |}) as [st1 E].
  rewrite E. cbn [bind ok BuildUserJson.build_entries].
  unfold BuildUserJson.build_entry, BuildUserJson.resolve. rewrite Hf.
  unfold BuildUserJson.detect_answer_type.
  destruct (BuildUserJson.type_ f) as [| | | |s| |]; try reflexivity.
  exfalso. exact (Hs s eq_refl).
Qed.

Lemma build_entry_known (st : BuildUserJson.builder_state)
      (e e' : BuildUserJson.entry) :
  Dict.mem (BuildUserJson.ref e) schema_map = true ->
  BuildUserJson.ref e = BuildUserJson.ref e' ->
  BuildUserJson.answer e = BuildUserJson.answer e' ->
  BuildUserJson.build_entry schema_map st e
  = BuildUserJson.build_entry schema_map st e'.
Proof.
  intros Hm Hr Ha. unfold BuildUserJson.build_entry, BuildUserJson.resolve.
  unfold Dict.mem in Hm. rewrite <- Hr, <- Ha.
  destruct (Dict.get (BuildUserJson.ref e) schema_map); [reflexivity|].
  discriminate Hm.
Qed.

(** X24.  For entries whose references are all in the schema the
    payload does not depend on the questions of the entries: two lists
    of entries with the same references and answers, in the same order,
    give the same result, warnings included. *)
Theorem build_typeform_json_ignores_known_questions
        (landed submitted : str) (es es' : list BuildUserJson.entry)
        (form_id form_title : json) :
  Forall2 (fun e e' =>
             Dict.mem (BuildUserJson.ref e) schema_map = true
             /\ BuildUserJson.ref e = BuildUserJson.ref e'
             /\ BuildUserJson.answer e = BuildUserJson.answer e')
          es es' ->
  BuildUserJson.build_typeform_json landed submitted es schema_map
                                    form_id form_title
  = BuildUserJson.build_typeform_json landed submitted es' schema_map
                                      form_id form_title.
Proof.
  intros H. unfold BuildUserJson.build_typeform_json.
  assert (E : forall st,
             BuildUserJson.build_entries schema_map st es
             = BuildUserJson.build_entries schema_map st es').
  { induction H as [|e e' es es' [Hm [Hr Ha]] _ IH]; intros st;
      [reflexivity|].
    cbn [BuildUserJson.build_entries].
    rewrite (build_entry_known st e e' Hm Hr Ha).
    destruct (BuildUserJson.build_entry schema_map st e'); [reflexivity|].
    cbn [bind]. apply IH. }
  rewrite E. reflexivity.
Qed.

End BuilderMore.

Lemma build_typeform_json_rejects_non_string_type_witness :
  BuildUserJson.build_typeform_json
    (Py.lit "t0") (Py.lit "t1")
    ([BuildUserJson.mkEntry (Py.lit "zz") (Py.lit "Where?") (Py.lit "Lisbon")]
       ++ BuildUserJson.mkEntry (Py.lit "r1") (Py.lit "Age?") (Py.lit "29")
       :: [])
    [(Py.lit "r1",
      BuildUserJson.mkInfo (JStr (Py.lit "id1")) (JStr (Py.lit "Age?")) JNull)]
    (JStr (Py.lit "form1")) (JStr (Py.lit "Trips"))
  = raise AttributeError.
Proof.
  apply (build_typeform_json_rejects_non_string_type
           [(Py.lit "r1",
             BuildUserJson.mkInfo (JStr (Py.lit "id1")) (JStr (Py.lit "Age?"))
                                  JNull)]
           (Py.lit "t0") (Py.lit "t1")
           [BuildUserJson.mkEntry (Py.lit "zz") (Py.lit "Where?")
                                  (Py.lit "Lisbon")]
           [] (BuildUserJson.mkEntry (Py.lit "r1") (Py.lit "Age?")
                                     (Py.lit "29"))
           (BuildUserJson.mkInfo (JStr (Py.lit "id1")) (JStr (Py.lit "Age?"))
                                 JNull)).
  - intros e f [<- | []] Hg. vm_compute in Hg. discriminate Hg.
  - reflexivity.
  - intros s. discriminate.
Defined.

Lemma build_typeform_json_ignores_known_questions_witness :
  BuildUserJson.build_typeform_json
    (Py.lit "t0") (Py.lit "t1")
    [BuildUserJson.mkEntry (Py.lit "r1") (Py.lit "Age?") (Py.lit "29")]
    [(Py.lit "r1",
      BuildUserJson.mkInfo (JStr (Py.lit "id1")) (JStr (Py.lit "Age?"))
                           (JStr (Py.lit "number")))]
    (JStr (Py.lit "form1")) (JStr (Py.lit "Trips"))
  = BuildUserJson.build_typeform_json
      (Py.lit "t0") (Py.lit "t1")
      [BuildUserJson.mkEntry (Py.lit "r1") (Py.lit "something else")
                             (Py.lit "29")]
      [(Py.lit "r1",
        BuildUserJson.mkInfo (JStr (Py.lit "id1")) (JStr (Py.lit "Age?"))
                             (JStr (Py.lit "number")))]
      (JStr (Py.lit "form1")) (JStr (Py.lit "Trips")).
Proof.
  apply (build_typeform_json_ignores_known_questions
           [(Py.lit "r1",
             BuildUserJson.mkInfo (JStr (Py.lit "id1")) (JStr (Py.lit "Age?"))
                                  (JStr (Py.lit "number")))]
           (Py.lit "t0") (Py.lit "t1")
           [BuildUserJson.mkEntry (Py.lit "r1") (Py.lit "Age?") (Py.lit "29")]
           [BuildUserJson.mkEntry (Py.lit "r1") (Py.lit "something else")
                                  (Py.lit "29")]).
  repeat constructor.
Defined.

(** ** The normaliser on a payload without definition or answers *)

(** X25.  The normaliser needs the member [form_response] and nothing
    else: without it the call raises KeyError for that key; with it, and
    without a definition and without answers, the result holds the meta
    data that are present, None for those that are absent, an empty
    dict for absent hidden data, and no answer. *)
Theorem normalize_typeform_missing_members (d : Dict.t json) :
  (Dict.get (Py.lit "form_response") d = None ->
   NormalizeTypeform.normalize_typeform (JObj d)
   = raise (KeyError (Py.lit "form_response")))
  /\ (forall form,
        Dict.get (Py.lit "form_response") d = Some (JObj form) ->
        Dict.get (Py.lit "definition") form = None ->
        Dict.get (Py.lit "answers") form = None ->
        NormalizeTypeform.normalize_typeform (JObj d)
        = ok (JObj [
            (Py.lit "meta", JObj [
               (Py.lit "form_id",
                NormalizeTypeform.dget (Py.lit "form_id") form);
               (Py.lit "token", NormalizeTypeform.dget (Py.lit "token") form);
               (Py.lit "landed_at",
                NormalizeTypeform.dget (Py.lit "landed_at") form);
               (Py.lit "submitted_at",
                NormalizeTypeform.dget (Py.lit "submitted_at") form);
               (Py.lit "hidden",
                Spec.member_or (Py.lit "hidden") (JObj []) form)]);
            (Py.lit "answers", JArr [])])).
Proof.
  split.
  - intros H. unfold NormalizeTypeform.normalize_typeform, Json.item.
    rewrite H. reflexivity.
  - intros form H Hd Ha.
    assert (M1 : Spec.member_or (Py.lit "definition") (JObj []) form = JObj [])
      by (unfold Spec.member_or; rewrite Hd; reflexivity).
    assert (M2 : Spec.member_or (Py.lit "answers") (JArr []) form = JArr [])
      by (unfold Spec.member_or; rewrite Ha; reflexivity).
    unfold NormalizeTypeform.normalize_typeform, Json.item.
    rewrite H. cbn [bind ok].
    rewrite get_default_obj, M1. cbn [bind ok].
    rewrite get_default_obj.
    cbn [Spec.member_or Dict.get Json.iter bind ok
         NormalizeTypeform.add_fields].
    repeat (rewrite json_get_obj; cbn [bind ok]).
    rewrite get_default_obj. cbn [bind ok].
    rewrite get_default_obj, M2. cbn [Json.iter bind ok for_each].
    reflexivity.
Qed.

Lemma normalize_typeform_missing_members_witness :
  NormalizeTypeform.normalize_typeform
    (JObj [(Py.lit "event_id", JStr (Py.lit "e1"))])
  = raise (KeyError (Py.lit "form_response")).
Proof.
  exact (proj1 (normalize_typeform_missing_members
                  [(Py.lit "event_id", JStr (Py.lit "e1"))]) eq_refl).
Defined.

